(** * Session lifecycle and logging façade of the two walkthroughs

    A shallow embedding of [src/selenium_setup_guide.py] (the
    [WebAutomation] session, the driver set-up, the functional examples
    and [main]) and of [src/python_debug_logging.py] (the logging
    examples, the [AppLogger] façade, the decorator [log_function_call],
    the [DaifukuShop] example and the script), each part followed by
    the properties proved about it.

    Python integers are [Z], strings are [string] (UTF-8 bytes), a
    dictionary is a [gmap], an object attribute that may be [None] is an
    [option].  A Python function that may raise is a state transformer
    returning an [outcome]. *)

From Stdlib Require Import ZArith Ascii String List Lia SpecFloat.
From stdpp Require Import base option gmap strings list pretty.

Open Scope Z_scope.
Open Scope string_scope.

(* ===================================================================== *)
(** ** Python control flow: exceptions over an explicit state            *)
(* ===================================================================== *)

Module Py.

(** An exception instance: the name of its class and [str(e)]. *)
Record exc := Exc { exc_class : string; exc_str : string }.

Inductive outcome (A : Type) :=
| Ret (a : A)
| Raise (e : exc).
Arguments Ret {A} a.
Arguments Raise {A} e.

(** A statement sequence over a state [S]. *)
Definition M (S A : Type) : Type := S -> outcome A * S.

Definition ret {S A} (a : A) : M S A := fun s => (Ret a, s).

Definition bind {S A B} (m : M S A) (k : A -> M S B) : M S B :=
  fun s => match m s with
           | (Ret a, s') => k a s'
           | (Raise e, s') => (Raise e, s')
           end.

Definition raise {S A} (e : exc) : M S A := fun s => (Raise e, s).

(** [try: body / except Exception as e: handler e]. *)
Definition try_except {S A} (body : M S A) (handler : exc -> M S A) : M S A :=
  fun s => match body s with
           | (Ret a, s') => (Ret a, s')
           | (Raise e, s') => handler e s'
           end.

(** [try: body / finally: fin].  The [finally] suite always runs; an
    exception it raises replaces the outcome of the body. *)
Definition try_finally {S A} (body : M S A) (fin : M S unit) : M S A :=
  fun s => match body s with
           | (r, s') =>
               match fin s' with
               | (Ret _, s'') => (r, s'')
               | (Raise e, s'') => (Raise e, s'')
               end
           end.

Definition get {S} : M S S := fun s => (Ret s, s).
Definition modify {S} (f : S -> S) : M S unit := fun s => (Ret tt, f s).

(** [for x in xs: body x]. *)
Fixpoint for_each {S A} (xs : list A) (body : A -> M S unit) : M S unit :=
  match xs with
  | [] => ret tt
  | x :: xs' => bind (body x) (fun _ => for_each xs' body)
  end.

Definition is_raise {A} (r : outcome A) : bool :=
  match r with Raise _ => true | Ret _ => false end.

Module Notations.
Notation "x <- c1 ;; c2" := (bind c1 (fun x => c2))
  (at level 100, c1 at next level, right associativity).
Notation "c1 ;; c2" := (bind c1 (fun _ => c2))
  (at level 100, right associativity).
End Notations.

End Py.

(** The five levels of the [logging] module, with their numeric values;
    both source files use them. *)
Inductive Level := DEBUG | INFO | WARNING | ERROR | CRITICAL.

Definition levelno (l : Level) : Z :=
  match l with
  | DEBUG => 10 | INFO => 20 | WARNING => 30 | ERROR => 40 | CRITICAL => 50
  end.

Definition levelname (l : Level) : string :=
  match l with
  | DEBUG => "DEBUG" | INFO => "INFO" | WARNING => "WARNING"
  | ERROR => "ERROR" | CRITICAL => "CRITICAL"
  end.

(** [logging.NOTSET]. *)
Definition NOTSET : Z := 0.

(* ===================================================================== *)
(** ** selenium_setup_guide.py                                           *)
(* ===================================================================== *)

Module Selenium.
Import Py Py.Notations.

(** A live browser (the [WebDriver] object) and a located element. *)
Definition handle := nat.
Definition element := nat.

(** The calls the module makes on its collaborators: the driver
    manager, the browser driver and [time.sleep]. *)
Inductive call :=
| Install                                          (* ChromeDriverManager().install() *)
| Chrome (arguments : list string)                 (* webdriver.Chrome(service=, options=) *)
| ImplicitlyWait (h : handle) (seconds : Z)        (* driver.implicitly_wait(n) *)
| Get (h : handle) (url : string)                  (* driver.get(url) *)
| FindElement (h : handle) (by_ value : string)    (* driver.find_element(by, value) *)
| FindElements (h : handle) (by_ value : string)   (* driver.find_elements(by, value) *)
| SendKeys (h : handle) (e : element) (keys : string)  (* element.send_keys(keys) *)
| Text (h : handle) (e : element)                  (* element.text *)
| SaveScreenshot (h : handle) (filename : string)  (* driver.save_screenshot(f) *)
| Quit (h : handle)                                (* driver.quit() *)
| Sleep (seconds : Z).                             (* time.sleep(n) *)

#[global] Instance call_eq_dec : EqDecision call.
Proof. solve_decision. Defined.

(** The collaborators are not part of the repository: how each call
    answers after a given history of calls is a parameter.  [rm_fail]
    says whether the call raises; the other fields are the values
    returned by a call that does not. *)
Record Remote := {
  rm_fail : list call -> call -> option exc;
  rm_element : list call -> element;
  rm_elements : list call -> list element;
  rm_text : list call -> element -> string
}.

(** The module state: the [driver] attribute of the one
    [WebAutomation] object, every collaborator call issued so far
    (oldest first) and the records passed to the module [logger]. *)
Record state := {
  driver : option handle;
  calls : list call;
  logged : list (Level * string)
}.

Definition set_driver (d : option handle) (s : state) : state :=
  {| driver := d; calls := calls s; logged := logged s |}.
Definition add_call (c : call) (s : state) : state :=
  {| driver := driver s; calls := calls s ++ [c]; logged := logged s |}.
Definition add_log (l : Level) (m : string) (s : state) : state :=
  {| driver := driver s; calls := calls s; logged := logged s ++ [(l, m)] |}.

Definition is_Chrome (c : call) : bool :=
  match c with Chrome _ => true | _ => false end.

(** Number of browsers requested so far; the next browser gets this
    number as its handle. *)
Definition acquired (cs : list call) : nat := length (filter is_Chrome cs).

(** Number of [quit()] calls issued on [h]. *)
Definition released (h : handle) (cs : list call) : nat :=
  length (filter (fun c => c = Quit h) cs).

(** The state when the module has just been imported. *)
Definition fresh : state := {| driver := None; calls := []; logged := [] |}.

(** [WebAutomation.__init__]: [self.driver = None], then one record. *)
Definition WebAutomation_init (s : state) : state :=
  add_log INFO "WebAutomationクラスを初期化しました" (set_driver None s).

(** Strings of the source. *)
Definition keys_RETURN : string := String (Ascii.ascii_of_nat 238)
  (String (Ascii.ascii_of_nat 128) (String (Ascii.ascii_of_nat 134) "")).
Definition not_started : exc := Exc "ValueError" "ブラウザが起動していません".
Definition chrome_arguments : list string :=
  ["--start-maximized"; "--disable-notifications"; "--disable-popup-blocking"].

Section WithRemote.
Variable remote : Remote.

Definition ST := M state.

(** [logger.info(...)], [logger.error(...)] on the module logger. *)
Definition log (l : Level) (m : string) : ST unit := modify (add_log l m).

(** Issue a collaborator call: it is recorded, then it returns or
    raises as the collaborator decides. *)
Definition perform (c : call) : ST (list call) :=
  fun s => match rm_fail remote (calls s) c with
           | Some e => (Raise e, add_call c s)
           | None => (Ret (calls s), add_call c s)
           end.

Definition sleep (n : Z) : ST unit := modify (add_call (Sleep n)).

(** [setup_driver_with_options()]. *)
Definition setup_driver_with_options : ST handle :=
  try_except
    (log INFO "WebDriver（オプション付き）を初期化しています..." ;;
     perform Install ;;
     before <- perform (Chrome chrome_arguments) ;;
     let driver := acquired before in
     perform (ImplicitlyWait driver 10) ;;
     log INFO "WebDriverの初期化が完了しました" ;;
     ret driver)
    (fun e =>
       log ERROR ("WebDriverの初期化に失敗: " +:+ exc_str e) ;;
       raise e).

(** [WebAutomation.start]. *)
Definition start : ST unit :=
  log INFO "ブラウザを起動します" ;;
  d <- setup_driver_with_options ;;
  modify (set_driver (Some d)).

(** [WebAutomation.stop]. *)
Definition stop : ST unit :=
  s <- get ;;
  match driver s with
  | Some d =>
      log INFO "ブラウザを終了します" ;;
      perform (Quit d) ;;
      modify (set_driver None)
  | None => ret tt
  end.

(** [for i, result in enumerate(results, start): logger.info(...)]. *)
Fixpoint log_results (d : handle) (i : Z) (results : list element) : ST unit :=
  match results with
  | [] => ret tt
  | result :: rest =>
      before <- perform (Text d result) ;;
      log INFO ("  " +:+ pretty i +:+ ". " +:+ rm_text remote before result) ;;
      log_results d (i + 1) rest
  end.

(** [WebAutomation.search_daifuku_recipe]. *)
Definition search_daifuku_recipe (keyword : string) : ST unit :=
  s <- get ;;
  match driver s with
  | None => raise not_started
  | Some d =>
      try_except
        (log INFO ("「" +:+ keyword +:+ "」を検索します") ;;
         perform (Get d "https://www.google.com") ;;
         sleep 2 ;;
         before <- perform (FindElement d "name" "q") ;;
         let search_box := rm_element remote before in
         perform (SendKeys d search_box keyword) ;;
         perform (SendKeys d search_box keys_RETURN) ;;
         sleep 3 ;;
         before <- perform (FindElements d "css selector" "h3") ;;
         let results := rm_elements remote before in
         log INFO (pretty (Z.of_nat (length results))
                   +:+ "件の検索結果が見つかりました") ;;
         log_results d 1 (take 3 results))
        (fun e =>
           log ERROR ("検索中にエラー: " +:+ exc_str e) ;;
           raise e)
  end.

(** [WebAutomation.take_screenshot]. *)
Definition take_screenshot (filename : string) : ST unit :=
  s <- get ;;
  match driver s with
  | None => raise not_started
  | Some d =>
      try_except
        (perform (SaveScreenshot d filename) ;;
         log INFO ("スクリーンショットを保存しました: " +:+ filename))
        (fun e =>
           log ERROR ("スクリーンショット保存エラー: " +:+ exc_str e) ;;
           raise e)
  end.

(** The action methods of a session (every method but [start] and
    [stop]). *)
Inductive action :=
| Search (keyword : string)
| Screenshot (filename : string).

Definition act (a : action) : ST unit :=
  match a with
  | Search keyword => search_daifuku_recipe keyword
  | Screenshot filename => take_screenshot filename
  end.

(** The frame of method 3 in [main]:
    [try: automation.start(); <actions> / finally: automation.stop()]. *)
Definition scoped (body : list action) : ST unit :=
  try_finally (start ;; for_each body act) stop.

(** Method 3 of [main]: [automation = WebAutomation()], then the
    frame around [start], one search and one screenshot (the [print] of
    the heading is left out). *)
Definition main_method3 : ST unit :=
  fun s =>
    scoped [Search "ふわふわ大福 作り方"; Screenshot "daifuku_search.png"]
           (WebAutomation_init s).

End WithRemote.

End Selenium.

(* ===================================================================== *)
(** ** python_debug_logging.py: the logging façade                       *)
(* ===================================================================== *)

Module Logging.
Import Py Py.Notations.

(** The line terminator of a stream handler. *)
Definition nl : string := String (Ascii.ascii_of_nat 10) "".

(** *** Time stamps *)

Record datetime := {
  year : Z; month : Z; day : Z; hour : Z; minute : Z; second : Z; msecs : Z
}.

(** [%0<width>d]. *)
Definition zero_pad (width : nat) (n : Z) : string :=
  let digits := pretty n in
  String.concat "" (replicate (width - String.length digits) "0") +:+ digits.

Definition directive (c : Ascii.ascii) (t : datetime) : string :=
  if Ascii.eqb c "Y"%char then zero_pad 4 (year t)
  else if Ascii.eqb c "m"%char then zero_pad 2 (month t)
  else if Ascii.eqb c "d"%char then zero_pad 2 (day t)
  else if Ascii.eqb c "H"%char then zero_pad 2 (hour t)
  else if Ascii.eqb c "M"%char then zero_pad 2 (minute t)
  else if Ascii.eqb c "S"%char then zero_pad 2 (second t)
  else String "%" (String c "").

(** [t.strftime(fmt)], for the directives the source uses. *)
Fixpoint strftime (fmt : string) (t : datetime) : string :=
  match fmt with
  | EmptyString => ""
  | String c rest =>
      if Ascii.eqb c "%"%char then
        match rest with
        | String d rest' => directive d t +:+ strftime rest' t
        | EmptyString => "%"
        end
      else String c (strftime rest t)
  end.

(** *** Records and formatters *)

Record LogRecord := {
  name : string;
  level : Level;
  msg : string;
  funcName : string;
  lineno : Z;
  created : datetime;
  exc_text : option string      (* the traceback text when exc_info is set *)
}.

Record Formatter := { fmt : string; datefmt : option string }.

(** [fmt % record.__dict__] for a template made of [%(key)s] and
    [%(key)d] fields. *)
Inductive scan := Lit | Percent | Key (k : string) | Conv (k : string).

Fixpoint percent_format (template : string) (st : scan)
         (fields : string -> string) : string :=
  match template with
  | EmptyString => ""
  | String c rest =>
      match st with
      | Lit =>
          if Ascii.eqb c "%"%char then percent_format rest Percent fields
          else String c (percent_format rest Lit fields)
      | Percent =>
          if Ascii.eqb c "("%char then percent_format rest (Key "") fields
          else String c (percent_format rest Lit fields)
      | Key k =>
          if Ascii.eqb c ")"%char then percent_format rest (Conv k) fields
          else percent_format rest (Key (k +:+ String c "")) fields
      | Conv k => fields k +:+ percent_format rest Lit fields
      end
  end.

Definition field (asctime : string) (r : LogRecord) (key : string) : string :=
  if String.eqb key "asctime" then asctime
  else if String.eqb key "name" then name r
  else if String.eqb key "levelname" then levelname (level r)
  else if String.eqb key "message" then msg r
  else if String.eqb key "funcName" then funcName r
  else if String.eqb key "lineno" then pretty (lineno r)
  else "".

(** [Formatter.formatTime]. *)
Definition formatTime (f : Formatter) (r : LogRecord) : string :=
  match datefmt f with
  | Some d => strftime d (created r)
  | None => strftime "%Y-%m-%d %H:%M:%S" (created r)
            +:+ "," +:+ zero_pad 3 (msecs (created r))
  end.

Fixpoint ends_with_newline (s : string) : bool :=
  match s with
  | EmptyString => false
  | String c EmptyString => Ascii.eqb c (Ascii.ascii_of_nat 10)
  | String _ rest => ends_with_newline rest
  end.

(** [Formatter.format]: the filled template, then the traceback text
    on the following lines when the record carries one. *)
Definition format (f : Formatter) (r : LogRecord) : string :=
  let s := percent_format (fmt f) Lit (field (formatTime f r) r) in
  match exc_text r with
  | Some text => (if ends_with_newline s then s else s +:+ nl) +:+ text
  | None => s
  end.

Definition default_formatter : Formatter :=
  {| fmt := "%(message)s"; datefmt := None |}.

(** *** Handlers (sinks) *)

Inductive stream := stdout | stderr.

(** A path as the operands of pathlib's [/]: [Path("logs") / f] is
    [["logs"; f]] (what pathlib makes of separators inside an operand is
    not modelled). *)
Definition path := list string.

Inductive target :=
| Stream (s : stream)
| File (filename : path) (encoding : string).

Record Handler := {
  h_target : target;
  h_level : Z;
  h_formatter : option Formatter
}.

(** [logging.StreamHandler(stream)], [Handler.setLevel],
    [Handler.setFormatter]. *)
Definition StreamHandler (s : stream) : Handler :=
  {| h_target := Stream s; h_level := NOTSET; h_formatter := None |}.
Definition Handler_setLevel (l : Level) (h : Handler) : Handler :=
  {| h_target := h_target h; h_level := levelno l; h_formatter := h_formatter h |}.
Definition Handler_setFormatter (f : Formatter) (h : Handler) : Handler :=
  {| h_target := h_target h; h_level := h_level h; h_formatter := Some f |}.

(** [Handler.format]. *)
Definition Handler_format (h : Handler) (r : LogRecord) : string :=
  format (default default_formatter (h_formatter h)) r.

(** *** The world the module acts on *)

Record Logger := { lg_level : Z; lg_handlers : list Handler }.

Inductive node := Dir | Regular (content : string).

(** What is written to a standard stream: text, or the diagnostic that
    [Handler.handleError] prints for a failed sink. *)
Inductive chunk :=
| Text (s : string)
| LoggingError (e : exc) (r : LogRecord).

(** Operations of the operating system that may fail. *)
Inductive syscall :=
| Mkdir (p : path)
| Open (p : path)
| Write (t : target) (text : string).

Record World := {
  w_loggers : gmap string Logger;   (* the loggers by name; the root logger is "root" *)
  w_fs : gmap path node;
  w_stdout : list chunk;
  w_stderr : list chunk;
  w_now : datetime;                 (* datetime.now(), time.time() *)
  w_exc : option string;            (* traceback text of the exception being handled *)
  w_os : syscall -> option exc;     (* the I/O failures of the environment *)
  w_handled : list (Handler * LogRecord)  (* every call of Handler.handle, in order *)
}.

Definition ST := M World.

Definition set_loggers (f : gmap string Logger -> gmap string Logger) (w : World) :=
  {| w_loggers := f (w_loggers w); w_fs := w_fs w; w_stdout := w_stdout w;
     w_stderr := w_stderr w; w_now := w_now w; w_exc := w_exc w; w_os := w_os w;
     w_handled := w_handled w |}.
Definition set_fs (f : gmap path node -> gmap path node) (w : World) :=
  {| w_loggers := w_loggers w; w_fs := f (w_fs w); w_stdout := w_stdout w;
     w_stderr := w_stderr w; w_now := w_now w; w_exc := w_exc w; w_os := w_os w;
     w_handled := w_handled w |}.
Definition add_stdout (c : chunk) (w : World) :=
  {| w_loggers := w_loggers w; w_fs := w_fs w; w_stdout := w_stdout w ++ [c];
     w_stderr := w_stderr w; w_now := w_now w; w_exc := w_exc w; w_os := w_os w;
     w_handled := w_handled w |}.
Definition add_stderr (c : chunk) (w : World) :=
  {| w_loggers := w_loggers w; w_fs := w_fs w; w_stdout := w_stdout w;
     w_stderr := w_stderr w ++ [c]; w_now := w_now w; w_exc := w_exc w; w_os := w_os w;
     w_handled := w_handled w |}.
Definition add_handled (h : Handler) (r : LogRecord) (w : World) :=
  {| w_loggers := w_loggers w; w_fs := w_fs w; w_stdout := w_stdout w;
     w_stderr := w_stderr w; w_now := w_now w; w_exc := w_exc w; w_os := w_os w;
     w_handled := w_handled w ++ [(h, r)] |}.
Definition set_now (t : datetime) (w : World) :=
  {| w_loggers := w_loggers w; w_fs := w_fs w; w_stdout := w_stdout w;
     w_stderr := w_stderr w; w_now := t; w_exc := w_exc w; w_os := w_os w;
     w_handled := w_handled w |}.

(** *** The logger registry *)

Definition root : string := "root".

(** A logger as [logging] creates it: the root logger at WARNING, any
    other at NOTSET, without handlers. *)
Definition new_logger (key : string) : Logger :=
  {| lg_level := if String.eqb key root then levelno WARNING else NOTSET;
     lg_handlers := [] |}.

Definition find_logger (key : string) (m : gmap string Logger) : Logger :=
  default (new_logger key) (m !! key).

Definition lookup_logger (key : string) (w : World) : Logger :=
  find_logger key (w_loggers w).

(** [logging.getLogger(name)]: the one logger of that name, created on
    first use; the empty name and ["root"] give the root logger. *)
Definition getLogger (name : string) : ST string :=
  let key := if String.eqb name "" then root else name in
  modify (set_loggers (fun m => <[key := find_logger key m]> m)) ;;
  ret key.

Definition update_logger (key : string) (f : Logger -> Logger) : ST unit :=
  modify (set_loggers (fun m => <[key := f (find_logger key m)]> m)).

(** [logger.setLevel(l)], [logger.handlers.clear()] and
    [logger.addHandler(h)] ([h] is a new object each time the source
    adds one, so it is never already in the list). *)
Definition Logger_setLevel (key : string) (l : Level) : ST unit :=
  update_logger key
    (fun lg => {| lg_level := levelno l; lg_handlers := lg_handlers lg |}).
Definition handlers_clear (key : string) : ST unit :=
  update_logger key
    (fun lg => {| lg_level := lg_level lg; lg_handlers := [] |}).
Definition addHandler (key : string) (h : Handler) : ST unit :=
  update_logger key
    (fun lg => {| lg_level := lg_level lg; lg_handlers := lg_handlers lg ++ [h] |}).

(** *** Files *)

(** [p.mkdir(exist_ok=True)]. *)
Definition mkdir_exist_ok (p : path) : ST unit :=
  fun w =>
    match w_fs w !! p with
    | Some Dir => (Ret tt, w)
    | Some (Regular _) => (Raise (Exc "FileExistsError" "[Errno 17] File exists"), w)
    | None =>
        match w_os w (Mkdir p) with
        | Some e => (Raise e, w)
        | None => (Ret tt, set_fs (fun fs => <[p := Dir]> fs) w)
        end
    end.

(** [logging.FileHandler(filename, encoding=encoding)]: the file is
    opened for appending at once, and created when it is missing. *)
Definition FileHandler (filename : path) (encoding : string) : ST Handler :=
  fun w =>
    let h := {| h_target := File filename encoding; h_level := NOTSET;
                h_formatter := None |} in
    match w_fs w !! filename with
    | Some Dir => (Raise (Exc "IsADirectoryError" "[Errno 21] Is a directory"), w)
    | Some (Regular _) =>
        match w_os w (Open filename) with
        | Some e => (Raise e, w)
        | None => (Ret h, w)
        end
    | None =>
        match w_os w (Open filename) with
        | Some e => (Raise e, w)
        | None => (Ret h, set_fs (fun fs => <[filename := Regular ""]> fs) w)
        end
    end.

Definition content_of (p : path) (fs : gmap path node) : string :=
  match fs !! p with
  | Some (Regular c) => c
  | _ => ""
  end.

Definition write_out (t : target) (text : string) (w : World) : World :=
  match t with
  | Stream stdout => add_stdout (Text text) w
  | Stream stderr => add_stderr (Text text) w
  | File p _ => set_fs (fun fs => <[p := Regular (content_of p fs +:+ text)]> fs) w
  end.

(** [stream.write(text); flush()]: fails when the environment says so. *)
Definition stream_write (t : target) (text : string) : ST unit :=
  fun w =>
    match w_os w (Write t text) with
    | Some e => (Raise e, w)
    | None => (Ret tt, write_out t text w)
    end.

(** [print(s)]. *)
Definition print (s : string) : ST unit := modify (add_stdout (Text (s +:+ nl))).

(** *** Dispatch of a record ([logging] internals the source relies on) *)

(** [Handler.handleError], with [logging.raiseExceptions] at its default
    [True]: a diagnostic on [sys.stderr]; a failure to write it is
    swallowed. *)
Definition handleError (r : LogRecord) (e : exc) : ST unit :=
  fun w =>
    match w_os w (Write (Stream stderr) ("--- Logging error ---" +:+ nl)) with
    | Some _ => (Ret tt, w)
    | None => (Ret tt, add_stderr (LoggingError e r) w)
    end.

(** [StreamHandler.emit] (and [FileHandler.emit] on an open file):
    [try: format, write, flush / except Exception: handleError].  The
    failures are those of formatting and of I/O, which [w_os] decides for
    the text and its target; [emit] lets a [RecursionError] through,
    which is neither. *)
Definition emit (h : Handler) (r : LogRecord) : ST unit :=
  try_except (stream_write (h_target h) (Handler_format h r +:+ nl))
             (handleError r).

(** [Handler.handle]. *)
Definition handle (h : Handler) (r : LogRecord) : ST unit :=
  modify (add_handled h r) ;;
  emit h r.

(** [if record.levelno >= hdlr.level: hdlr.handle(record)]. *)
Definition offer (r : LogRecord) (h : Handler) : ST unit :=
  if (h_level h <=? levelno (level r))%Z then handle h r else ret tt.

(** [logging.lastResort]. *)
Definition lastResort : Handler := Handler_setLevel WARNING (StreamHandler stderr).

(** [Logger.callHandlers]: the handlers of the logger, then those of
    its parent, the root logger (the names this repository uses have no
    dots, so there is no logger in between); the last resort when there
    is no handler at all. *)
Definition callHandlers (key : string) (r : LogRecord) : ST unit :=
  w <- get ;;
  let own := lg_handlers (lookup_logger key w) in
  let inherited :=
    if String.eqb key root then [] else lg_handlers (lookup_logger root w) in
  for_each own (offer r) ;;
  for_each inherited (offer r) ;;
  if (length own + length inherited =? 0)%nat then offer r lastResort else ret tt.

(** [Logger.getEffectiveLevel]. *)
Definition getEffectiveLevel (key : string) (w : World) : Z :=
  let own := lg_level (lookup_logger key w) in
  if (own =? NOTSET)%Z && negb (String.eqb key root)
  then lg_level (lookup_logger root w)
  else own.

(** [Logger.debug] ... [Logger.critical]:
    [if self.isEnabledFor(level): self._log(level, msg, exc_info=...)].
    [caller] is the function and line of the calling statement, which
    [logging] finds on the stack. *)
Definition Logger_log (key : string) (l : Level) (message : string)
           (exc_info : bool) (caller : string * Z) : ST unit :=
  w <- get ;;
  if (getEffectiveLevel key w <=? levelno l)%Z then
    callHandlers key
      {| name := key; level := l; msg := message;
         funcName := fst caller; lineno := snd caller;
         created := w_now w;
         exc_text := if exc_info
                     then Some (default "NoneType: None" (w_exc w))
                     else None |}
  else ret tt.

(** *** class AppLogger *)

(** An [AppLogger] holds [self.logger], a reference to the registry's
    logger of that name. *)
Record AppLogger := { logger : string }.

Definition console_format : Formatter :=
  {| fmt := "%(asctime)s [%(levelname)s] %(message)s"; datefmt := Some "%H:%M:%S" |}.
Definition file_format : Formatter :=
  {| fmt := "%(asctime)s [%(levelname)s] %(funcName)s:%(lineno)d - %(message)s";
     datefmt := None |}.

Definition path_div (p : path) (s : string) : path := (p ++ [s])%list.

(** [AppLogger.__init__]. *)
Definition AppLogger_init (name : string) (log_to_file : bool) : ST AppLogger :=
  lg <- getLogger name ;;
  Logger_setLevel lg DEBUG ;;
  handlers_clear lg ;;
  let console_handler := StreamHandler stdout in
  let console_handler := Handler_setLevel INFO console_handler in
  let console_handler := Handler_setFormatter console_format console_handler in
  addHandler lg console_handler ;;
  (if log_to_file then
     let log_dir := ["logs"] in
     mkdir_exist_ok log_dir ;;
     w <- get ;;
     let log_file :=
       path_div log_dir (name +:+ "_" +:+ strftime "%Y%m%d" (w_now w) +:+ ".log") in
     file_handler <- FileHandler log_file "utf-8" ;;
     let file_handler := Handler_setLevel DEBUG file_handler in
     let file_handler := Handler_setFormatter file_format file_handler in
     addHandler lg file_handler
   else ret tt) ;;
  ret {| logger := lg |}.

(** The five methods; each forwards to the logger from its own line. *)
Definition AppLogger_debug (self : AppLogger) (message : string) : ST unit :=
  Logger_log (logger self) DEBUG message false ("debug", 168).
Definition AppLogger_info (self : AppLogger) (message : string) : ST unit :=
  Logger_log (logger self) INFO message false ("info", 172).
Definition AppLogger_warning (self : AppLogger) (message : string) : ST unit :=
  Logger_log (logger self) WARNING message false ("warning", 176).
Definition AppLogger_error (self : AppLogger) (message : string)
           (exc_info : bool) : ST unit :=
  Logger_log (logger self) ERROR message exc_info ("error", 180).
Definition AppLogger_critical (self : AppLogger) (message : string) : ST unit :=
  Logger_log (logger self) CRITICAL message false ("critical", 184).

(** A call of the façade at level [l] ([exc_info] is read by [error]
    only). *)
Definition AppLogger_log (self : AppLogger) (l : Level) (message : string)
           (exc_info : bool) : ST unit :=
  match l with
  | DEBUG => AppLogger_debug self message
  | INFO => AppLogger_info self message
  | WARNING => AppLogger_warning self message
  | ERROR => AppLogger_error self message exc_info
  | CRITICAL => AppLogger_critical self message
  end.

(** The record such a call builds. *)
Definition AppLogger_record (self : AppLogger) (l : Level) (message : string)
           (exc_info : bool) (w : World) : LogRecord :=
  {| name := logger self; level := l; msg := message;
     funcName := match l with
                 | DEBUG => "debug" | INFO => "info" | WARNING => "warning"
                 | ERROR => "error" | CRITICAL => "critical"
                 end;
     lineno := match l with
               | DEBUG => 168 | INFO => 172 | WARNING => 176
               | ERROR => 180 | CRITICAL => 184
               end;
     created := w_now w;
     exc_text := match l with
                 | ERROR => if exc_info
                            then Some (default "NoneType: None" (w_exc w))
                            else None
                 | _ => None
                 end |}.

(** *** file_logging_example *)

Definition banner : string := String.concat "" (replicate 60 "=").

Definition example_format : Formatter :=
  {| fmt := "%(asctime)s - %(name)s - %(levelname)s - %(message)s";
     datefmt := Some "%Y-%m-%d %H:%M:%S" |}.

(** [file_logging_example()], in a module whose [__name__] is
    [module]; it returns the logger. *)
Definition file_logging_example (module : string) : ST string :=
  print (nl +:+ banner) ;;
  print "ファイルロギング" ;;
  print banner ;;
  let log_dir := ["logs"] in
  mkdir_exist_ok log_dir ;;
  w <- get ;;
  let log_file :=
    path_div log_dir ("app_" +:+ strftime "%Y%m%d_%H%M%S" (w_now w) +:+ ".log") in
  lg <- getLogger module ;;
  Logger_setLevel lg DEBUG ;;
  file_handler <- FileHandler log_file "utf-8" ;;
  let file_handler := Handler_setLevel DEBUG file_handler in
  let console_handler := StreamHandler stderr in
  let console_handler := Handler_setLevel INFO console_handler in
  let file_handler := Handler_setFormatter example_format file_handler in
  let console_handler := Handler_setFormatter example_format console_handler in
  addHandler lg file_handler ;;
  addHandler lg console_handler ;;
  Logger_log lg DEBUG "これはデバッグログ（ファイルのみ）" false ("file_logging_example", 108) ;;
  Logger_log lg INFO "これは情報ログ（ファイル＋コンソール）" false ("file_logging_example", 109) ;;
  Logger_log lg WARNING "これは警告ログ" false ("file_logging_example", 110) ;;
  Logger_log lg ERROR "これはエラーログ" false ("file_logging_example", 111) ;;
  print (nl +:+ "ログファイル保存先: " +:+ String.concat "/" log_file) ;;
  ret lg.

(** *** A concrete world *)

Definition noon : datetime :=
  {| year := 2025; month := 10; day := 4; hour := 12; minute := 0; second := 0;
     msecs := 7 |}.

(** The world of a process that has just imported [logging]: no named
    logger, an empty working directory, no I/O failure. *)
Definition boot : World :=
  {| w_loggers := ∅; w_fs := ∅; w_stdout := []; w_stderr := [];
     w_now := noon; w_exc := None; w_os := fun _ => None; w_handled := [] |}.

End Logging.

(* ===================================================================== *)
(** ** python_debug_logging.py: the decorator and the shop               *)
(* ===================================================================== *)

Module Shop.
Import Py Py.Notations.

(** Python floats, as far as the shop uses them: [0.0], [a + b],
    [count * price] for an integer [count] (which raises
    [OverflowError] when [count] is too large for a float), [str(x)]
    and the test [x >= 0.0], with the sign rules of the arithmetic. *)
Class PyFloat := {
  float : Type;
  float_zero : float;
  float_add : float -> float -> float;
  int_mul : Z -> float -> option float;
  float_str : float -> string;
  float_nonneg : float -> Prop;
  float_nonneg_dec : forall x, Decision (float_nonneg x);
  float_zero_nonneg : float_nonneg float_zero;
  float_add_nonneg :
    forall a b, float_nonneg a -> float_nonneg b -> float_nonneg (float_add a b);
  int_mul_nonneg :
    forall n x y, 0 < n -> float_nonneg x -> int_mul n x = Some y -> float_nonneg y
}.

Section WithFloat.
Context {F : PyFloat}.

(** *** Objects *)

(** The values that reach the decorator and the shop methods.  A
    function value is a [def] of the source or a closure over the
    variables it captures. *)
Inductive value :=
| VNone
| VBool (b : bool)
| VInt (n : Z)
| VFloat (x : float)
| VShop                             (* the DaifukuShop instance *)
| VAppLogger (lg : Logging.AppLogger)
| VFunc (f : func)
with func :=
| Fn_make_daifuku                   (* def make_daifuku(self, count) *)
| Fn_sell                           (* def sell(self, count, price) *)
| Fn_log_function_call              (* def log_function_call(logger) *)
| Fn_decorator (logger : value)     (* def decorator(func), closed over logger *)
| Fn_wrapper (logger : value) (fn : value). (* def wrapper, closed over logger and func *)

(** The attributes of a [DaifukuShop]. *)
Record DaifukuShop := {
  name : string;
  stock : Z;
  sales : float;
  logger : Logging.AppLogger
}.

(** The shop instance and the world of the logging module. *)
Record Heap := { self : DaifukuShop; world : Logging.World }.

Definition HM := M Heap.

Definition set_stock (n : Z) (h : Heap) : Heap :=
  {| self := {| name := name (self h); stock := n; sales := sales (self h);
                logger := logger (self h) |};
     world := world h |}.
Definition set_sales (x : float) (h : Heap) : Heap :=
  {| self := {| name := name (self h); stock := stock (self h); sales := x;
                logger := logger (self h) |};
     world := world h |}.

(** Run a statement of the logging module on the world of the heap. *)
Definition in_world {A} (m : Logging.ST A) : HM A :=
  fun h => let (r, w) := m (world h) in (r, {| self := self h; world := w |}).

(** *** The function bodies as written *)

(** The body of [make_daifuku] (lines 263-271). *)
Definition make_daifuku_def (count : Z) : HM bool :=
  h <- get ;;
  if (count <=? 0)%Z then
    in_world (Logging.AppLogger_warning (logger (self h))
                ("不正な個数: " +:+ pretty count)) ;;
    ret false
  else
    modify (set_stock (stock (self h) + count)) ;;
    h <- get ;;
    in_world (Logging.AppLogger_info (logger (self h))
                ("大福 " +:+ pretty count +:+ "個 作成完了 → 在庫 "
                 +:+ pretty (stock (self h)) +:+ "個")) ;;
    ret true.

(** The body of [sell] (lines 274-288). *)
Definition sell_def (count : Z) (price : float) : HM bool :=
  h <- get ;;
  if (count <=? 0)%Z then
    in_world (Logging.AppLogger_warning (logger (self h))
                ("不正な販売個数: " +:+ pretty count)) ;;
    ret false
  else if (stock (self h) <? count)%Z then
    in_world (Logging.AppLogger_error (logger (self h))
                ("在庫不足: 要求" +:+ pretty count +:+ "個、在庫"
                 +:+ pretty (stock (self h)) +:+ "個") false) ;;
    ret false
  else
    modify (set_stock (stock (self h) - count)) ;;
    match int_mul count price with
    | None => raise (Exc "OverflowError" "int too large to convert to float")
    | Some amount =>
        modify (set_sales (float_add (sales (self h)) amount)) ;;
        h <- get ;;
        in_world (Logging.AppLogger_info (logger (self h))
                    ("販売成功: " +:+ pretty count +:+ "個 × " +:+ float_str price
                     +:+ "円 = " +:+ float_str amount +:+ "円")) ;;
        in_world (Logging.AppLogger_info (logger (self h))
                    ("現在の状態: 在庫" +:+ pretty (stock (self h)) +:+ "個、売上"
                     +:+ float_str (sales (self h)) +:+ "円")) ;;
        ret true
    end.

(** [DaifukuShop.__init__]. *)
Definition DaifukuShop_init (shop_name : string) : Logging.ST DaifukuShop :=
  lg <- Logging.AppLogger_init shop_name true ;;
  Logging.AppLogger_info lg (shop_name +:+ " を開店しました") ;;
  ret {| name := shop_name; stock := 0; sales := float_zero; logger := lg |}.

(** [DaifukuShop.close_shop]. *)
Definition close_shop : HM unit :=
  h <- get ;;
  let rule := String.concat "" (replicate 40 "=") in
  let info := fun m => in_world (Logging.AppLogger_info (logger (self h)) m) in
  info rule ;;
  info "閉店処理" ;;
  info ("本日の売上: " +:+ float_str (sales (self h)) +:+ "円") ;;
  info ("残り在庫: " +:+ pretty (stock (self h)) +:+ "個") ;;
  info rule.

(** *** Calling a function value *)

Definition func_name (f : func) : string :=
  match f with
  | Fn_make_daifuku => "make_daifuku"
  | Fn_sell => "sell"
  | Fn_log_function_call => "log_function_call"
  | Fn_decorator _ => "decorator"
  | Fn_wrapper _ _ => "wrapper"
  end.

Definition qualname (f : func) : string :=
  match f with
  | Fn_make_daifuku => "DaifukuShop.make_daifuku"
  | Fn_sell => "DaifukuShop.sell"
  | Fn_log_function_call => "log_function_call"
  | Fn_decorator _ => "log_function_call.<locals>.decorator"
  | Fn_wrapper _ _ => "log_function_call.<locals>.decorator.<locals>.wrapper"
  end.

Definition type_name (v : value) : string :=
  match v with
  | VNone => "NoneType" | VBool _ => "bool" | VInt _ => "int"
  | VFloat _ => "float" | VShop => "DaifukuShop"
  | VAppLogger _ => "AppLogger" | VFunc _ => "function"
  end.

(** [str(v)]; the address in the representation of an object is left
    out. *)
Definition str (v : value) : string :=
  match v with
  | VNone => "None"
  | VBool b => if b then "True" else "False"
  | VInt n => pretty n
  | VFloat x => float_str x
  | VShop => "<__main__.DaifukuShop object>"
  | VAppLogger _ => "<__main__.AppLogger object>"
  | VFunc f => "<function " +:+ qualname f +:+ ">"
  end.

(** [str(args)] for the tuple [args]. *)
Definition str_tuple (args : list value) : string :=
  match args with
  | [v] => "(" +:+ str v +:+ ",)"
  | _ => "(" +:+ String.concat ", " (map str args) +:+ ")"
  end.

Definition plural (n : nat) : string := if (n =? 1)%nat then "" else "s".

(** The [TypeError] of a call with the wrong number of positional
    arguments, for a function of [params] parameters. *)
Definition arity_error (f : func) (params : list string) (given : nat) : exc :=
  let expected := length params in
  if (given <? expected)%nat then
    let missing := drop given params in
    Exc "TypeError"
        (qualname f +:+ "() missing " +:+ pretty (length missing)
         +:+ " required positional argument" +:+ plural (length missing) +:+ ": "
         +:+ String.concat ", " (map (fun p => "'" +:+ p +:+ "'") missing))
  else
    Exc "TypeError"
        (qualname f +:+ "() takes " +:+ pretty expected +:+ " positional argument"
         +:+ plural expected +:+ " but " +:+ pretty given
         +:+ (if (given =? 1)%nat then " was given" else " were given")).

Definition no_attribute (v : value) (attr : string) : exc :=
  Exc "AttributeError"
      ("'" +:+ type_name v +:+ "' object has no attribute '" +:+ attr +:+ "'").

(** The traceback text of an exception being handled (the frame
    lines are left out). *)
Definition traceback (e : exc) : string :=
  "Traceback (most recent call last):" +:+ Logging.nl
  +:+ exc_class e +:+ ": " +:+ exc_str e.

(** A statement of an [except] suite: [sys.exc_info()] is [e]. *)
Definition handling {A} (e : exc) (m : Logging.ST A) : HM A :=
  in_world (fun w =>
    let (r, w') := m {| Logging.w_loggers := Logging.w_loggers w;
                        Logging.w_fs := Logging.w_fs w;
                        Logging.w_stdout := Logging.w_stdout w;
                        Logging.w_stderr := Logging.w_stderr w;
                        Logging.w_now := Logging.w_now w;
                        Logging.w_exc := Some (traceback e);
                        Logging.w_os := Logging.w_os w;
                        Logging.w_handled := Logging.w_handled w |} in
    (r, {| Logging.w_loggers := Logging.w_loggers w';
           Logging.w_fs := Logging.w_fs w';
           Logging.w_stdout := Logging.w_stdout w';
           Logging.w_stderr := Logging.w_stderr w';
           Logging.w_now := Logging.w_now w';
           Logging.w_exc := Logging.w_exc w;
           Logging.w_os := Logging.w_os w';
           Logging.w_handled := Logging.w_handled w' |})).

(** A call of [f] on the positional arguments [args] (a count is an
    [int] and a price a [float], as the annotations say; a call of a
    method body on other values is given a [TypeError]).  Python checks the number of arguments against the
    parameters of [f] before it runs the body. *)
Fixpoint call (f : func) (args : list value) : HM value :=
  match f with
  | Fn_make_daifuku =>
      match args with
      | [VShop; VInt count] => b <- make_daifuku_def count ;; ret (VBool b)
      | [_; v] => raise (Exc "TypeError"
                     ("'<=' not supported between instances of '"
                      +:+ type_name v +:+ "' and 'int'"))
      | _ => raise (arity_error f ["self"; "count"] (length args))
      end
  | Fn_sell =>
      match args with
      | [VShop; VInt count; VFloat price] =>
          b <- sell_def count price ;; ret (VBool b)
      | [_; v; _] => raise (Exc "TypeError"
                        ("'<=' not supported between instances of '"
                         +:+ type_name v +:+ "' and 'int'"))
      | _ => raise (arity_error f ["self"; "count"; "price"] (length args))
      end
  | Fn_log_function_call =>
      match args with
      | [logger] => ret (VFunc (Fn_decorator logger))
      | _ => raise (arity_error f ["logger"] (length args))
      end
  | Fn_decorator logger =>
      match args with
      | [fn] => ret (VFunc (Fn_wrapper logger fn))
      | _ => raise (arity_error f ["func"] (length args))
      end
  | Fn_wrapper logger fn =>
      match logger, fn with
      | VAppLogger lg, VFunc g =>
          in_world (Logging.AppLogger_info lg ("関数 " +:+ func_name g +:+ " 開始")) ;;
          in_world (Logging.AppLogger_debug lg
                      ("  引数: args=" +:+ str_tuple args +:+ ", kwargs={}")) ;;
          try_except
            (result <- call g args ;;
             in_world (Logging.AppLogger_info lg
                         ("関数 " +:+ func_name g +:+ " 成功")) ;;
             in_world (Logging.AppLogger_debug lg ("  戻り値: " +:+ str result)) ;;
             ret result)
            (fun e =>
               handling e (Logging.AppLogger_error lg
                             ("関数 " +:+ func_name g +:+ " でエラー: " +:+ exc_str e)
                             true) ;;
               raise e)
      | VAppLogger _, v => raise (no_attribute v "__name__")
      | v, _ => raise (no_attribute v "info")
      end
  end.

(** *** class DaifukuShop *)

(** [@log_function_call] above a [def] binds the name to
    [log_function_call(<the function>)]: the function takes the place
    of the parameter [logger], and the result is the closure
    [decorator]. *)
Definition decorated (f : func) : value := VFunc (Fn_decorator (VFunc f)).

(** The class attributes [make_daifuku] and [sell]. *)
Definition DaifukuShop_make_daifuku : value := decorated Fn_make_daifuku.
Definition DaifukuShop_sell : value := decorated Fn_sell.

(** A method call on the shop instance: a function found on the class is called
    with the instance as first argument. *)
Definition call_method (attr : value) (args : list value) : HM value :=
  match attr with
  | VFunc f => call f (VShop :: args)
  | v => raise (Exc "TypeError" ("'" +:+ type_name v +:+ "' object is not callable"))
  end.

(** [shop.make_daifuku(count)] and [shop.sell(count, price)]. *)
Definition make_daifuku (count : Z) : HM value :=
  call_method DaifukuShop_make_daifuku [VInt count].
Definition sell (count : Z) (price : float) : HM value :=
  call_method DaifukuShop_sell [VInt count; VFloat price].

End WithFloat.

End Shop.

(* ===================================================================== *)
(** ** Properties of the automation session                              *)
(* ===================================================================== *)

Module SeleniumFacts.
Import Py Py.Notations Selenium.

(** The first browser and the first element. *)
Definition h0 : handle := 0%nat.
Definition e0 : element := 0%nat.

(** Collaborators used as concrete inputs: one that never fails and
    finds no result, one whose [quit()] raises, one whose page load
    raises. *)
Definition reliable : Remote :=
  {| rm_fail := fun _ _ => None;
     rm_element := fun _ => e0;
     rm_elements := fun _ => [];
     rm_text := fun _ _ => "" |}.



Definition page_fails : Remote :=
  {| rm_fail := fun _ c => match c with
                           | Get _ _ => Some (Exc "WebDriverException" "net::ERR_CONNECTION_RESET")
                           | _ => None
                           end;
     rm_element := fun _ => e0;
     rm_elements := fun _ => [];
     rm_text := fun _ _ => "" |}.

Example start_reliable :
  driver (snd (start reliable (WebAutomation_init fresh))) = Some 0%nat.
Proof. reflexivity. Qed.

Example main_reliable_calls :
  calls (snd (main_method3 reliable fresh)) =
  [Install; Chrome chrome_arguments; ImplicitlyWait h0 10;
   Get h0 "https://www.google.com"; Sleep 2; FindElement h0 "name" "q";
   SendKeys h0 e0 "ふわふわ大福 作り方"; SendKeys h0 e0 keys_RETURN; Sleep 3;
   FindElements h0 "css selector" "h3";
   SaveScreenshot h0 "daifuku_search.png"; Quit h0].
Proof. reflexivity. Qed.

Example main_page_fails_calls :
  calls (snd (main_method3 page_fails fresh)) =
  [Install; Chrome chrome_arguments; ImplicitlyWait h0 10;
   Get h0 "https://www.google.com"; Quit h0]
  /\ is_raise (fst (main_method3 page_fails fresh)) = true.
Proof. split; reflexivity. Qed.

(** *** Which steps leave the session and the releases alone *)

Lemma released_snoc h cs c :
  released h (cs ++ [c]) =
  (released h cs + (if decide (c = Quit h) then 1 else 0))%nat.
Proof.
  unfold released. rewrite filter_app, length_app. f_equal.
  rewrite filter_cons, filter_nil. destruct (decide (c = Quit h)); reflexivity.
Qed.

Lemma acquired_snoc cs c :
  acquired (cs ++ [c]) = (acquired cs + (if is_Chrome c then 1 else 0))%nat.
Proof.
  unfold acquired. rewrite filter_app, length_app. f_equal.
  rewrite filter_cons, filter_nil. destruct (is_Chrome c) eqn:Hc.
  - rewrite decide_True; [reflexivity | exact I].
  - rewrite decide_False; [reflexivity | intros []].
Qed.

Definition is_Quit (c : call) : bool :=
  match c with Quit _ => true | _ => false end.

(** A step is quiet when it keeps the [driver] attribute and issues no
    [quit()]. *)
Definition quiet {A} (m : ST A) : Prop :=
  forall s, driver (snd (m s)) = driver s /\
            forall h, released h (calls (snd (m s))) = released h (calls s).

Lemma quiet_ret {A} (a : A) : quiet (ret a).
Proof. intros s. split; reflexivity. Qed.

Lemma quiet_raise {A} e : quiet (@raise state A e).
Proof. intros s. split; reflexivity. Qed.

Lemma quiet_get : quiet (@get state).
Proof. intros s. split; reflexivity. Qed.

Lemma quiet_log l m : quiet (log l m).
Proof. intros s. split; reflexivity. Qed.

Lemma quiet_sleep n : quiet (sleep n).
Proof.
  intros s. split; [reflexivity | ]. intros h. simpl.
  rewrite released_snoc. rewrite decide_False by discriminate. lia.
Qed.

Lemma quiet_perform remote c : is_Quit c = false -> quiet (perform remote c).
Proof.
  intros Hc s. unfold perform.
  assert (forall h, released h (calls (add_call c s)) = released h (calls s)) as Hr.
  { intros h. simpl. rewrite released_snoc.
    rewrite decide_False; [lia | ]. intros ->. discriminate. }
  destruct (rm_fail remote (calls s) c); split; auto.
Qed.

Lemma quiet_bind {A B} (m : ST A) (k : A -> ST B) :
  quiet m -> (forall a, quiet (k a)) -> quiet (bind m k).
Proof.
  intros Hm Hk s. unfold bind. specialize (Hm s).
  destruct (m s) as [[a | e] s1]; simpl in *; [ | exact Hm].
  destruct Hm as [Hd Hr]. destruct (Hk a s1) as [Hd' Hr'].
  split; [congruence | ]. intros h. rewrite Hr', Hr. reflexivity.
Qed.

Lemma quiet_try_except {A} (m : ST A) (k : exc -> ST A) :
  quiet m -> (forall e, quiet (k e)) -> quiet (try_except m k).
Proof.
  intros Hm Hk s. unfold try_except. specialize (Hm s).
  destruct (m s) as [[a | e] s1]; simpl in *; [exact Hm | ].
  destruct Hm as [Hd Hr]. destruct (Hk e s1) as [Hd' Hr'].
  split; [congruence | ]. intros h. rewrite Hr', Hr. reflexivity.
Qed.

Lemma quiet_for_each {A} (xs : list A) (body : A -> ST unit) :
  (forall x, quiet (body x)) -> quiet (for_each xs body).
Proof.
  intros Hb. induction xs as [ | x xs IH]; simpl.
  - apply quiet_ret.
  - apply quiet_bind; auto.
Qed.

Create HintDb quiet.
#[local] Hint Resolve quiet_ret quiet_raise quiet_get quiet_log quiet_sleep
  quiet_for_each : quiet.

Ltac quiet_steps :=
  repeat first
    [ apply quiet_bind; [ | intros ? ]
    | apply quiet_try_except; [ | intros ? ]
    | apply quiet_perform; reflexivity
    | solve [ auto with quiet ] ].

Lemma quiet_setup remote : quiet (setup_driver_with_options remote).
Proof. unfold setup_driver_with_options. quiet_steps. Qed.

Lemma quiet_log_results remote d results :
  forall i, quiet (log_results remote d i results).
Proof.
  induction results as [ | r rs IH]; intros i; simpl.
  - apply quiet_ret.
  - quiet_steps; apply IH.
Qed.

Lemma quiet_search remote keyword : quiet (search_daifuku_recipe remote keyword).
Proof.
  unfold search_daifuku_recipe. apply quiet_bind; [apply quiet_get | ].
  intros s. destruct (driver s); [ | apply quiet_raise].
  quiet_steps; apply quiet_log_results.
Qed.

Lemma quiet_screenshot remote filename : quiet (take_screenshot remote filename).
Proof.
  unfold take_screenshot. apply quiet_bind; [apply quiet_get | ].
  intros s. destruct (driver s); [ | apply quiet_raise]. quiet_steps.
Qed.

Lemma quiet_act remote a : quiet (act remote a).
Proof. destruct a; [apply quiet_search | apply quiet_screenshot]. Qed.

(** *** start and stop, step by step *)

Ltac run_steps :=
  unfold start, stop, setup_driver_with_options, try_except, try_finally,
    bind, perform, log, modify, get, ret, raise; simpl.

(** What [start] does, whatever the [driver] attribute holds. *)
Lemma start_outcome remote s :
  match start remote s with
  | (Ret _, s') =>
      driver s' = Some (acquired (calls s))
      /\ acquired (calls s') = S (acquired (calls s))
      /\ forall h, released h (calls s') = released h (calls s)
  | (Raise e, s') =>
      driver s' = driver s
      /\ (exists cs c, rm_fail remote cs c = Some e)
      /\ forall h, released h (calls s') = released h (calls s)
  end.
Proof.
  run_steps.
  destruct (rm_fail remote (calls s) Install) as [e | ] eqn:H1; simpl.
  { split; [reflexivity | ]. split; [eauto | ]. intros h.
    rewrite released_snoc, decide_False by discriminate. lia. }
  destruct (rm_fail remote (calls s ++ [Install]) (Chrome chrome_arguments))
    as [e | ] eqn:H2; simpl.
  { split; [reflexivity | ]. split; [eauto | ]. intros h.
    rewrite !released_snoc, !decide_False by discriminate. lia. }
  destruct (rm_fail remote ((calls s ++ [Install]) ++ [Chrome chrome_arguments])
              (ImplicitlyWait (acquired (calls s ++ [Install])) 10))
    as [e | ] eqn:H3; simpl.
  { split; [reflexivity | ]. split; [eauto | ]. intros h.
    rewrite !released_snoc, !decide_False by discriminate. lia. }
  rewrite !acquired_snoc. simpl. split; [f_equal; lia | ]. split; [lia | ].
  intros h. rewrite !released_snoc, !decide_False by discriminate. lia.
Qed.

(** [start] never reads the [driver] attribute. *)
Lemma start_ignores_driver remote s d :
  fst (start remote (set_driver d s)) = fst (start remote s)
  /\ calls (snd (start remote (set_driver d s))) = calls (snd (start remote s)).
Proof.
  run_steps.
  destruct (rm_fail remote (calls s) Install); simpl; [split; reflexivity | ].
  destruct (rm_fail remote (calls s ++ [Install]) (Chrome chrome_arguments));
    simpl; [split; reflexivity | ].
  destruct (rm_fail remote ((calls s ++ [Install]) ++ [Chrome chrome_arguments])
              (ImplicitlyWait (acquired (calls s ++ [Install])) 10));
    simpl; split; reflexivity.
Qed.

Lemma stop_inactive remote s : driver s = None -> stop remote s = (Ret tt, s).
Proof. intros H. run_steps. rewrite H. reflexivity. Qed.

(** What [stop] does on a session that holds a browser. *)
Lemma stop_active remote s h :
  driver s = Some h ->
  let s1 := add_call (Quit h) (add_log INFO "ブラウザを終了します" s) in
  stop remote s =
  match rm_fail remote (calls s) (Quit h) with
  | Some e => (Raise e, s1)
  | None => (Ret tt, set_driver None s1)
  end.
Proof.
  intros H. run_steps. rewrite H. simpl.
  destruct (rm_fail remote (calls s) (Quit h)); reflexivity.
Qed.

Lemma for_each_act_quiet remote body : quiet (for_each body (act remote)).
Proof. apply quiet_for_each. intros a. apply quiet_act. Qed.

(** *** Action methods outside the Active state *)

(** A session that was just constructed, and one that was started and
    stopped again. *)
Definition uninitialized : state := WebAutomation_init fresh.
Definition closed : state :=
  snd (stop reliable (snd (start reliable uninitialized))).

(** C2, as the claim states it, fails: on a session that is not Active
    an action method does fail before any side effect, but the
    exception is a plain [ValueError]; no [SessionNotActiveError] is
    raised, neither before [start()] nor after [stop()]. *)
Lemma inactive_action_is_not_SessionNotActiveError :
  driver uninitialized = None /\ driver closed = None
  /\ fst (take_screenshot reliable "screenshot.png" uninitialized)
     = Raise (Exc "ValueError" "ブラウザが起動していません")
  /\ fst (search_daifuku_recipe reliable "大福 レシピ" closed)
     = Raise (Exc "ValueError" "ブラウザが起動していません")
  /\ ~ (exists m, fst (take_screenshot reliable "screenshot.png" uninitialized)
                  = Raise (Exc "SessionNotActiveError" m))
  /\ ~ (exists m, fst (search_daifuku_recipe reliable "大福 レシピ" closed)
                  = Raise (Exc "SessionNotActiveError" m)).
Proof.
  repeat split; try reflexivity; intros [m Hm]; vm_compute in Hm; discriminate Hm.
Qed.

(** C2, amended: for every collaborator, every action method
    ([search_daifuku_recipe], [take_screenshot]) and every session whose
    [driver] is [None] (never started, or stopped), the call raises
    [ValueError] and leaves the whole state as it was: no collaborator
    call is issued and nothing is logged. *)
Theorem inactive_action_raises_ValueError remote (a : action) (s : state) :
  driver s = None ->
  act remote a s = (Raise (Exc "ValueError" "ブラウザが起動していません"), s).
Proof.
  intros H. destruct a; simpl;
    unfold search_daifuku_recipe, take_screenshot, bind, get; simpl;
    rewrite H; reflexivity.
Qed.

Lemma inactive_action_raises_ValueError_witness :
  driver closed = None
  /\ act reliable (Search "大福 レシピ") closed
     = (Raise (Exc "ValueError" "ブラウザが起動していません"), closed).
Proof.
  split; [reflexivity | ].
  apply (inactive_action_raises_ValueError reliable (Search "大福 レシピ") closed).
  reflexivity.
Defined.

(** *** Guaranteed teardown *)

(** C3: in the frame that [main] puts around a session
    ([try: start(); actions / finally: stop()]), once [start()] has
    succeeded the browser it acquired receives exactly one [quit()],
    and no other browser receives any, whatever the actions are and
    whichever of them raises. *)
Theorem scoped_releases_once remote (body : list action) (s0 s1 : state) :
  start remote s0 = (Ret tt, s1) ->
  exists h, driver s1 = Some h /\
    forall h', released h' (calls (snd (scoped remote body s0))) =
               (released h' (calls s0) + (if decide (h' = h) then 1 else 0))%nat.
Proof.
  intros Hstart. pose proof (start_outcome remote s0) as Ho.
  rewrite Hstart in Ho. destruct Ho as (Hd & _ & Hr).
  exists (acquired (calls s0)). split; [exact Hd | ]. intros h'.
  unfold scoped, try_finally. unfold bind at 1. rewrite Hstart.
  destruct (for_each_act_quiet remote body s1) as [Hd2 Hr2].
  destruct (for_each body (act remote) s1) as [r s2]; simpl in Hd2, Hr2.
  rewrite Hd in Hd2. rewrite (stop_active remote s2 _ Hd2).
  assert (released h' (calls s2 ++ [Quit (acquired (calls s0))]) =
          (released h' (calls s0)
           + (if decide (h' = acquired (calls s0)) then 1 else 0))%nat) as Hq.
  { rewrite released_snoc, Hr2, Hr. f_equal.
    destruct (decide (h' = acquired (calls s0))) as [-> | Hne].
    - rewrite decide_True; reflexivity.
    - rewrite decide_False; [reflexivity | ]. intros [= Heq]. congruence. }
  destruct (rm_fail remote (calls s2) (Quit (acquired (calls s0)))); exact Hq.
Qed.

Lemma scoped_releases_once_witness :
  exists h, driver (snd (start page_fails uninitialized)) = Some h /\
    forall h', released h'
                 (calls (snd (scoped page_fails
                                [Search "ふわふわ大福 作り方";
                                 Screenshot "daifuku_search.png"] uninitialized))) =
               (released h' (calls uninitialized)
                + (if decide (h' = h) then 1 else 0))%nat.
Proof.
  apply (scoped_releases_once page_fails _ uninitialized
           (snd (start page_fails uninitialized))).
  reflexivity.
Defined.

(** *** stop *)





(** *** start on an Active session *)

Definition active : state := snd (start reliable uninitialized).

(** C5, as the claim states it, fails: [start()] has no guard.  On an
    Active session it returns normally, having requested a second
    browser and stored it in place of the first, which received no
    [quit()]. *)
Lemma second_start_acquires_second_handle :
  driver active = Some h0
  /\ acquired (calls active) = 1%nat
  /\ fst (start reliable active) = Ret tt
  /\ driver (snd (start reliable active)) = Some 1%nat
  /\ acquired (calls (snd (start reliable active))) = 2%nat
  /\ released h0 (calls (snd (start reliable active))) = 0%nat.
Proof. repeat split; reflexivity. Qed.

(** C5, amended: on a session holding browser [h], [start()] does what
    it does on any session (its outcome and its collaborator calls do
    not depend on the [driver] attribute).  When provisioning succeeds
    it returns normally and the session holds a newly acquired browser,
    different from [h]; when provisioning raises, that exception is the
    one [start()] raises and the session keeps [h].  In neither case
    does [h] receive a [quit()]. *)
Theorem start_on_active_session remote (s : state) (h : handle) :
  driver s = Some h ->
  (h < acquired (calls s))%nat ->
  fst (start remote s) = fst (start remote (set_driver None s))
  /\ calls (snd (start remote s)) = calls (snd (start remote (set_driver None s)))
  /\ released h (calls (snd (start remote s))) = released h (calls s)
  /\ match start remote s with
     | (Ret _, s') =>
         exists h', driver s' = Some h' /\ h' <> h
                    /\ acquired (calls s') = S (acquired (calls s))
     | (Raise e, s') =>
         driver s' = Some h /\ exists cs c, rm_fail remote cs c = Some e
     end.
Proof.
  intros Hd Hlt.
  destruct (start_ignores_driver remote s None) as [Hfst Hcalls].
  split; [symmetry; exact Hfst | ]. split; [symmetry; exact Hcalls | ].
  pose proof (start_outcome remote s) as Ho.
  destruct (start remote s) as [[[] | e] s']; simpl.
  - destruct Ho as (Hd' & Hacq & Hrel). split; [apply Hrel | ].
    exists (acquired (calls s)). split; [exact Hd' | ]. split; [lia | exact Hacq].
  - destruct Ho as (Hd' & Hex & Hrel). split; [apply Hrel | ].
    split; [congruence | exact Hex].
Qed.

Lemma start_on_active_session_witness :
  driver active = Some h0
  /\ (h0 < acquired (calls active))%nat
  /\ fst (start reliable active) = fst (start reliable (set_driver None active))
  /\ released h0 (calls (snd (start reliable active))) = released h0 (calls active).
Proof.
  assert (driver active = Some h0) as Hd by reflexivity.
  assert (h0 < acquired (calls active))%nat as Hlt by (vm_compute; lia).
  destruct (start_on_active_session reliable active h0 Hd Hlt) as (H1 & _ & H3 & _).
  repeat split; assumption.
Defined.

End SeleniumFacts.


(* ===================================================================== *)
(** ** Properties of the logging façade                                  *)
(* ===================================================================== *)

Module LoggingFacts.
Import Py Py.Notations Logging.

(** *** Dispatch of one record *)

(** The test of [Logger.callHandlers]. *)
Definition eligible (r : LogRecord) (h : Handler) : bool :=
  (h_level h <=? levelno (level r))%Z.

(** The sinks a record sent through logger [key] is offered to. *)
Definition sinks_on_path (key : string) (w : World) : list Handler :=
  let own := lg_handlers (lookup_logger key w) in
  let inherited :=
    if String.eqb key root then [] else lg_handlers (lookup_logger root w) in
  let all := (own ++ inherited)%list in
  if (length own + length inherited =? 0)%nat then [lastResort] else all.


(** The failure, if any, of sink [h] on record [r]. *)
Definition failure (w : World) (r : LogRecord) (h : Handler) : option exc :=
  w_os w (Write (h_target h) (Handler_format h r +:+ nl)).

(** The diagnostics of failed sinks found on a stream. *)
Definition diagnostics (cs : list chunk) : list (exc * LogRecord) :=
  omap (fun c => match c with
                 | LoggingError e r => Some (e, r)
                 | Text _ => None
                 end) cs.

(** The diagnostics that the failing sinks among [hs] cause. *)
Definition expected_diagnostics (w : World) (r : LogRecord) (hs : list Handler)
  : list (exc * LogRecord) :=
  match w_os w (Write (Stream stderr) ("--- Logging error ---" +:+ nl)) with
  | Some _ => []
  | None => omap (fun h => (fun e => (e, r)) <$> failure w r h) hs
  end.

(** What a dispatch step may change: the streams, the files and the
    list of handled records, nothing else. *)
Definition same_setting (w w' : World) : Prop :=
  w_loggers w' = w_loggers w /\ w_now w' = w_now w
  /\ w_exc w' = w_exc w /\ w_os w' = w_os w.

Lemma same_setting_refl w : same_setting w w.
Proof. repeat split. Qed.

Lemma same_setting_trans w1 w2 w3 :
  same_setting w1 w2 -> same_setting w2 w3 -> same_setting w1 w3.
Proof.
  intros (A1 & A2 & A3 & A4) (B1 & B2 & B3 & B4).
  repeat split; congruence.
Qed.

Lemma diagnostics_app cs1 cs2 :
  diagnostics (cs1 ++ cs2) = (diagnostics cs1 ++ diagnostics cs2)%list.
Proof. unfold diagnostics. apply omap_app. Qed.

(** The effect of one sink, failing or not. *)
Definition sink_effect (h : Handler) (r : LogRecord) (w w' : World) : Prop :=
  same_setting w w'
  /\ w_handled w' = w_handled w
  /\ diagnostics (w_stderr w') =
     (diagnostics (w_stderr w) ++ expected_diagnostics w r [h])%list.

Lemma emit_returns h r w :
  fst (emit h r w) = Ret tt /\ sink_effect h r w (snd (emit h r w)).
Proof.
  unfold emit, try_except, stream_write, handleError, sink_effect,
    expected_diagnostics, failure.
  destruct (w_os w (Write (h_target h) (Handler_format h r +:+ nl))) as [e | ] eqn:Hw;
    simpl.
  - destruct (w_os w (Write (Stream stderr) ("--- Logging error ---" +:+ nl)));
      simpl; repeat split; try reflexivity.
    + rewrite ?Hw; simpl; rewrite ?app_nil_r. reflexivity.
    + rewrite diagnostics_app, ?Hw. reflexivity.
  - split; [reflexivity | ].
    assert (diagnostics (w_stderr (write_out (h_target h) (Handler_format h r +:+ nl) w))
            = diagnostics (w_stderr w)) as Hd.
    { destruct (h_target h) as [[ | ] | ]; simpl; try reflexivity.
      rewrite diagnostics_app. simpl. apply app_nil_r. }
    rewrite Hd, ?Hw.
    destruct (w_os w (Write (Stream stderr) ("--- Logging error ---" +:+ nl)));
      simpl; rewrite app_nil_r;
      (split; [ | split; [ | reflexivity]]);
      destruct (h_target h) as [[ | ] | ]; repeat split.
Qed.

(** The effect of offering a record to a list of sinks: every eligible
    sink handles it, in order, and every failing one is diagnosed. *)
Definition offered (hs : list Handler) (r : LogRecord) (w w' : World) : Prop :=
  same_setting w w'
  /\ w_handled w' =
     (w_handled w ++ map (fun h => (h, r)) (List.filter (eligible r) hs))%list
  /\ diagnostics (w_stderr w') =
     (diagnostics (w_stderr w)
      ++ expected_diagnostics w r (List.filter (eligible r) hs))%list.

Lemma expected_diagnostics_app w r hs1 hs2 :
  expected_diagnostics w r (hs1 ++ hs2) =
  (expected_diagnostics w r hs1 ++ expected_diagnostics w r hs2)%list.
Proof.
  unfold expected_diagnostics.
  destruct (w_os w (Write (Stream stderr) ("--- Logging error ---" +:+ nl)));
    [reflexivity | apply omap_app].
Qed.

Lemma expected_diagnostics_setting w w' r hs :
  same_setting w w' -> expected_diagnostics w' r hs = expected_diagnostics w r hs.
Proof.
  intros (_ & _ & _ & Hos). unfold expected_diagnostics, failure. rewrite Hos.
  reflexivity.
Qed.

Lemma offered_nil r w : offered [] r w w.
Proof.
  split; [apply same_setting_refl | ]. simpl. unfold expected_diagnostics.
  destruct (w_os w (Write (Stream stderr) ("--- Logging error ---" +:+ nl)));
    simpl; rewrite !app_nil_r; split; reflexivity.
Qed.

Lemma offered_app hs1 hs2 r w1 w2 w3 :
  offered hs1 r w1 w2 -> offered hs2 r w2 w3 -> offered (hs1 ++ hs2) r w1 w3.
Proof.
  intros (S1 & H1 & D1) (S2 & H2 & D2). split; [eapply same_setting_trans; eauto | ].
  rewrite List.filter_app, map_app, expected_diagnostics_app.
  rewrite H2, H1, D2, D1, (expected_diagnostics_setting w1 w2 r _ S1).
  rewrite !app_assoc. split; reflexivity.
Qed.

Lemma handle_returns h r w :
  fst (handle h r w) = Ret tt
  /\ same_setting w (snd (handle h r w))
  /\ w_handled (snd (handle h r w)) = (w_handled w ++ [(h, r)])%list
  /\ diagnostics (w_stderr (snd (handle h r w))) =
     (diagnostics (w_stderr w) ++ expected_diagnostics w r [h])%list.
Proof.
  unfold handle, bind, modify.
  destruct (emit_returns h r (add_handled h r w)) as (Hr & Hs & Hh & Hd).
  destruct (emit h r (add_handled h r w)) as [o w']; simpl in *.
  subst o. split; [reflexivity | ]. split; [exact Hs | ]. split; [exact Hh | exact Hd].
Qed.

Lemma offer_returns h r w :
  fst (offer r h w) = Ret tt /\ offered [h] r w (snd (offer r h w)).
Proof.
  unfold offer, offered, eligible. simpl.
  destruct (h_level h <=? levelno (level r))%Z; simpl.
  - destruct (handle_returns h r w) as (Hr & Hs & Hh & Hd).
    split; [exact Hr | ]. split; [exact Hs | ]. split; [exact Hh | exact Hd].
  - split; [reflexivity | apply (offered_nil r w)].
Qed.

Lemma offers_return hs r :
  forall w, fst (for_each hs (offer r) w) = Ret tt
            /\ offered hs r w (snd (for_each hs (offer r) w)).
Proof.
  induction hs as [ | h hs IH]; intros w; simpl.
  - split; [reflexivity | apply offered_nil].
  - unfold bind. destruct (offer_returns h r w) as [Hr Ho].
    destruct (offer r h w) as [o w1]; simpl in *. subst o.
    destruct (IH w1) as [Hr' Ho']. split; [exact Hr' | ].
    apply (offered_app [h] hs r w w1 _ Ho Ho').
Qed.

(** [callHandlers] returns, and offers the record to every sink on the
    path of the logger. *)
Lemma callHandlers_returns key r w :
  fst (callHandlers key r w) = Ret tt
  /\ offered (sinks_on_path key w) r w (snd (callHandlers key r w)).
Proof.
  set (own := lg_handlers (lookup_logger key w)).
  set (inherited := if String.eqb key root then []
                    else lg_handlers (lookup_logger root w)).
  assert (callHandlers key r w =
          (for_each own (offer r) ;;
           for_each inherited (offer r) ;;
           if (length own + length inherited =? 0)%nat
           then offer r lastResort else ret tt) w) as -> by reflexivity.
  unfold sinks_on_path. fold own. fold inherited. unfold bind.
  destruct (offers_return own r w) as [R1 O1].
  destruct (for_each own (offer r) w) as [o1 w1]; simpl in *. subst o1.
  destruct (offers_return inherited r w1) as [R2 O2].
  destruct (for_each inherited (offer r) w1) as [o2 w2]; simpl in *. subst o2.
  pose proof (offered_app _ _ _ _ _ _ O1 O2) as O12.
  destruct (length own + length inherited =? 0)%nat eqn:Hn.
  - apply Nat.eqb_eq in Hn.
    assert (own = [] /\ inherited = []) as [E1 E2].
    { destruct own; destruct inherited; simpl in Hn; try lia. split; reflexivity. }
    rewrite E1, E2 in O12. simpl in O12.
    destruct (offer_returns lastResort r w2) as [R3 O3].
    split; [exact R3 | ]. apply (offered_app [] [lastResort] r w w2 _ O12 O3).
  - split; [reflexivity | exact O12].
Qed.

(** The record that a call at level [l] through logger [key] builds. *)
Definition record_of (key : string) (l : Level) (message : string)
           (exc_info : bool) (caller : string * Z) (w : World) : LogRecord :=
  {| name := key; level := l; msg := message;
     funcName := fst caller; lineno := snd caller; created := w_now w;
     exc_text := if exc_info then Some (default "NoneType: None" (w_exc w)) else None |}.

Lemma Logger_log_returns key l message exc_info caller w :
  fst (Logger_log key l message exc_info caller w) = Ret tt
  /\ if (getEffectiveLevel key w <=? levelno l)%Z
     then offered (sinks_on_path key w) (record_of key l message exc_info caller w)
                  w (snd (Logger_log key l message exc_info caller w))
     else snd (Logger_log key l message exc_info caller w) = w.
Proof.
  assert (Logger_log key l message exc_info caller w =
          if (getEffectiveLevel key w <=? levelno l)%Z
          then callHandlers key (record_of key l message exc_info caller w) w
          else (Ret tt, w)) as ->.
  { unfold Logger_log, bind, get, record_of, ret.
    destruct (getEffectiveLevel key w <=? levelno l)%Z; reflexivity. }
  destruct (getEffectiveLevel key w <=? levelno l)%Z.
  - apply callHandlers_returns.
  - split; reflexivity.
Qed.

(** *** Construction of an AppLogger *)

(** [logging.getLogger] maps the empty name to the root logger. *)
Definition logger_key (name : string) : string :=
  if String.eqb name "" then root else name.

(** The sinks that [AppLogger.__init__] builds. *)
Definition console_sink : Handler :=
  Handler_setFormatter console_format (Handler_setLevel INFO (StreamHandler stdout)).

Definition log_file_of (name : string) (t : datetime) : path :=
  path_div ["logs"] (name +:+ "_" +:+ strftime "%Y%m%d" t +:+ ".log").

Definition file_sink (name : string) (t : datetime) : Handler :=
  Handler_setFormatter file_format
    (Handler_setLevel DEBUG
       {| h_target := File (log_file_of name t) "utf-8"; h_level := NOTSET;
          h_formatter := None |}).

Definition installed (name : string) (log_to_file : bool) (t : datetime)
  : list Handler :=
  console_sink :: (if log_to_file then [file_sink name t] else []).

Lemma find_logger_insert key lg m : find_logger key (<[key := lg]> m) = lg.
Proof. unfold find_logger. rewrite lookup_insert_eq. reflexivity. Qed.


#[local] Arguments strftime : simpl never.
#[local] Arguments String.append : simpl never.

(** Fields that only the clock, the environment and the dispatch of a
    record touch. *)
Definition same_rest (w w' : World) : Prop :=
  w_now w' = w_now w /\ w_os w' = w_os w /\ w_exc w' = w_exc w
  /\ w_handled w' = w_handled w /\ w_stdout w' = w_stdout w
  /\ w_stderr w' = w_stderr w.

Lemma mkdir_exist_ok_spec (p : path) (w : World) :
  match mkdir_exist_ok p w with
  | (Ret _, w') =>
      w_fs w' !! p = Some Dir
      /\ (forall q, q <> p -> w_fs w' !! q = w_fs w !! q)
      /\ w_loggers w' = w_loggers w /\ same_rest w w'
  | (Raise _, w') => w' = w
  end.
Proof.
  unfold mkdir_exist_ok.
  destruct (w_fs w !! p) as [[ | c] | ] eqn:Hp.
  - repeat split. exact Hp.
  - reflexivity.
  - destruct (w_os w (Mkdir p)); [reflexivity | ]. simpl.
    split; [apply lookup_insert_eq | ].
    split; [intros q Hq; apply lookup_insert_ne; congruence | repeat split].
Qed.

Lemma FileHandler_spec (p : path) (enc : string) (w : World) :
  match FileHandler p enc w with
  | (Ret h, w') =>
      h = {| h_target := File p enc; h_level := NOTSET; h_formatter := None |}
      /\ w_fs w' !! p = Some (Regular (content_of p (w_fs w)))
      /\ (forall q, q <> p -> w_fs w' !! q = w_fs w !! q)
      /\ w_loggers w' = w_loggers w /\ same_rest w w'
  | (Raise _, w') => w' = w
  end.
Proof.
  unfold FileHandler, content_of.
  destruct (w_fs w !! p) as [[ | c] | ] eqn:Hp.
  - reflexivity.
  - destruct (w_os w (Open p)); [reflexivity | ]. repeat split. exact Hp.
  - destruct (w_os w (Open p)); [reflexivity | ]. simpl.
    split; [reflexivity | ]. split; [apply lookup_insert_eq | ].
    split; [intros q Hq; apply lookup_insert_ne; congruence | repeat split].
Qed.

(** The first four statements of [AppLogger.__init__]: the logger of
    that name, at DEBUG, with the console sink as its only handler. *)
Definition with_console (name : string) (w : World) : World :=
  snd ((lg <- getLogger name ;;
        Logger_setLevel lg DEBUG ;;
        handlers_clear lg ;;
        addHandler lg console_sink) w).

Lemma with_console_loggers (name : string) (w : World) :
  w_loggers (with_console name w) =
  <[logger_key name := {| lg_level := levelno DEBUG; lg_handlers := [console_sink] |}]>
    (w_loggers w).
Proof.
  unfold with_console, bind, getLogger, Logger_setLevel, handlers_clear, addHandler,
    update_logger, modify, ret. simpl. fold (logger_key name).
  rewrite !find_logger_insert. simpl. rewrite !insert_insert_eq. reflexivity.
Qed.

Lemma with_console_rest (name : string) (w : World) :
  w_fs (with_console name w) = w_fs w /\ same_rest w (with_console name w).
Proof. repeat split. Qed.

(** The remaining statements. *)
Definition add_file_sink (name : string) (key : string) : ST unit :=
  mkdir_exist_ok ["logs"] ;;
  w <- get ;;
  file_handler <- FileHandler (log_file_of name (w_now w)) "utf-8" ;;
  addHandler key
    (Handler_setFormatter file_format (Handler_setLevel DEBUG file_handler)).

Lemma AppLogger_init_eq (name : string) (flag : bool) (w : World) :
  AppLogger_init name flag w =
  ((if flag then add_file_sink name (logger_key name) else ret tt) ;;
   ret {| logger := logger_key name |}) (with_console name w).
Proof. destruct flag; reflexivity. Qed.

Lemma same_rest_trans w1 w2 w3 : same_rest w1 w2 -> same_rest w2 w3 -> same_rest w1 w3.
Proof.
  intros (A1 & A2 & A3 & A4 & A5 & A6) (B1 & B2 & B3 & B4 & B5 & B6).
  repeat split; congruence.
Qed.

Lemma add_file_sink_spec (name key : string) (w : World) :
  match add_file_sink name key w with
  | (Ret _, w') =>
      w_loggers w' =
        <[key := {| lg_level := lg_level (find_logger key (w_loggers w));
                    lg_handlers := (lg_handlers (find_logger key (w_loggers w))
                                    ++ [file_sink name (w_now w)])%list |}]>
          (w_loggers w)
      /\ w_fs w' !! ["logs"] = Some Dir
      /\ w_fs w' !! log_file_of name (w_now w) =
         Some (Regular (content_of (log_file_of name (w_now w)) (w_fs w)))
      /\ same_rest w w'
  | (Raise _, w') => w_loggers w' = w_loggers w /\ same_rest w w'
  end.
Proof.
  unfold add_file_sink. unfold bind at 1.
  pose proof (mkdir_exist_ok_spec ["logs"] w) as Hm.
  destruct (mkdir_exist_ok ["logs"] w) as [[[] | e] w1].
  2: { subst w1. repeat split. }
  destruct Hm as (Hdir & Hfs1 & Hl1 & Hr1).
  unfold bind at 1. unfold get. unfold bind at 1.
  assert (w_now w1 = w_now w) as Hnow by apply Hr1. rewrite Hnow.
  set (logfile := log_file_of name (w_now w)).
  assert (logfile <> ["logs"]) as Hne by discriminate.
  pose proof (FileHandler_spec logfile "utf-8" w1) as Hf.
  destruct (FileHandler logfile "utf-8" w1) as [[fh | e] w2].
  2: { subst w2. split; [exact Hl1 | exact Hr1]. }
  destruct Hf as (Hfh & Hfile & Hfs2 & Hl2 & Hr2). subst fh.
  unfold addHandler, update_logger, modify. simpl.
  rewrite Hl2, Hl1. split; [reflexivity | ].
  split; [rewrite Hfs2 by (symmetry; exact Hne); exact Hdir | ].
  split; [ | eapply same_rest_trans; eassumption ].
  rewrite Hfile. unfold content_of. rewrite (Hfs1 logfile Hne). reflexivity.
Qed.

Lemma insert_other (key k : string) (v : Logger) (m : gmap string Logger) :
  k <> key -> <[key := v]> m !! k = m !! k.
Proof. intros Hk. apply lookup_insert_ne. congruence. Qed.

(** What [AppLogger.__init__] leaves behind, whether it returns or
    raises. *)
Lemma AppLogger_init_spec (name : string) (flag : bool) (w : World) :
  let key := logger_key name in
  let w' := snd (AppLogger_init name flag w) in
  same_rest w w'
  /\ (forall k, k <> key -> w_loggers w' !! k = w_loggers w !! k)
  /\ lg_level (lookup_logger key w') = levelno DEBUG
  /\ match fst (AppLogger_init name flag w) with
     | Ret self =>
         logger self = key
         /\ lg_handlers (lookup_logger key w') = installed name flag (w_now w)
         /\ (flag = true ->
             w_fs w' !! ["logs"] = Some Dir
             /\ w_fs w' !! log_file_of name (w_now w) =
                Some (Regular (content_of (log_file_of name (w_now w)) (w_fs w))))
     | Raise e =>
         flag = true /\ lg_handlers (lookup_logger key w') = [console_sink]
     end.
Proof.
  intros key w'. subst w'. rewrite AppLogger_init_eq. fold key.
  pose proof (with_console_loggers name w) as Hc. fold key in Hc.
  destruct (with_console_rest name w) as [Hcfs Hcr].
  set (w1 := with_console name w) in *.
  destruct flag.
  - unfold bind. pose proof (add_file_sink_spec name key w1) as Ha.
    destruct (add_file_sink name key w1) as [[[] | e] w2]; simpl.
    + destruct Ha as (Hl & Hdir & Hfile & Hr).
      assert (w_now w1 = w_now w) as Hnow by apply Hcr.
      rewrite Hnow in Hl, Hfile. rewrite Hcfs in Hfile.
      split; [exact (same_rest_trans _ _ _ Hcr Hr) | ].
      unfold lookup_logger. rewrite Hl, Hc, !find_logger_insert. simpl.
      split; [intros k Hk; rewrite !insert_other by exact Hk; reflexivity | ].
      repeat split; assumption.
    + destruct Ha as (Hl & Hr).
      split; [exact (same_rest_trans _ _ _ Hcr Hr) | ].
      unfold lookup_logger. rewrite Hl, Hc, !find_logger_insert. simpl.
      split; [intros k Hk; rewrite !insert_other by exact Hk; reflexivity | ].
      repeat split.
  - simpl. split; [exact Hcr | ].
    unfold lookup_logger. rewrite Hc, !find_logger_insert. simpl.
    split; [intros k Hk; rewrite !insert_other by exact Hk; reflexivity | ].
    split; [reflexivity | ]. split; [reflexivity | ].
    split; [reflexivity | intros Hf; discriminate Hf].
Qed.

(** *** Level filtering *)





(** A call of the façade is a call of the logger from the line of the
    façade method. *)
Definition facade_caller (l : Level) : string * Z :=
  match l with
  | DEBUG => ("debug", 168) | INFO => ("info", 172) | WARNING => ("warning", 176)
  | ERROR => ("error", 180) | CRITICAL => ("critical", 184)
  end.

Definition facade_exc_info (l : Level) (exc_info : bool) : bool :=
  match l with ERROR => exc_info | _ => false end.

Lemma AppLogger_log_eq self l message exc_info :
  AppLogger_log self l message exc_info =
  Logger_log (logger self) l message (facade_exc_info l exc_info) (facade_caller l).
Proof. destruct l; reflexivity. Qed.



(** The world right after [AppLogger("Shop")] in a new process. *)
Definition shop_world : World := snd (AppLogger_init "Shop" true boot).
Definition shop_logger : AppLogger := {| logger := "Shop" |}.


(** *** Constructing a logger again *)

(** What a program may do with the façade between two constructions:
    construct a logger, log through one, let time pass. *)
Inductive step :=
| Construct (name : string) (log_to_file : bool)
| Emit (self : AppLogger) (l : Level) (message : string) (exc_info : bool)
| Advance (t : datetime).

Definition run_step (s : step) (w : World) : World :=
  match s with
  | Construct name log_to_file => snd (AppLogger_init name log_to_file w)
  | Emit self l message exc_info => snd (AppLogger_log self l message exc_info w)
  | Advance t => set_now t w
  end.

Definition run (steps : list step) (w : World) : World :=
  fold_left (fun w s => run_step s w) steps w.

Lemma AppLogger_log_setting self l message exc_info w :
  fst (AppLogger_log self l message exc_info w) = Ret tt
  /\ same_setting w (snd (AppLogger_log self l message exc_info w)).
Proof.
  rewrite AppLogger_log_eq.
  destruct (Logger_log_returns (logger self) l message (facade_exc_info l exc_info)
              (facade_caller l) w) as [Hr Ho].
  split; [exact Hr | ].
  destruct (getEffectiveLevel (logger self) w <=? levelno l)%Z.
  - apply Ho.
  - rewrite Ho. apply same_setting_refl.
Qed.

Lemma run_step_other_logger (s : step) (w : World) (key : string) :
  (forall n f, s = Construct n f -> logger_key n <> key) ->
  w_loggers (run_step s w) !! key = w_loggers w !! key.
Proof.
  intros Hs. destruct s as [n f | self l message exc_info | t]; simpl.
  - destruct (AppLogger_init_spec n f w) as (_ & Hother & _).
    apply Hother. intros ->. exact (Hs n f eq_refl eq_refl).
  - destruct (AppLogger_log_setting self l message exc_info w) as [_ (Hl & _)].
    rewrite Hl. reflexivity.
  - reflexivity.
Qed.

Lemma run_other_logger (steps : list step) (key : string) :
  (forall n f, In (Construct n f) steps -> logger_key n <> key) ->
  forall w, w_loggers (run steps w) !! key = w_loggers w !! key.
Proof.
  induction steps as [ | s steps IH]; intros Hs w; [reflexivity | ].
  simpl. unfold run in IH. rewrite IH.
  - apply run_step_other_logger. intros n f ->. apply (Hs n f). left. reflexivity.
  - intros n f Hin. apply (Hs n f). right. exact Hin.
Qed.

Lemma console_is_not_file name t : console_sink <> file_sink name t.
Proof. discriminate. Qed.

(** C6: constructing an [AppLogger] for a name clears the handlers of
    the logger of that name before it adds its own.  So after any
    earlier steps (among them any number of constructions for the same
    name), a construction that returns leaves the logger with exactly
    the sinks it built itself, one console sink and, with file output,
    one file sink, without duplicates; later steps that construct no
    logger of that name do not change them. *)
Theorem construction_replaces_sinks
  (before after : list step) (name : string) (log_to_file : bool) (w : World) :
  (forall n f, In (Construct n f) after -> logger_key n <> logger_key name) ->
  let w1 := run before w in
  let w3 := run after (snd (AppLogger_init name log_to_file w1)) in
  match fst (AppLogger_init name log_to_file w1) with
  | Ret self =>
      lg_handlers (lookup_logger (logger self) w3) =
        console_sink :: (if log_to_file then [file_sink name (w_now w1)] else [])
      /\ NoDup (lg_handlers (lookup_logger (logger self) w3))
  | Raise _ =>
      lg_handlers (lookup_logger (logger_key name) w3) = [console_sink]
  end.
Proof.
  intros Hafter w1 w3.
  pose proof (AppLogger_init_spec name log_to_file w1) as Hspec. simpl in Hspec.
  destruct Hspec as (_ & _ & _ & Hout).
  assert (lookup_logger (logger_key name) w3 =
          lookup_logger (logger_key name) (snd (AppLogger_init name log_to_file w1)))
    as Hkeep.
  { unfold lookup_logger, find_logger. subst w3.
    rewrite (run_other_logger after (logger_key name) Hafter). reflexivity. }
  destruct (fst (AppLogger_init name log_to_file w1)) as [self | e].
  - destruct Hout as (Hself & Hhandlers & _). rewrite Hself, Hkeep, Hhandlers.
    split; [reflexivity | ]. unfold installed.
    destruct log_to_file.
    + apply NoDup_cons. split; [ | apply NoDup_cons; split; [ | apply NoDup_nil; exact I ] ].
      * intros Hin. apply list_elem_of_In in Hin. destruct Hin as [Heq | []].
        exact (console_is_not_file _ _ (eq_sym Heq)).
      * intros Hin. apply list_elem_of_In in Hin. destruct Hin.
    + apply NoDup_cons. split; [ | apply NoDup_nil; exact I ].
      intros Hin. apply list_elem_of_In in Hin. destruct Hin.
  - destruct Hout as (_ & Hhandlers). rewrite Hkeep. exact Hhandlers.
Qed.

Definition next_day : datetime :=
  {| year := 2025; month := 10; day := 5; hour := 9; minute := 30; second := 0;
     msecs := 0 |}.

Definition earlier_steps : list step :=
  [Construct "Shop" true; Emit shop_logger INFO "開店" false; Construct "Shop" false;
   Advance next_day].

Definition later_steps : list step :=
  [Construct "ErrorDemo" false; Emit shop_logger ERROR "在庫不足" false].

Lemma construction_replaces_sinks_witness :
  lg_handlers
    (lookup_logger "Shop"
       (run later_steps (snd (AppLogger_init "Shop" true (run earlier_steps boot)))))
  = [console_sink; file_sink "Shop" next_day].
Proof.
  assert (forall n f, In (Construct n f) later_steps ->
                      logger_key n <> logger_key "Shop") as Hlater.
  { intros n f [[= <- <-] | [[=] | []]]. discriminate. }
  pose proof (construction_replaces_sinks earlier_steps later_steps "Shop" true boot
                Hlater) as T.
  cbv zeta in T.
  assert (fst (AppLogger_init "Shop" true (run earlier_steps boot)) = Ret shop_logger)
    as Hret by (vm_compute; reflexivity).
  rewrite Hret in T. destruct T as [T _]. exact T.
Defined.

(** *** A log call returns *)


Lemma emit_diagnoses h r w e :
  failure w r h = Some e ->
  emit h r w =
  (Ret tt,
   match w_os w (Write (Stream stderr) ("--- Logging error ---" +:+ nl)) with
   | Some _ => w
   | None => add_stderr (LoggingError e r) w
   end).
Proof.
  unfold failure, emit, try_except, stream_write, handleError. intros ->.
  destruct (w_os w (Write (Stream stderr) ("--- Logging error ---" +:+ nl)));
    reflexivity.
Qed.



(** A world in which the console cannot take the text (an encoding
    error on [sys.stdout]) and the log file of the shop is on a full
    disk. *)
Definition broken_sinks : World :=
  {| w_loggers := w_loggers shop_world; w_fs := w_fs shop_world;
     w_stdout := []; w_stderr := []; w_now := noon; w_exc := None;
     w_os := fun c =>
       match c with
       | Write (Stream stdout) _ =>
           Some (Exc "UnicodeEncodeError" "'charmap' codec can't encode characters")
       | Write (File _ _) _ => Some (Exc "OSError" "[Errno 28] No space left on device")
       | _ => None
       end;
     w_handled := [] |}.

Example both_sinks_fail :
  let r := AppLogger_record shop_logger ERROR "在庫不足" false broken_sinks in
  AppLogger_log shop_logger ERROR "在庫不足" false broken_sinks =
  (Ret tt,
   {| w_loggers := w_loggers shop_world; w_fs := w_fs shop_world;
      w_stdout := [];
      w_stderr :=
        [LoggingError (Exc "UnicodeEncodeError" "'charmap' codec can't encode characters") r;
         LoggingError (Exc "OSError" "[Errno 28] No space left on device") r];
      w_now := noon; w_exc := None; w_os := w_os broken_sinks;
      w_handled := [(console_sink, r); (file_sink "Shop" noon, r)] |}).
Proof. vm_compute. reflexivity. Qed.


(** *** The log file *)






End LoggingFacts.


(* ===================================================================== *)
(** ** Properties of the shop                                            *)
(* ===================================================================== *)

Module ShopFacts.
Import Py Py.Notations Shop.

Section WithFloat.
Context {F : PyFloat}.

(** *** Logging from a method leaves the shop alone *)

Lemma in_world_log (lg : Logging.AppLogger) (l : Level) (message : string)
      (exc_info : bool) (h : Heap) :
  in_world (Logging.AppLogger_log lg l message exc_info) h =
  (Ret tt, {| self := self h;
              world := snd (Logging.AppLogger_log lg l message exc_info (world h)) |}).
Proof.
  unfold in_world.
  destruct (LoggingFacts.AppLogger_log_setting lg l message exc_info (world h))
    as [Hret _].
  destruct (Logging.AppLogger_log lg l message exc_info (world h)) as [o w'].
  simpl in *. subst o. reflexivity.
Qed.

Lemma in_world_warning lg message h :
  in_world (Logging.AppLogger_warning lg message) h =
  (Ret tt, {| self := self h;
              world := snd (Logging.AppLogger_warning lg message (world h)) |}).
Proof. apply (in_world_log lg WARNING message false h). Qed.

Lemma in_world_info lg message h :
  in_world (Logging.AppLogger_info lg message) h =
  (Ret tt, {| self := self h;
              world := snd (Logging.AppLogger_info lg message (world h)) |}).
Proof. apply (in_world_log lg INFO message false h). Qed.

Lemma in_world_error lg message exc_info h :
  in_world (Logging.AppLogger_error lg message exc_info) h =
  (Ret tt, {| self := self h;
              world := snd (Logging.AppLogger_error lg message exc_info (world h)) |}).
Proof. apply (in_world_log lg ERROR message exc_info h). Qed.

(** *** The bodies as written *)

(** What the body of [make_daifuku] returns and does to the shop. *)
Lemma make_daifuku_def_effect (count : Z) (h : Heap) :
  let h' := snd (make_daifuku_def count h) in
  name (self h') = name (self h) /\ logger (self h') = logger (self h)
  /\ sales (self h') = sales (self h)
  /\ if (count <=? 0)%Z
     then fst (make_daifuku_def count h) = Ret false /\ stock (self h') = stock (self h)
     else fst (make_daifuku_def count h) = Ret true
          /\ stock (self h') = (stock (self h) + count)%Z.
Proof.
  unfold make_daifuku_def, bind, get, modify. cbv beta iota.
  destruct (count <=? 0)%Z; cbv beta iota.
  - rewrite in_world_warning. simpl. repeat split.
  - rewrite in_world_info. simpl. repeat split.
Qed.

(** What the body of [sell] returns and does to the shop. *)
Lemma sell_def_effect (count : Z) (price : float) (h : Heap) :
  let h' := snd (sell_def count price h) in
  name (self h') = name (self h) /\ logger (self h') = logger (self h)
  /\ if ((count <=? 0) || (stock (self h) <? count))%Z
     then fst (sell_def count price h) = Ret false
          /\ stock (self h') = stock (self h) /\ sales (self h') = sales (self h)
     else stock (self h') = (stock (self h) - count)%Z
          /\ match int_mul count price with
             | Some amount =>
                 fst (sell_def count price h) = Ret true
                 /\ sales (self h') = float_add (sales (self h)) amount
             | None =>
                 is_raise (fst (sell_def count price h)) = true
                 /\ sales (self h') = sales (self h)
             end.
Proof.
  unfold sell_def, bind, get, modify. cbv beta iota.
  destruct (count <=? 0)%Z; cbv beta iota.
  - rewrite in_world_warning. simpl. repeat split.
  - destruct (stock (self h) <? count)%Z; cbv beta iota.
    + rewrite in_world_error. simpl. repeat split.
    + destruct (int_mul count price) as [amount | ]; cbv beta iota.
      * rewrite in_world_info. cbv beta iota. rewrite in_world_info. simpl.
        repeat split.
      * simpl. repeat split.
Qed.

Lemma shop_eq (a b : DaifukuShop) :
  name a = name b -> stock a = stock b -> sales a = sales b -> logger a = logger b ->
  a = b.
Proof. destruct a, b; simpl; intros -> -> -> ->; reflexivity. Qed.

(** On a validation failure the bodies, run as written, return [False]
    and leave every attribute of the shop as it was. *)
Lemma bodies_reject_without_change (count : Z) (price : float) (h : Heap) :
  ((count <= 0)%Z ->
   fst (make_daifuku_def count h) = Ret false
   /\ self (snd (make_daifuku_def count h)) = self h)
  /\ ((count <= 0)%Z \/ (stock (self h) < count)%Z ->
      fst (sell_def count price h) = Ret false
      /\ self (snd (sell_def count price h)) = self h).
Proof.
  split.
  - intros Hc. pose proof (make_daifuku_def_effect count h) as He. simpl in He.
    destruct He as (Hn & Hl & Hs & He).
    rewrite (proj2 (Z.leb_le count 0) Hc) in He. destruct He as [Hr Hst].
    split; [exact Hr | apply shop_eq; assumption].
  - intros Hc. pose proof (sell_def_effect count price h) as He. simpl in He.
    destruct He as (Hn & Hl & He).
    assert (((count <=? 0) || (stock (self h) <? count))%Z = true) as Hb.
    { apply orb_true_iff. destruct Hc as [Hc | Hc];
        [left; apply Z.leb_le; exact Hc | right; apply Z.ltb_lt; exact Hc]. }
    rewrite Hb in He. destruct He as (Hr & Hst & Hsa).
    split; [exact Hr | apply shop_eq; assumption].
Qed.

(** *** The methods as the class binds them *)

(** The class statement evaluates [log_function_call(make_daifuku)] and
    [log_function_call(sell)]; the results are the class attributes. *)
Lemma decoration_binds_decorator (h : Heap) :
  call Fn_log_function_call [VFunc Fn_make_daifuku] h = (Ret DaifukuShop_make_daifuku, h)
  /\ call Fn_log_function_call [VFunc Fn_sell] h = (Ret DaifukuShop_sell, h).
Proof. split; reflexivity. Qed.

(** C8: the claim describes the bodies of [make_daifuku] and [sell]
    (see [bodies_reject_without_change]), but the methods are bound
    through [@log_function_call] written without its [logger] argument,
    so that the class attributes are the closure [decorator], which
    takes one argument.  Every call [shop.make_daifuku(count)] or
    [shop.sell(count, price)] therefore raises [TypeError] before any
    body runs; the shop and the world are unchanged. *)
Theorem decorated_methods_raise_TypeError (count : Z) (price : float) (h : Heap) :
  make_daifuku count h =
    (Raise (Exc "TypeError"
              "log_function_call.<locals>.decorator() takes 1 positional argument but 2 were given"),
     h)
  /\ sell count price h =
    (Raise (Exc "TypeError"
              "log_function_call.<locals>.decorator() takes 1 positional argument but 3 were given"),
     h).
Proof. split; reflexivity. Qed.

(** *** The stock never goes below zero *)

Definition invariant (shop : DaifukuShop) : Prop :=
  (0 <= stock shop)%Z /\ float_nonneg (sales shop).

(** What a caller may do with a shop: call a method (as bound by the
    class), run a body as written, close the shop. *)
Inductive op :=
| CallMake (count : Z)
| CallSell (count : Z) (price : float)
| BodyMake (count : Z)
| BodySell (count : Z) (price : float)
| Close.

Definition price_of (o : op) : option float :=
  match o with
  | CallSell _ price | BodySell _ price => Some price
  | _ => None
  end.

(** One operation; the caller goes on whether it returned or raised. *)
Definition run_op (o : op) (h : Heap) : Heap :=
  match o with
  | CallMake count => snd (make_daifuku count h)
  | CallSell count price => snd (sell count price h)
  | BodyMake count => snd (make_daifuku_def count h)
  | BodySell count price => snd (sell_def count price h)
  | Close => snd (close_shop h)
  end.

Definition run_ops (ops : list op) (h : Heap) : Heap :=
  fold_left (fun h o => run_op o h) ops h.

Lemma close_shop_self (h : Heap) : self (snd (close_shop h)) = self h.
Proof.
  unfold close_shop, bind, get. cbv beta iota zeta.
  repeat (rewrite in_world_info; cbv beta iota). reflexivity.
Qed.

Lemma run_op_invariant (o : op) (h : Heap) :
  (forall price, price_of o = Some price -> float_nonneg price) ->
  invariant (self h) -> invariant (self (run_op o h)).
Proof.
  intros Hprice [Hstock Hsales]. destruct o as [count | count price | count | count price | ].
  - split; assumption.
  - split; assumption.
  - simpl. pose proof (make_daifuku_def_effect count h) as He. simpl in He.
    destruct He as (_ & _ & Hs & He). unfold invariant. rewrite Hs.
    destruct (count <=? 0)%Z eqn:Hc; destruct He as [_ Hst]; rewrite Hst.
    + split; assumption.
    + apply Z.leb_gt in Hc. split; [lia | assumption].
  - simpl. pose proof (sell_def_effect count price h) as He. simpl in He.
    destruct He as (_ & _ & He). unfold invariant.
    destruct ((count <=? 0) || (stock (self h) <? count))%Z eqn:Hc.
    + destruct He as (_ & Hst & Hsa). rewrite Hst, Hsa. split; assumption.
    + apply orb_false_iff in Hc. destruct Hc as [Hc1 Hc2].
      apply Z.leb_gt in Hc1. apply Z.ltb_ge in Hc2.
      destruct He as [Hst He]. rewrite Hst. split; [lia | ].
      destruct (int_mul count price) as [amount | ] eqn:Hm; destruct He as [_ Hsa];
        rewrite Hsa; [ | assumption].
      apply float_add_nonneg; [assumption | ].
      apply (int_mul_nonneg count price amount); [lia | | exact Hm].
      apply Hprice. reflexivity.
  - simpl. rewrite close_shop_self. split; assumption.
Qed.

Lemma run_ops_invariant (ops : list op) :
  (forall o price, In o ops -> price_of o = Some price -> float_nonneg price) ->
  forall h, invariant (self h) -> invariant (self (run_ops ops h)).
Proof.
  induction ops as [ | o ops IH]; intros Hprice h Hinv; [exact Hinv | ].
  simpl. apply IH.
  - intros o' price Hin. apply (Hprice o' price). right. exact Hin.
  - apply run_op_invariant; [ | exact Hinv].
    intros price. apply (Hprice o price). left. reflexivity.
Qed.

Lemma DaifukuShop_init_shop (shop_name : string) (w : Logging.World) :
  match DaifukuShop_init shop_name w with
  | (Ret shop, _) =>
      name shop = shop_name /\ stock shop = 0%Z /\ sales shop = float_zero
  | (Raise _, _) => True
  end.
Proof.
  unfold DaifukuShop_init, bind.
  destruct (Logging.AppLogger_init shop_name true w) as [[lg | e] w1]; [ | exact I].
  destruct (LoggingFacts.AppLogger_log_setting lg INFO
              (shop_name +:+ " を開店しました") false w1) as [Hret _].
  change (Logging.AppLogger_log lg INFO (shop_name +:+ " を開店しました") false)
    with (Logging.AppLogger_info lg (shop_name +:+ " を開店しました")) in Hret.
  destruct (Logging.AppLogger_info lg (shop_name +:+ " を開店しました") w1) as [o w2].
  simpl in Hret. subst o. simpl. repeat split.
Qed.

(** C10: a shop starts with stock 0 and sales 0.0, and after every
    sequence of operations on it (method calls as the class binds them,
    the bodies of [make_daifuku] and [sell] run as written, closing),
    with non-negative prices, the stock is a non-negative integer and
    the sales are non-negative.  The body of [make_daifuku] changes the
    stock only by adding a positive count, and the body of [sell] only by
    subtracting a count that is positive and not above the stock. *)
Theorem shop_invariant (shop_name : string) (w : Logging.World) (ops : list op) :
  (forall o price, In o ops -> price_of o = Some price -> float_nonneg price) ->
  match DaifukuShop_init shop_name w with
  | (Ret shop, w1) =>
      stock shop = 0%Z /\ sales shop = float_zero
      /\ (0 <= stock (self (run_ops ops {| self := shop; world := w1 |})))%Z
      /\ float_nonneg (sales (self (run_ops ops {| self := shop; world := w1 |})))
      /\ forall (h : Heap) (count : Z) (price : float),
           stock (self (snd (make_daifuku_def count h))) =
             (if (0 <? count)%Z then stock (self h) + count else stock (self h))%Z
           /\ stock (self (snd (sell_def count price h))) =
             (if ((0 <? count) && (count <=? stock (self h)))%Z
              then stock (self h) - count else stock (self h))%Z
  | (Raise _, _) => True
  end.
Proof.
  intros Hprice. pose proof (DaifukuShop_init_shop shop_name w) as Hinit.
  destruct (DaifukuShop_init shop_name w) as [[shop | e] w1]; [ | exact I].
  destruct Hinit as (_ & Hstock & Hsales).
  split; [exact Hstock | ]. split; [exact Hsales | ].
  assert (invariant (self (run_ops ops {| self := shop; world := w1 |}))) as [H1 H2].
  { apply run_ops_invariant; [exact Hprice | ]. simpl. unfold invariant.
    rewrite Hstock, Hsales. split; [lia | apply float_zero_nonneg]. }
  split; [exact H1 | ]. split; [exact H2 | ].
  intros h count price. split.
  - pose proof (make_daifuku_def_effect count h) as He. simpl in He.
    destruct He as (_ & _ & _ & He).
    destruct (count <=? 0)%Z eqn:Hc; destruct He as [_ ->].
    + apply Z.leb_le in Hc. rewrite (proj2 (Z.ltb_ge 0 count)) by lia. reflexivity.
    + apply Z.leb_gt in Hc. rewrite (proj2 (Z.ltb_lt 0 count)) by lia. reflexivity.
  - pose proof (sell_def_effect count price h) as He. simpl in He.
    destruct He as (_ & _ & He).
    destruct (count <=? 0)%Z eqn:Hc1; destruct (stock (self h) <? count)%Z eqn:Hc2;
      simpl in He;
      try apply Z.leb_le in Hc1; try apply Z.leb_gt in Hc1;
      try apply Z.ltb_lt in Hc2; try apply Z.ltb_ge in Hc2.
    + destruct He as (_ & -> & _).
      rewrite (proj2 (Z.ltb_ge 0 count)) by lia. reflexivity.
    + destruct He as (_ & -> & _).
      rewrite (proj2 (Z.ltb_ge 0 count)) by lia. reflexivity.
    + destruct He as (_ & -> & _).
      rewrite (proj2 (Z.ltb_lt 0 count)), (proj2 (Z.leb_gt count (stock (self h))))
        by lia. reflexivity.
    + destruct He as [-> _].
      rewrite (proj2 (Z.ltb_lt 0 count)), (proj2 (Z.leb_le count (stock (self h))))
        by lia. reflexivity.
Qed.

End WithFloat.

(** *** IEEE binary64 satisfies the sign rules *)

Section Rounding.
Variables prec emax : Z.
Hypothesis prec_pos : (0 < prec)%Z.

Lemma shr_1_div2 (mrs : SpecFloat.shr_record) :
  (0 <= SpecFloat.shr_m mrs)%Z -> SpecFloat.shr_m (SpecFloat.shr_1 mrs) = Z.div2 (SpecFloat.shr_m mrs).
Proof.
  destruct mrs as [m r s]. simpl. intros Hm.
  destruct m as [ | [p | p | ] | p]; try reflexivity. lia.
Qed.

Lemma iter_shr_1 (p : positive) :
  forall mrs, (0 <= SpecFloat.shr_m mrs)%Z ->
              SpecFloat.shr_m (SpecFloat.iter_pos SpecFloat.shr_1 p mrs) = Z.shiftr (SpecFloat.shr_m mrs) (Zpos p).
Proof.
  assert (forall m, (0 <= m)%Z -> (0 <= Z.div2 m)%Z) as Hdiv2.
  { intros m Hm. rewrite Z.div2_div. apply Z.div_pos; lia. }
  assert (forall m n, (0 <= m)%Z -> (0 <= n)%Z -> (0 <= Z.shiftr m n)%Z) as Hshift.
  { intros m n Hm Hn. apply Z.shiftr_nonneg. exact Hm. }
  induction p as [p IH | p IH | ]; intros mrs Hm; simpl.
  - rewrite IH.
    + rewrite IH by (rewrite shr_1_div2 by exact Hm; apply Hdiv2; exact Hm).
      rewrite shr_1_div2 by exact Hm. rewrite Z.div2_spec.
      rewrite !Z.shiftr_shiftr by lia. f_equal. lia.
    + rewrite IH by (rewrite shr_1_div2 by exact Hm; apply Hdiv2; exact Hm).
      apply Hshift; [ | lia]. rewrite shr_1_div2 by exact Hm. apply Hdiv2. exact Hm.
  - rewrite IH.
    + rewrite IH by exact Hm. rewrite Z.shiftr_shiftr by lia. f_equal. lia.
    + rewrite IH by exact Hm. apply Hshift; [exact Hm | lia].
  - rewrite shr_1_div2 by exact Hm. apply Z.div2_spec.
Qed.

Lemma digits2_lower (p : positive) :
  (2 ^ (Zpos (SpecFloat.digits2_pos p) - 1) <= Zpos p)%Z.
Proof.
  induction p as [p IH | p IH | ]; simpl SpecFloat.digits2_pos.
  - rewrite Pos2Z.inj_succ.
    replace (Z.succ (Zpos (SpecFloat.digits2_pos p)) - 1)%Z
      with (Z.succ (Zpos (SpecFloat.digits2_pos p) - 1))%Z by lia.
    rewrite Z.pow_succ_r by lia. lia.
  - rewrite Pos2Z.inj_succ.
    replace (Z.succ (Zpos (SpecFloat.digits2_pos p)) - 1)%Z
      with (Z.succ (Zpos (SpecFloat.digits2_pos p) - 1))%Z by lia.
    rewrite Z.pow_succ_r by lia. lia.
  - simpl. lia.
Qed.

(** Shifting a positive mantissa to its exponent leaves it positive when
    the exponent is not below [emin]. *)
Lemma shr_fexp_positive (p : positive) (e : Z) (l : SpecFloat.location) :
  (SpecFloat.emin prec emax <= e)%Z ->
  (0 < SpecFloat.shr_m (fst (SpecFloat.shr_fexp prec emax (Zpos p) e l)))%Z
  /\ (SpecFloat.emin prec emax <= snd (SpecFloat.shr_fexp prec emax (Zpos p) e l))%Z.
Proof.
  intros He. unfold SpecFloat.shr_fexp, SpecFloat.shr.
  assert (SpecFloat.shr_m (SpecFloat.shr_record_of_loc (Zpos p) l) = Zpos p) as Hm
    by (destruct l as [ | []]; reflexivity).
  set (d := SpecFloat.Zdigits2 (Zpos p)).
  assert (d = Zpos (SpecFloat.digits2_pos p)) as Hd by reflexivity.
  destruct (SpecFloat.fexp prec emax (d + e) - e)%Z as [ | n | n] eqn:Hn; simpl.
  - rewrite Hm. split; [lia | exact He].
  - split; [ | lia].
    rewrite iter_shr_1 by (rewrite Hm; lia). rewrite Hm.
    rewrite Z.shiftr_div_pow2 by lia.
    assert (Zpos n <= d - 1)%Z as Hle.
    { unfold SpecFloat.fexp in Hn. lia. }
    pose proof (digits2_lower p) as Hlow. rewrite <- Hd in Hlow.
    assert (2 ^ Zpos n <= 2 ^ (d - 1))%Z by (apply Z.pow_le_mono_r; lia).
    apply Z.div_str_pos. lia.
  - rewrite Hm. split; [lia | exact He].
Qed.

Lemma round_nearest_even_ge (m : Z) (l : SpecFloat.location) :
  (m <= SpecFloat.round_nearest_even m l)%Z.
Proof.
  unfold SpecFloat.round_nearest_even.
  destruct l as [ | []]; try lia. destruct (Z.even m); lia.
Qed.

(** Rounding a positive mantissa at an exponent not below [emin] gives a
    finite number or an infinity of the sign it was given. *)
Lemma binary_round_aux_positive (s : bool) (p : positive) (e : Z)
      (l : SpecFloat.location) :
  (SpecFloat.emin prec emax <= e)%Z ->
  match SpecFloat.binary_round_aux prec emax s (Zpos p) e l with
  | S754_finite s' _ _ | S754_infinity s' => s' = s
  | _ => False
  end.
Proof.
  intros He. unfold SpecFloat.binary_round_aux.
  destruct (shr_fexp_positive p e l He) as [Hm1 He1].
  destruct (SpecFloat.shr_fexp prec emax (Zpos p) e l) as [mrs1 e1]. simpl in Hm1, He1.
  pose proof (round_nearest_even_ge (SpecFloat.shr_m mrs1) (SpecFloat.loc_of_shr_record mrs1)) as Hr.
  destruct (SpecFloat.round_nearest_even (SpecFloat.shr_m mrs1) (SpecFloat.loc_of_shr_record mrs1))
    as [ | q | q] eqn:Hq; try lia.
  destruct (shr_fexp_positive q e1 SpecFloat.loc_Exact He1) as [Hm2 _].
  destruct (SpecFloat.shr_fexp prec emax (Zpos q) e1 SpecFloat.loc_Exact) as [mrs2 e2].
  simpl in Hm2. destruct (SpecFloat.shr_m mrs2) as [ | m | m]; try lia.
  destruct (e2 <=? emax - prec)%Z; reflexivity.
Qed.

Lemma shr_fexp_nonneg (m e : Z) (l : SpecFloat.location) :
  (0 <= m)%Z -> (0 <= SpecFloat.shr_m (fst (SpecFloat.shr_fexp prec emax m e l)))%Z.
Proof.
  intros Hm. unfold SpecFloat.shr_fexp, SpecFloat.shr.
  assert (SpecFloat.shr_m (SpecFloat.shr_record_of_loc m l) = m) as Hrec
    by (destruct l as [ | []]; reflexivity).
  destruct (SpecFloat.fexp prec emax (SpecFloat.Zdigits2 m + e) - e)%Z; simpl;
    try (rewrite Hrec; exact Hm).
  rewrite iter_shr_1 by (rewrite Hrec; exact Hm). rewrite Hrec.
  apply Z.shiftr_nonneg. exact Hm.
Qed.

(** Rounding a non-negative mantissa never gives a NaN and keeps the
    sign it was given. *)
Lemma binary_round_aux_sign (s : bool) (m e : Z) (l : SpecFloat.location) :
  (0 <= m)%Z ->
  match SpecFloat.binary_round_aux prec emax s m e l with
  | S754_zero s' | S754_finite s' _ _ | S754_infinity s' => s' = s
  | S754_nan => False
  end.
Proof.
  intros Hm. unfold SpecFloat.binary_round_aux.
  pose proof (shr_fexp_nonneg m e l Hm) as H1.
  destruct (SpecFloat.shr_fexp prec emax m e l) as [mrs1 e1]. simpl in H1.
  pose proof (round_nearest_even_ge (SpecFloat.shr_m mrs1)
                (SpecFloat.loc_of_shr_record mrs1)) as Hr.
  pose proof (shr_fexp_nonneg
                (SpecFloat.round_nearest_even (SpecFloat.shr_m mrs1)
                   (SpecFloat.loc_of_shr_record mrs1)) e1 SpecFloat.loc_Exact) as H2.
  destruct (SpecFloat.shr_fexp prec emax
              (SpecFloat.round_nearest_even (SpecFloat.shr_m mrs1)
                 (SpecFloat.loc_of_shr_record mrs1)) e1 SpecFloat.loc_Exact)
    as [mrs2 e2]. simpl in H2.
  destruct (SpecFloat.shr_m mrs2) as [ | q | q]; [reflexivity | | lia].
  destruct (e2 <=? emax - prec)%Z; reflexivity.
Qed.

Lemma binary_round_sign (s : bool) (p : positive) (e : Z) :
  match SpecFloat.binary_round prec emax s p e with
  | S754_zero s' | S754_finite s' _ _ | S754_infinity s' => s' = s
  | S754_nan => False
  end.
Proof.
  unfold SpecFloat.binary_round.
  destruct (SpecFloat.shl_align p e
              (SpecFloat.fexp prec emax (Zpos (SpecFloat.digits2_pos p) + e)))
    as [mz ez].
  apply binary_round_aux_sign. lia.
Qed.

Lemma binary_round_positive (s : bool) (p : positive) (e : Z) :
  (SpecFloat.emin prec emax <= e)%Z ->
  match SpecFloat.binary_round prec emax s p e with
  | S754_finite s' _ _ | S754_infinity s' => s' = s
  | _ => False
  end.
Proof.
  intros He. unfold SpecFloat.binary_round.
  assert (SpecFloat.emin prec emax <=
          snd (SpecFloat.shl_align p e
                 (SpecFloat.fexp prec emax (Zpos (SpecFloat.digits2_pos p) + e))))%Z
    as Hez.
  { unfold SpecFloat.shl_align, SpecFloat.fexp.
    destruct (Z.max (Zpos (SpecFloat.digits2_pos p) + e - prec)
                (SpecFloat.emin prec emax) - e)%Z; simpl; lia. }
  destruct (SpecFloat.shl_align p e
              (SpecFloat.fexp prec emax (Zpos (SpecFloat.digits2_pos p) + e)))
    as [mz ez]. simpl in Hez.
  apply binary_round_aux_positive. exact Hez.
Qed.

(** [x >= 0.0]. *)
Definition SF_nonneg (x : spec_float) : Prop :=
  SpecFloat.SFleb (S754_zero false) x = true.

Lemma SF_nonneg_sign (x : spec_float) :
  SF_nonneg x <->
  match x with
  | S754_zero _ => True
  | S754_finite s _ _ | S754_infinity s => s = false
  | S754_nan => False
  end.
Proof.
  unfold SF_nonneg, SpecFloat.SFleb, SpecFloat.SFcompare.
  destruct x as [s | [ | ] | | [ | ] m e]; simpl; split; intros H;
    try discriminate H; try reflexivity; try exact I; try destruct H.
Qed.

Lemma SFadd_nonneg (a b : spec_float) :
  SF_nonneg a -> SF_nonneg b -> SF_nonneg (SpecFloat.SFadd prec emax a b).
Proof.
  rewrite !SF_nonneg_sign. intros Ha Hb.
  destruct a as [sa | sa | | sa ma ea]; try contradiction;
    destruct b as [sb | sb | | sb mb eb]; try contradiction;
    subst; simpl; try reflexivity; try exact I.
  - destruct sa, sb; exact I.
  - unfold SpecFloat.binary_normalize.
    pose proof (binary_round_sign false
                  (fst (SpecFloat.shl_align ma ea (Z.min ea eb))
                   + fst (SpecFloat.shl_align mb eb (Z.min ea eb)))
                  (Z.min ea eb)) as Hs.
    destruct (SpecFloat.binary_round prec emax false _ _); try exact I; exact Hs.
Qed.

Lemma SFmul_nonneg (a b : spec_float) :
  match a with S754_finite false _ _ => True | _ => False end ->
  SF_nonneg b -> SF_nonneg (SpecFloat.SFmul prec emax a b).
Proof.
  rewrite !SF_nonneg_sign. intros Ha Hb.
  destruct a as [sa | sa | | [ | ] ma ea]; try contradiction.
  destruct b as [sb | sb | | sb mb eb]; try contradiction;
    subst; simpl; try reflexivity; try exact I.
  pose proof (binary_round_aux_sign false (Zpos (ma * mb)) (ea + eb)
                SpecFloat.loc_Exact) as Hs.
  destruct (SpecFloat.binary_round_aux prec emax false _ _ _); try exact I;
    apply Hs; lia.
Qed.

End Rounding.

(** Python's [float]: IEEE binary64, rounding to nearest even. *)
Definition b64_add : spec_float -> spec_float -> spec_float :=
  SpecFloat.SFadd 53 1024.
Definition b64_mul : spec_float -> spec_float -> spec_float :=
  SpecFloat.SFmul 53 1024.

(** [float(n)] for an [int]: the nearest float, [OverflowError] when
    there is none. *)
Definition b64_of_int (n : Z) : option spec_float :=
  match SpecFloat.binary_normalize 53 1024 n 0 false with
  | S754_infinity _ => None
  | x => Some x
  end.

(** [n * x] for an [int] and a [float]. *)
Definition b64_int_mul (n : Z) (x : spec_float) : option spec_float :=
  match b64_of_int n with
  | Some f => Some (b64_mul f x)
  | None => None
  end.

Lemma b64_of_int_positive (n : Z) (f : spec_float) :
  (0 < n)%Z -> b64_of_int n = Some f ->
  match f with S754_finite false _ _ => True | _ => False end.
Proof.
  intros Hn. destruct n as [ | p | p]; try lia. unfold b64_of_int. simpl.
  assert (SpecFloat.emin 53 1024 <= 0)%Z as He by (unfold SpecFloat.emin; lia).
  pose proof (binary_round_positive 53 1024 ltac:(lia) false p 0 He) as Hp.
  destruct (SpecFloat.binary_round 53 1024 false p 0) as [s | s | | s m e];
    try contradiction; intros [= <-]. subst s. exact I.
Qed.

Lemma b64_int_mul_nonneg (n : Z) (x y : spec_float) :
  (0 < n)%Z -> SF_nonneg x -> b64_int_mul n x = Some y -> SF_nonneg y.
Proof.
  intros Hn Hx. unfold b64_int_mul.
  destruct (b64_of_int n) as [f | ] eqn:Hf; [ | discriminate].
  intros [= <-]. apply SFmul_nonneg; [ | exact Hx].
  exact (b64_of_int_positive n f Hn Hf).
Qed.

(** The floats of Python as an instance, for a given [str]. *)
Definition binary64 (str : spec_float -> string) : PyFloat :=
  {| float := spec_float;
     float_zero := S754_zero false;
     float_add := b64_add;
     int_mul := b64_int_mul;
     float_str := str;
     float_nonneg := SF_nonneg;
     float_nonneg_dec := fun x => decide (SpecFloat.SFleb (S754_zero false) x = true);
     float_zero_nonneg := eq_refl;
     float_add_nonneg := SFadd_nonneg 53 1024;
     int_mul_nonneg := b64_int_mul_nonneg |}.

(** [str(x)] for a float whose value is an integer of at most 16 digits
    (["900.0"]), an infinity or a NaN; the amounts of the shop example
    are such floats.  Other floats are not rendered. *)
Definition integral_value (x : spec_float) : option Z :=
  match x with
  | S754_zero _ => Some 0%Z
  | S754_finite s m e =>
      let magnitude :=
        if (0 <=? e)%Z then Some (Zpos m * 2 ^ e)%Z
        else if (Zpos m mod 2 ^ (- e) =? 0)%Z then Some (Zpos m / 2 ^ (- e))%Z
        else None in
      (fun n => if s then (- n)%Z else n) <$> magnitude
  | _ => None
  end.

Definition str_integral (x : spec_float) : string :=
  match x with
  | S754_nan => "nan"
  | S754_infinity s => if s then "-inf" else "inf"
  | S754_zero s => if s then "-0.0" else "0.0"
  | S754_finite _ _ _ =>
      match integral_value x with
      | Some n => if (Z.abs n <? 10 ^ 16)%Z then pretty n +:+ ".0" else ""
      | None => ""
      end
  end.

#[local] Instance python_float : PyFloat := binary64 str_integral.

(** [float(n)] when it exists, else NaN. *)
Definition fl (n : Z) : spec_float := default S754_nan (b64_of_int n).

Example three_hundred : fl 300 = S754_finite false 5277655813324800 (-44).
Proof. reflexivity. Qed.

(** The day of [demo_shop], with the bodies run as written and two calls
    through the class between them. *)
Definition demo_ops : list op :=
  [BodyMake 20; CallMake 5; BodySell 3 (fl 300); BodySell 5 (fl 300);
   BodySell 15 (fl 300); CallSell 1 (fl 300); BodySell 0 (fl 300); Close].

(** The heap when [DaifukuShop(shop_name)] has run in world [w] (when
    the construction raises there is no shop; the heap then holds the
    attributes assigned before the logger). *)
Definition opened (shop_name : string) (w : Logging.World) : Heap :=
  match DaifukuShop_init shop_name w with
  | (Ret shop, w1) => {| self := shop; world := w1 |}
  | (Raise _, w1) =>
      {| self := {| name := shop_name; stock := 0; sales := float_zero;
                    logger := {| Logging.logger := shop_name |} |};
         world := w1 |}
  end.

Definition demo_start : Heap := opened "ふわふわ大福店" Logging.boot.

Example demo_day :
  stock (self (run_ops demo_ops demo_start)) = 12%Z
  /\ sales (self (run_ops demo_ops demo_start)) = fl 2400
  /\ Logging.w_stdout (world (run_ops [BodyMake 20; BodySell 3 (fl 300)] demo_start)) =
     [Logging.Text ("12:00:00 [INFO] ふわふわ大福店 を開店しました" +:+ Logging.nl);
      Logging.Text ("12:00:00 [INFO] 大福 20個 作成完了 → 在庫 20個" +:+ Logging.nl);
      Logging.Text ("12:00:00 [INFO] 販売成功: 3個 × 300.0円 = 900.0円" +:+ Logging.nl);
      Logging.Text ("12:00:00 [INFO] 現在の状態: 在庫17個、売上900.0円" +:+ Logging.nl)].
Proof. repeat split; vm_compute; reflexivity. Qed.

Lemma shop_invariant_witness :
  (0 <= stock (self (run_ops demo_ops demo_start)))%Z
  /\ float_nonneg (sales (self (run_ops demo_ops demo_start))).
Proof.
  assert (forall o price, In o demo_ops -> price_of o = Some price ->
                          float_nonneg price) as Hprice.
  { intros o price Hin Hp. simpl in Hin.
    repeat (destruct Hin as [<- | Hin]; [simpl in Hp; try discriminate Hp;
                                         injection Hp as <-; reflexivity | ]).
    destruct Hin. }
  pose proof (shop_invariant "ふわふわ大福店" Logging.boot demo_ops Hprice) as T.
  assert (is_raise (fst (DaifukuShop_init "ふわふわ大福店" Logging.boot)) = false)
    as Hopened by (vm_compute; reflexivity).
  unfold demo_start, opened.
  destruct (DaifukuShop_init "ふわふわ大福店" Logging.boot) as [[shop | e] w1];
    [ | discriminate Hopened].
  destruct T as (_ & _ & Hstock & Hsales & _).
  split; [exact Hstock | exact Hsales].
Defined.

Example zero_count_raises_where_the_body_returns :
  make_daifuku 0 demo_start =
    (Raise (Exc "TypeError"
              "log_function_call.<locals>.decorator() takes 1 positional argument but 2 were given"),
     demo_start)
  /\ is_raise (fst (make_daifuku_def 0 demo_start)) = false
  /\ stock (self (snd (make_daifuku_def 0 demo_start))) = 0%Z.
Proof.
  split; [exact (proj1 (decorated_methods_raise_TypeError 0 (fl 300) demo_start)) | ].
  split; vm_compute; reflexivity.
Qed.

End ShopFacts.

(* ===================================================================== *)
(** ** The session class: failures, bounds and the frame of [main]       *)
(* ===================================================================== *)

Module SessionFacts.
Import Py Py.Notations Selenium SeleniumFacts.

(** A collaborator that creates the browser and then refuses to
    configure it. *)
Definition wait_fails : Remote :=
  {| rm_fail := fun _ c => match c with
                           | ImplicitlyWait _ _ =>
                               Some (Exc "WebDriverException" "chrome not reachable")
                           | _ => None
                           end;
     rm_element := fun _ => e0;
     rm_elements := fun _ => [];
     rm_text := fun _ _ => "" |}.

(** *** A frame whose [start()] fails *)

Lemma scoped_after_failed_start remote body s0 e s1 :
  start remote s0 = (Raise e, s1) ->
  driver s0 = None ->
  scoped remote body s0 = (Raise e, s1).
Proof.
  intros Hstart Hd. pose proof (start_outcome remote s0) as Ho.
  rewrite Hstart in Ho. destruct Ho as (Hd1 & _).
  unfold scoped, try_finally. unfold bind at 1. rewrite Hstart.
  rewrite stop_inactive by congruence. reflexivity.
Qed.

(** When [start()] raises inside the frame of [main] on a new session,
    no action runs, [stop()] finds no driver and does nothing, and the
    frame raises the exception of [start()]: the state is the one
    [start()] left. *)
Theorem failed_start_skips_actions_and_stop remote (body : list action)
        (s0 s1 : state) (e : exc) :
  driver s0 = None ->
  start remote s0 = (Raise e, s1) ->
  scoped remote body s0 = (Raise e, s1)
  /\ driver s1 = None
  /\ forall h, released h (calls s1) = released h (calls s0).
Proof.
  intros Hd Hstart. split; [apply scoped_after_failed_start; assumption | ].
  pose proof (start_outcome remote s0) as Ho. rewrite Hstart in Ho.
  destruct Ho as (Hd1 & _ & Hr). split; [congruence | exact Hr].
Qed.

Lemma failed_start_skips_actions_and_stop_witness :
  scoped wait_fails [Screenshot "daifuku_search.png"] uninitialized
  = (Raise (Exc "WebDriverException" "chrome not reachable"),
     snd (start wait_fails uninitialized)).
Proof.
  apply (failed_start_skips_actions_and_stop wait_fails
           [Screenshot "daifuku_search.png"] uninitialized
           (snd (start wait_fails uninitialized))); reflexivity.
Defined.

(** The browser leak of [setup_driver_with_options]: when
    [webdriver.Chrome(...)] has returned a browser and
    [implicitly_wait] then raises, the function logs and re-raises
    without [quit()]; the session never stores the browser, so the
    [finally: stop()] of the frame does not release it either.  The
    frame issues the three set-up calls and nothing else. *)
Theorem browser_leaks_when_configuration_fails remote (body : list action)
        (s0 : state) (e : exc) :
  driver s0 = None ->
  rm_fail remote (calls s0) Install = None ->
  rm_fail remote (calls s0 ++ [Install]) (Chrome chrome_arguments) = None ->
  rm_fail remote ((calls s0 ++ [Install]) ++ [Chrome chrome_arguments])
          (ImplicitlyWait (acquired (calls s0)) 10) = Some e ->
  let s' := snd (scoped remote body s0) in
  fst (scoped remote body s0) = Raise e
  /\ driver s' = None
  /\ calls s' = (calls s0 ++ [Install; Chrome chrome_arguments;
                              ImplicitlyWait (acquired (calls s0)) 10])%list
  /\ acquired (calls s') = S (acquired (calls s0))
  /\ released (acquired (calls s0)) (calls s')
     = released (acquired (calls s0)) (calls s0).
Proof.
  intros Hd H1 H2 H3.
  assert (acquired (calls s0 ++ [Install]) = acquired (calls s0)) as Ha.
  { rewrite acquired_snoc. simpl. lia. }
  assert (exists s1, start remote s0 = (Raise e, s1)
            /\ calls s1 = (calls s0 ++ [Install; Chrome chrome_arguments;
                                        ImplicitlyWait (acquired (calls s0)) 10])%list)
    as (s1 & Hstart & Hcalls).
  { eexists. run_steps. rewrite H1. simpl. rewrite H2. simpl.
    rewrite Ha, H3. simpl. split; [reflexivity | ].
    unfold add_log, add_call; simpl. rewrite <- !app_assoc. reflexivity. }
  pose proof (start_outcome remote s0) as Ho. rewrite Hstart in Ho.
  destruct Ho as (Hd1 & _ & Hr).
  simpl. rewrite (scoped_after_failed_start remote body s0 e s1 Hstart Hd). simpl.
  split; [reflexivity | ]. split; [congruence | ]. split; [exact Hcalls | ].
  split; [ | apply Hr].
  rewrite Hcalls.
  replace (calls s0 ++ [Install; Chrome chrome_arguments;
                        ImplicitlyWait (acquired (calls s0)) 10])%list
    with (((calls s0 ++ [Install]) ++ [Chrome chrome_arguments])
          ++ [ImplicitlyWait (acquired (calls s0)) 10])%list
    by (rewrite <- !app_assoc; reflexivity).
  rewrite !acquired_snoc. simpl. lia.
Qed.

Lemma browser_leaks_when_configuration_fails_witness :
  calls (snd (scoped wait_fails [Search "ふわふわ大福 作り方"] uninitialized))
  = [Install; Chrome chrome_arguments; ImplicitlyWait h0 10]
  /\ released h0 (calls (snd (scoped wait_fails [Search "ふわふわ大福 作り方"]
                                     uninitialized))) = 0%nat.
Proof.
  destruct (browser_leaks_when_configuration_fails wait_fails
              [Search "ふわふわ大福 作り方"] uninitialized
              (Exc "WebDriverException" "chrome not reachable"))
    as (_ & _ & Hc & _ & Hr); try reflexivity.
  split; [exact Hc | exact Hr].
Defined.

(** *** The frame leaves no session open *)

(** After the frame of [main] on a new session, the session holds a
    browser only in one case: [quit()] itself raised.  Then the frame
    raises that exception and [quit()] was the last call. *)
Theorem frame_leaves_session_closed remote (body : list action) (s0 : state) :
  driver s0 = None ->
  let s' := snd (scoped remote body s0) in
  driver s' = None
  \/ exists h e cs, driver s' = Some h
       /\ fst (scoped remote body s0) = Raise e
       /\ rm_fail remote cs (Quit h) = Some e
       /\ calls s' = (cs ++ [Quit h])%list.
Proof.
  intros Hd. cbv zeta.
  destruct (start remote s0) as [[[] | e] s1] eqn:Hstart.
  - pose proof (start_outcome remote s0) as Ho. rewrite Hstart in Ho.
    destruct Ho as (Hd1 & _ & _).
    assert (scoped remote body s0 =
            try_finally (for_each body (act remote)) (stop remote) s1) as ->.
    { unfold scoped, try_finally. unfold bind at 1. rewrite Hstart. reflexivity. }
    unfold try_finally.
    destruct (for_each_act_quiet remote body s1) as [Hd2 _].
    destruct (for_each body (act remote) s1) as [r s2]; simpl in Hd2.
    rewrite Hd1 in Hd2. rewrite (stop_active remote s2 _ Hd2).
    destruct (rm_fail remote (calls s2) (Quit (acquired (calls s0))))
      as [e | ] eqn:Hq; simpl.
    + right. exists (acquired (calls s0)), e, (calls s2).
      split; [exact Hd2 | ]. split; [reflexivity | ]. split; [exact Hq | reflexivity].
    + left. reflexivity.
  - left. rewrite (scoped_after_failed_start remote body s0 e s1 Hstart Hd).
    pose proof (start_outcome remote s0) as Ho. rewrite Hstart in Ho.
    simpl. destruct Ho as (Hd1 & _). congruence.
Qed.

Lemma frame_leaves_session_closed_witness :
  driver (snd (scoped page_fails [Search "ふわふわ大福 作り方"] uninitialized)) = None.
Proof.
  destruct (frame_leaves_session_closed page_fails
              [Search "ふわふわ大福 作り方"] uninitialized) as [H | H];
    [reflexivity | exact H | ].
  destruct H as (h & e & cs & Hd & _). vm_compute in Hd. discriminate Hd.
Defined.

(** *** A stopped session can be started again *)

(** [stop()] is not final.  On a session that holds browser [h], when
    [stop()] and then [start()] return, the session holds a newly
    created browser, different from [h]; [h] has received its one
    [quit()] and the new browser none. *)
Theorem stopped_session_starts_again remote (s s1 s2 : state) (h : handle) :
  driver s = Some h ->
  (h < acquired (calls s))%nat ->
  stop remote s = (Ret tt, s1) ->
  start remote s1 = (Ret tt, s2) ->
  driver s1 = None
  /\ exists h', driver s2 = Some h' /\ h' <> h
       /\ acquired (calls s2) = S (acquired (calls s))
       /\ released h (calls s2) = S (released h (calls s))
       /\ released h' (calls s2) = released h' (calls s).
Proof.
  intros Hd Hlt Hstop Hstart.
  rewrite (stop_active remote s h Hd) in Hstop.
  destruct (rm_fail remote (calls s) (Quit h)); [discriminate | ].
  injection Hstop as <-.
  pose proof (start_outcome remote
                (set_driver None
                   (add_call (Quit h) (add_log INFO "ブラウザを終了します" s)))) as Ho.
  rewrite Hstart in Ho. simpl in Ho. destruct Ho as (Hd2 & Ha2 & Hr2).
  rewrite acquired_snoc in Hd2, Ha2. simpl in Hd2, Ha2.
  rewrite Nat.add_0_r in Hd2, Ha2.
  split; [reflexivity | ]. exists (acquired (calls s)).
  split; [exact Hd2 | ]. split; [lia | ]. split; [exact Ha2 | ].
  rewrite !Hr2, !released_snoc. split.
  - rewrite decide_True by reflexivity. lia.
  - rewrite decide_False; [lia | ]. intros [= Heq]. lia.
Qed.

Lemma stopped_session_starts_again_witness :
  exists h', driver (snd (start reliable closed)) = Some h' /\ h' <> h0.
Proof.
  destruct (stopped_session_starts_again reliable active closed
              (snd (start reliable closed)) h0)
    as (_ & h' & Hd & Hne & _); try reflexivity.
  - vm_compute. lia.
  - exists h'. split; assumption.
Defined.

(** *** Failures are logged, then raised again *)




(** *** How many results a search reads *)

Definition is_Text (c : call) : bool :=
  match c with Text _ _ => true | _ => false end.

(** Number of [element.text] reads in a history. *)
Definition texts (cs : list call) : nat := length (filter is_Text cs).

Lemma texts_snoc cs c :
  texts (cs ++ [c]) = (texts cs + (if is_Text c then 1 else 0))%nat.
Proof.
  unfold texts. rewrite filter_app, length_app. f_equal.
  rewrite filter_cons, filter_nil. destruct (is_Text c) eqn:Hc.
  - rewrite decide_True; [reflexivity | exact I].
  - rewrite decide_False; [reflexivity | intros []].
Qed.

(** A step reads at most [n] texts. *)
Definition reads {A} (n : nat) (m : ST A) : Prop :=
  forall s, (texts (calls (snd (m s))) <= texts (calls s) + n)%nat.

Lemma reads_ret {A} (a : A) : reads 0 (ret a).
Proof. intros s. simpl. lia. Qed.

Lemma reads_raise {A} e : reads 0 (@raise state A e).
Proof. intros s. simpl. lia. Qed.

Lemma reads_log l m : reads 0 (log l m).
Proof. intros s. simpl. lia. Qed.

Lemma reads_sleep n : reads 0 (sleep n).
Proof. intros s. simpl. rewrite texts_snoc. simpl. lia. Qed.

Lemma reads_perform remote c : reads (if is_Text c then 1 else 0) (perform remote c).
Proof.
  intros s. unfold perform.
  destruct (rm_fail remote (calls s) c); simpl; rewrite texts_snoc; lia.
Qed.

Lemma reads_bind {A B} n1 n2 (m : ST A) (k : A -> ST B) :
  reads n1 m -> (forall a, reads n2 (k a)) -> reads (n1 + n2) (bind m k).
Proof.
  intros Hm Hk s. unfold bind. specialize (Hm s).
  destruct (m s) as [[a | e] s1]; simpl in *; [ | lia].
  specialize (Hk a s1). lia.
Qed.

Lemma reads_try_except {A} n1 n2 (m : ST A) (k : exc -> ST A) :
  reads n1 m -> (forall e, reads n2 (k e)) -> reads (n1 + n2) (try_except m k).
Proof.
  intros Hm Hk s. unfold try_except. specialize (Hm s).
  destruct (m s) as [[a | e] s1]; simpl in *; [lia | ].
  specialize (Hk e s1). lia.
Qed.

Lemma reads_log_results remote d results :
  forall i, reads (length results) (log_results remote d i results).
Proof.
  induction results as [ | r rs IH]; intros i; simpl.
  - apply reads_ret.
  - apply (reads_bind 1 (length rs)); [apply (reads_perform remote (Text d r)) | ].
    intros before. apply (reads_bind 0 (length rs)); [apply reads_log | ].
    intros _. apply IH.
Qed.

(** However many results the page has, one call of
    [search_daifuku_recipe] reads the text of at most three of them
    ([results[:3]]). *)
Theorem search_reads_at_most_three_results remote (keyword : string) (s : state) :
  (texts (calls (snd (search_daifuku_recipe remote keyword s)))
   <= texts (calls s) + 3)%nat.
Proof.
  revert s. change (reads 3 (search_daifuku_recipe remote keyword)).
  unfold search_daifuku_recipe.
  apply (reads_bind 0 3); [intros s; simpl; lia | ]. intros s.
  destruct (driver s) as [d | ]; [ | intros s1; simpl; lia].
  apply (reads_try_except 3 0);
    [ | intros e; apply (reads_bind 0 0); [apply reads_log | intros _; apply reads_raise]].
  apply (reads_bind 0 3); [apply reads_log | intros _].
  apply (reads_bind 0 3); [apply (reads_perform remote (Get d _)) | intros _].
  apply (reads_bind 0 3); [apply reads_sleep | intros _].
  apply (reads_bind 0 3); [apply (reads_perform remote (FindElement d _ _)) | intros b1].
  apply (reads_bind 0 3); [apply (reads_perform remote (SendKeys d _ _)) | intros _].
  apply (reads_bind 0 3); [apply (reads_perform remote (SendKeys d _ _)) | intros _].
  apply (reads_bind 0 3); [apply reads_sleep | intros _].
  apply (reads_bind 0 3); [apply (reads_perform remote (FindElements d _ _)) | intros b2].
  apply (reads_bind 0 3); [apply reads_log | intros _].
  intros s1.
  pose proof (reads_log_results remote d (take 3 (rm_elements remote b2)) 1 s1) as H.
  rewrite length_take in H. lia.
Qed.

(** A page with five results: three are read. *)
Definition five_results : Remote :=
  {| rm_fail := fun _ _ => None;
     rm_element := fun _ => e0;
     rm_elements := fun _ => [1%nat; 2%nat; 3%nat; 4%nat; 5%nat];
     rm_text := fun _ _ => "大福" |}.

Example search_reads_three_of_five :
  texts (calls (snd (search_daifuku_recipe five_results "大福 レシピ" active))) = 3%nat.
Proof. reflexivity. Qed.

End SessionFacts.

(* ===================================================================== *)
(** ** selenium_setup_guide.py: the functional examples and [main]       *)
(* ===================================================================== *)

Module SeleniumMain.
Import Py Py.Notations Selenium.

(** What [main] asks of its collaborators: the calls the session class
    makes, and three that only the functional examples make. *)
Inductive request :=
| Basic (c : call)
| MaximizeWindow (h : handle)          (* driver.maximize_window() *)
| Title (h : handle)                   (* driver.title *)
| Until (h : handle) (timeout : Z) (condition by_ value : string).
    (* WebDriverWait(driver, timeout).until(EC.condition((by, value))) *)

#[global] Instance request_eq_dec : EqDecision request.
Proof. solve_decision. Defined.

(** The collaborators of the whole program, as [Remote] is for the
    session class: how a request answers after a history of requests. *)
Record Browser := {
  br_fail : list request -> request -> option exc;
  br_element : list request -> element;
  br_elements : list request -> list element;
  br_text : list request -> element -> string;
  br_title : list request -> string
}.

(** The state of a run of [main]: the [driver] attribute of its
    [automation] object, the requests issued so far (oldest first), the
    records passed to the module [logger] and the lines printed. *)
Record process := {
  automation : option handle;
  requests : list request;
  records : list (Level * string);
  printed : list string
}.

Definition add_request (r : request) (p : process) : process :=
  {| automation := automation p; requests := requests p ++ [r];
     records := records p; printed := printed p |}.
Definition add_record (l : Level) (m : string) (p : process) : process :=
  {| automation := automation p; requests := requests p;
     records := records p ++ [(l, m)]; printed := printed p |}.
Definition add_printed (m : string) (p : process) : process :=
  {| automation := automation p; requests := requests p;
     records := records p; printed := printed p ++ [m] |}.

(** The calls of the session class among the requests. *)
Definition basics (rs : list request) : list call :=
  omap (fun r => match r with Basic c => Some c | _ => None end) rs.

(** Number of browsers requested, and of [quit()] calls on [h]. *)
Definition requested (rs : list request) : nat := acquired (basics rs).
Definition quits (h : handle) (rs : list request) : nat :=
  length (filter (fun r => r = Basic (Quit h)) rs).

(** The state of a process that has just imported the module. *)
Definition init : process :=
  {| automation := None; requests := []; records := []; printed := [] |}.

Section WithBrowser.
Variable browser : Browser.

Definition Main := M process.

Definition log_record (l : Level) (m : string) : Main unit := modify (add_record l m).
Definition print_line (m : string) : Main unit := modify (add_printed m).

Definition send (r : request) : Main (list request) :=
  fun p => match br_fail browser (requests p) r with
           | Some e => (Raise e, add_request r p)
           | None => (Ret (requests p), add_request r p)
           end.

Definition pause (n : Z) : Main unit := modify (add_request (Basic (Sleep n))).

(** *** Running the code of the session class inside [main]

    The session class sees the process through its own state: the
    [driver] attribute, its own calls and the log.  Its collaborator is
    the browser of the process: a call made after the calls [cs] is a
    request made after the requests of the process followed by the
    calls that were added to those the process started with. *)
Definition session_state (p : process) : state :=
  {| driver := automation p; calls := basics (requests p); logged := records p |}.

Definition history (p : process) (cs : list call) : list request :=
  requests p ++ map Basic (drop (length (basics (requests p))) cs).

Definition remote_of (p : process) : Remote :=
  {| rm_fail := fun cs c => br_fail browser (history p cs) (Basic c);
     rm_element := fun cs => br_element browser (history p cs);
     rm_elements := fun cs => br_elements browser (history p cs);
     rm_text := fun cs e => br_text browser (history p cs) e |}.

Definition run_session {A} (m : Remote -> Selenium.ST A) : Main A :=
  fun p =>
    let (r, s) := m (remote_of p) (session_state p) in
    (r, {| automation := driver s; requests := history p (calls s);
           records := logged s; printed := printed p |}).

(** *** The functions *)

(** [setup_driver()]. *)
Definition setup_driver : Main handle :=
  try_except
    (log_record INFO "WebDriverを初期化しています..." ;;
     send (Basic Install) ;;
     before <- send (Basic (Chrome [])) ;;
     let driver := requested before in
     send (MaximizeWindow driver) ;;
     log_record INFO "WebDriverの初期化が完了しました" ;;
     ret driver)
    (fun e =>
       log_record ERROR ("WebDriverの初期化に失敗: " +:+ exc_str e) ;;
       raise e).

(** [example_google_search(driver)]. *)
Definition example_google_search (driver : handle) : Main unit :=
  try_except
    (log_record INFO "Googleにアクセスします" ;;
     send (Basic (Get driver "https://www.google.com")) ;;
     pause 2 ;;
     log_record INFO "検索ボックスを探しています" ;;
     before <- send (Basic (FindElement driver "name" "q")) ;;
     let search_box := br_element browser before in
     let keyword := "Python Selenium" in
     log_record INFO ("キーワード「" +:+ keyword +:+ "」を入力します") ;;
     send (Basic (SendKeys driver search_box keyword)) ;;
     log_record INFO "検索を実行します" ;;
     send (Basic (SendKeys driver search_box keys_RETURN)) ;;
     pause 3 ;;
     before <- send (Title driver) ;;
     log_record INFO ("ページタイトル: " +:+ br_title browser before) ;;
     log_record INFO "検索結果を取得します" ;;
     before <- send (Basic (FindElements driver "css selector" "h3")) ;;
     let results := br_elements browser before in
     run_session (fun remote => log_results remote driver 1 (take 5 results)) ;;
     log_record INFO "検索が完了しました")
    (fun e =>
       log_record ERROR ("エラーが発生しました: " +:+ exc_str e) ;;
       raise e).

(** [example_wait_for_element(driver)]. *)
Definition example_wait_for_element (driver : handle) : Main unit :=
  try_except
    (log_record INFO "要素の待機処理の例" ;;
     send (Basic (Get driver "https://www.google.com")) ;;
     send (Until driver 10 "presence_of_element_located" "name" "q") ;;
     log_record INFO "検索ボックスが見つかりました" ;;
     before <- send (Until driver 10 "element_to_be_clickable" "name" "q") ;;
     let clickable_element := br_element browser before in
     send (Basic (SendKeys driver clickable_element "Selenium待機処理")) ;;
     send (Basic (SendKeys driver clickable_element keys_RETURN)) ;;
     log_record INFO "待機処理が完了しました")
    (fun e =>
       log_record ERROR ("エラーが発生しました: " +:+ exc_str e) ;;
       raise e).

(** [finally: logger.info("ブラウザを終了します"); driver.quit()]. *)
Definition quit_browser (driver : handle) : Main unit :=
  log_record INFO "ブラウザを終了します" ;;
  send (Basic (Quit driver)) ;;
  ret tt.

(** The frames that [main] puts around the two functional examples:
    [try: ... / finally: logger.info(...); driver.quit()]. *)
Definition frame1 (driver1 : handle) : Main unit :=
  try_finally
    (example_google_search driver1 ;;
     send (Basic (SaveScreenshot driver1 "google_search.png")) ;;
     log_record INFO "スクリーンショットを保存: google_search.png")
    (quit_browser driver1).

Definition frame2 (driver2 : handle) : Main unit :=
  try_finally
    (example_wait_for_element driver2)
    (quit_browser driver2).

(** The three parts of [main]. *)
Definition method1 : Main unit :=
  print_line (Logging.nl +:+ "【方法1: シンプルな初期化】") ;;
  driver1 <- setup_driver ;;
  frame1 driver1.

Definition method2 : Main unit :=
  print_line (Logging.nl +:+ "【方法2: オプション付き初期化】") ;;
  driver2 <- run_session setup_driver_with_options ;;
  frame2 driver2.

Definition method3 : Main unit :=
  print_line (Logging.nl +:+ "【方法3: クラスを使った自動化】") ;;
  run_session main_method3.

(** [main()]. *)
Definition main : Main unit :=
  print_line Logging.banner ;;
  print_line "Selenium初期設定完全ガイド" ;;
  print_line Logging.banner ;;
  method1 ;;
  pause 2 ;;
  method2 ;;
  pause 2 ;;
  method3 ;;
  print_line (Logging.nl +:+ Logging.banner) ;;
  print_line "すべての処理が完了しました" ;;
  print_line Logging.banner.

End WithBrowser.

End SeleniumMain.

Module SeleniumMainFacts.
Import Py Py.Notations Selenium SeleniumFacts SeleniumMain.

(** *** Counting over a history that grows *)

Lemma acquired_app cs suf :
  acquired (cs ++ suf) = (acquired cs + acquired suf)%nat.
Proof. unfold acquired. rewrite filter_app, length_app. reflexivity. Qed.

Lemma released_app h cs suf :
  released h (cs ++ suf) = (released h cs + released h suf)%nat.
Proof. unfold released. rewrite filter_app, length_app. reflexivity. Qed.

Lemma basics_app rs rs' : basics (rs ++ rs') = (basics rs ++ basics rs')%list.
Proof. unfold basics. apply omap_app. Qed.

Lemma basics_Basic cs : basics (map Basic cs) = cs.
Proof.
  induction cs as [ | c cs IH]; [reflexivity | ].
  simpl. unfold basics in *. simpl. rewrite IH. reflexivity.
Qed.

Lemma quits_released h rs : quits h rs = released h (basics rs).
Proof.
  unfold quits, released, basics. induction rs as [ | r rs IH]; [reflexivity | ].
  rewrite filter_cons.
  destruct (decide (r = Basic (Quit h))) as [-> | Hne].
  - cbn [omap option_bind mbind]. simpl. rewrite filter_cons, decide_True by reflexivity.
    simpl. rewrite IH. reflexivity.
  - rewrite IH. destruct r as [c | | | ]; try reflexivity.
    simpl. rewrite filter_cons, decide_False by congruence. reflexivity.
Qed.

Lemma quits_snoc h rs r :
  quits h (rs ++ [r]) =
  (quits h rs + (if decide (r = Basic (Quit h)) then 1 else 0))%nat.
Proof.
  unfold quits. rewrite filter_app, length_app. f_equal.
  rewrite filter_cons, filter_nil. destruct (decide (r = Basic (Quit h))); reflexivity.
Qed.

Lemma opened_snoc rs r :
  requested (rs ++ [r]) =
  (requested rs + match r with Basic (Chrome _) => 1 | _ => 0 end)%nat.
Proof.
  unfold requested. rewrite basics_app, acquired_app. f_equal.
  destruct r as [[] | | | ]; reflexivity.
Qed.

(** *** The session class only adds calls *)

(** A step adds calls to the history, each of them satisfying [P]. *)
Definition emits {A} (P : call -> Prop) (m : Selenium.ST A) : Prop :=
  forall s, exists suf, calls (snd (m s)) = (calls s ++ suf)%list /\ Forall P suf.

Lemma emits_ret {A} P (a : A) : emits P (ret a).
Proof. intros s. exists []. rewrite app_nil_r. split; [reflexivity | constructor]. Qed.

Lemma emits_raise {A} P e : emits P (@raise state A e).
Proof. intros s. exists []. rewrite app_nil_r. split; [reflexivity | constructor]. Qed.

Lemma emits_get P : emits P (@get state).
Proof. intros s. exists []. rewrite app_nil_r. split; [reflexivity | constructor]. Qed.

Lemma emits_log P l m : emits P (Selenium.log l m).
Proof. intros s. exists []. rewrite app_nil_r. split; [reflexivity | constructor]. Qed.

Lemma emits_set_driver P d : emits P (modify (set_driver d)).
Proof. intros s. exists []. rewrite app_nil_r. split; [reflexivity | constructor]. Qed.

Lemma emits_sleep (P : call -> Prop) n : P (Sleep n) -> emits P (Selenium.sleep n).
Proof. intros HP s. exists [Sleep n]. split; [reflexivity | repeat constructor; exact HP]. Qed.

Lemma emits_perform (P : call -> Prop) remote c :
  P c -> emits P (Selenium.perform remote c).
Proof.
  intros HP s. exists [c]. unfold Selenium.perform.
  destruct (rm_fail remote (calls s) c); (split; [reflexivity | repeat constructor; exact HP]).
Qed.

Lemma emits_bind {A B} P (m : Selenium.ST A) (k : A -> Selenium.ST B) :
  emits P m -> (forall a, emits P (k a)) -> emits P (bind m k).
Proof.
  intros Hm Hk s. unfold bind. destruct (Hm s) as (suf & Hs & HP).
  destruct (m s) as [[a | e] s1]; simpl in *; [ | eauto].
  destruct (Hk a s1) as (suf' & Hs' & HP'). exists (suf ++ suf')%list.
  rewrite Hs', Hs, app_assoc. split; [reflexivity | apply Forall_app; auto].
Qed.

Lemma emits_try_except {A} P (m : Selenium.ST A) (k : exc -> Selenium.ST A) :
  emits P m -> (forall e, emits P (k e)) -> emits P (try_except m k).
Proof.
  intros Hm Hk s. unfold try_except. destruct (Hm s) as (suf & Hs & HP).
  destruct (m s) as [[a | e] s1]; simpl in *; [eauto | ].
  destruct (Hk e s1) as (suf' & Hs' & HP'). exists (suf ++ suf')%list.
  rewrite Hs', Hs, app_assoc. split; [reflexivity | apply Forall_app; auto].
Qed.

Lemma emits_try_finally {A} P (m : Selenium.ST A) (fin : Selenium.ST unit) :
  emits P m -> emits P fin -> emits P (try_finally m fin).
Proof.
  intros Hm Hf s. unfold try_finally. destruct (Hm s) as (suf & Hs & HP).
  destruct (m s) as [r s1]; simpl in *.
  destruct (Hf s1) as (suf' & Hs' & HP').
  exists (suf ++ suf')%list.
  destruct (fin s1) as [[[] | e] s2]; simpl in *;
    rewrite Hs', Hs, app_assoc; (split; [reflexivity | apply Forall_app; auto]).
Qed.

Lemma emits_for_each {A} P (xs : list A) (body : A -> Selenium.ST unit) :
  (forall x, emits P (body x)) -> emits P (for_each xs body).
Proof.
  intros Hb. induction xs as [ | x xs IH]; simpl.
  - apply emits_ret.
  - apply emits_bind; auto.
Qed.

Ltac emits_steps :=
  repeat first
    [ apply emits_bind; [ | intros ? ]
    | apply emits_try_except; [ | intros ? ]
    | apply emits_perform; repeat split; reflexivity
    | apply emits_sleep; repeat split; reflexivity
    | apply emits_ret | apply emits_raise | apply emits_get | apply emits_log
    | apply emits_set_driver ].

(** Calls that neither request nor release a browser. *)
Definition plain (c : call) : Prop := is_Chrome c = false /\ is_Quit c = false.

Lemma plain_counts suf :
  Forall plain suf -> acquired suf = 0%nat /\ forall h, released h suf = 0%nat.
Proof.
  induction 1 as [ | c suf [Hc Hq] _ [IHa IHr]]; [split; reflexivity | ].
  split.
  - unfold acquired in *. rewrite filter_cons. rewrite decide_False; [exact IHa | ].
    rewrite Hc. intros [].
  - intros h. unfold released in *. rewrite filter_cons.
    rewrite decide_False; [apply IHr | ]. intros ->. discriminate.
Qed.

Lemma emits_log_results remote d results :
  forall i, emits plain (log_results remote d i results).
Proof.
  induction results as [ | r rs IH]; intros i; simpl.
  - apply emits_ret.
  - emits_steps. apply IH.
Qed.

Lemma emits_act remote a : emits plain (act remote a).
Proof.
  destruct a; simpl; unfold search_daifuku_recipe, take_screenshot;
    (apply emits_bind; [apply emits_get | ]); intros s;
    (destruct (driver s); [ | apply emits_raise]); emits_steps.
  apply emits_log_results.
Qed.

(** What [setup_driver_with_options] adds: at most one browser request
    and no [quit()]; exactly one request when it returns, and the
    browser returned is the one requested. *)
Lemma setup_trace remote s :
  exists suf,
    calls (snd (setup_driver_with_options remote s)) = (calls s ++ suf)%list
    /\ driver (snd (setup_driver_with_options remote s)) = driver s
    /\ (acquired suf <= 1)%nat
    /\ (forall h, released h suf = 0%nat)
    /\ match fst (setup_driver_with_options remote s) with
       | Ret d => d = acquired (calls s) /\ acquired suf = 1%nat
       | Raise _ => True
       end.
Proof.
  run_steps.
  destruct (rm_fail remote (calls s) Install) as [e | ] eqn:H1; simpl.
  { exists [Install]. repeat split; auto. }
  destruct (rm_fail remote (calls s ++ [Install]) (Chrome chrome_arguments))
    as [e | ] eqn:H2; simpl.
  { exists [Install; Chrome chrome_arguments]. rewrite <- !app_assoc.
    repeat split; auto. }
  destruct (rm_fail remote ((calls s ++ [Install]) ++ [Chrome chrome_arguments])
              (ImplicitlyWait (acquired (calls s ++ [Install])) 10))
    as [e | ] eqn:H3; simpl.
  { eexists [Install; Chrome chrome_arguments; ImplicitlyWait _ 10].
    rewrite <- !app_assoc. repeat split; auto. }
  eexists [Install; Chrome chrome_arguments; ImplicitlyWait _ 10].
  rewrite <- !app_assoc. repeat split; auto.
  rewrite acquired_snoc. simpl. lia.
Qed.

Lemma start_unfold remote s :
  start remote s =
  match setup_driver_with_options remote (add_log INFO "ブラウザを起動します" s) with
  | (Ret d, s1) => (Ret tt, set_driver (Some d) s1)
  | (Raise e, s1) => (Raise e, s1)
  end.
Proof.
  unfold start, bind, Selenium.log, modify.
  destruct (setup_driver_with_options remote _) as [[d | e] s1]; reflexivity.
Qed.

Lemma scoped_unfold remote body s :
  scoped remote body s =
  match start remote s with
  | (Ret _, s1) => try_finally (for_each body (act remote)) (stop remote) s1
  | (Raise e, s1) => try_finally (raise e) (stop remote) s1
  end.
Proof.
  unfold scoped, try_finally. unfold bind at 1.
  destruct (start remote s) as [[[] | e] s1]; reflexivity.
Qed.

(** The same for the frame of method 3 on a new session; when the
    frame returns, the browser it requested has received its one
    [quit()]. *)
Lemma scoped_trace remote body s0 :
  driver s0 = None ->
  exists suf,
    calls (snd (scoped remote body s0)) = (calls s0 ++ suf)%list
    /\ (acquired suf <= 1)%nat
    /\ (forall h, released h suf
                  <= (if decide (h = acquired (calls s0)) then acquired suf else 0))%nat
    /\ match fst (scoped remote body s0) with
       | Ret _ => acquired suf = 1%nat
                  /\ released (acquired (calls s0)) suf = 1%nat
       | Raise _ => True
       end.
Proof.
  intros Hd0. rewrite scoped_unfold, start_unfold.
  destruct (setup_trace remote (add_log INFO "ブラウザを起動します" s0))
    as (suf1 & Hs1 & Hd1 & Ha1 & Hr1 & Hret).
  destruct (setup_driver_with_options remote (add_log INFO "ブラウザを起動します" s0))
    as [[d | e] s1]; simpl in Hs1, Hd1, Hret.
  - destruct Hret as [-> Ha]. unfold try_finally.
    match goal with
    | |- context [for_each body (act remote) ?s] => set (s1' := s)
    end.
    assert (calls s1' = calls s1) as Hc1 by reflexivity.
    assert (driver s1' = Some (acquired (calls s0))) as Hd1' by reflexivity.
    clearbody s1'.
    destruct (emits_for_each plain body (act remote) (emits_act remote) s1')
      as (suf2 & Hs2 & HP2).
    destruct (for_each_act_quiet remote body s1') as [Hd2 _].
    destruct (for_each body (act remote) s1') as [r s2]; simpl in Hs2, Hd2.
    rewrite Hd1' in Hd2. rewrite Hc1 in Hs2.
    destruct (plain_counts suf2 HP2) as [Ha2 Hr2].
    rewrite (stop_active remote s2 _ Hd2).
    exists (suf1 ++ suf2 ++ [Quit (acquired (calls s0))])%list.
    assert (acquired (suf1 ++ suf2 ++ [Quit (acquired (calls s0))]) = 1%nat) as Hacq.
    { rewrite !acquired_app, Ha, Ha2. reflexivity. }
    assert (forall h, released h (suf1 ++ suf2 ++ [Quit (acquired (calls s0))])
                      = if decide (h = acquired (calls s0)) then 1%nat else 0%nat) as Hrel.
    { intros h. rewrite !released_app, Hr1, Hr2. simpl.
      unfold released. rewrite filter_cons, filter_nil.
      destruct (decide (h = acquired (calls s0))) as [-> | Hne].
      - rewrite decide_True; reflexivity.
      - rewrite decide_False; [reflexivity | congruence]. }
    assert (calls s2 ++ [Quit (acquired (calls s0))]
            = calls s0 ++ suf1 ++ suf2 ++ [Quit (acquired (calls s0))])%list as Hcs.
    { rewrite Hs2, Hs1. simpl. rewrite <- !app_assoc. reflexivity. }
    destruct (rm_fail remote (calls s2) (Quit (acquired (calls s0)))) as [e | ];
      simpl; (split; [exact Hcs | ]); (split; [lia | ]).
    + split; [ | exact I]. intros h. rewrite Hrel, Hacq. reflexivity.
    + split.
      * intros h. rewrite Hrel, Hacq. reflexivity.
      * destruct r; [ | exact I]. split; [exact Hacq | ].
        rewrite Hrel, decide_True; reflexivity.
  - unfold try_finally, raise. rewrite stop_inactive by congruence.
    exists suf1. simpl. split; [exact Hs1 | ]. split; [exact Ha1 | ].
    split; [ | exact I]. intros h. rewrite Hr1. lia.
Qed.

Lemma main_method3_trace remote s :
  exists suf,
    calls (snd (main_method3 remote s)) = (calls s ++ suf)%list
    /\ (acquired suf <= 1)%nat
    /\ (forall h, released h suf
                  <= (if decide (h = acquired (calls s)) then acquired suf else 0))%nat
    /\ match fst (main_method3 remote s) with
       | Ret _ => acquired suf = 1%nat
                  /\ released (acquired (calls s)) suf = 1%nat
       | Raise _ => True
       end.
Proof.
  unfold main_method3. apply (scoped_trace remote _ (WebAutomation_init s)).
  reflexivity.
Qed.

(** *** Steps of [main] that neither request nor release a browser *)

Lemma history_app p suf :
  history p (basics (requests p) ++ suf) = (requests p ++ map Basic suf)%list.
Proof. unfold history. rewrite drop_app_length. reflexivity. Qed.

Lemma opened_history rs suf :
  requested (rs ++ map Basic suf) = (requested rs + acquired suf)%nat.
Proof. unfold requested. rewrite basics_app, basics_Basic, acquired_app. reflexivity. Qed.

Lemma quits_history h rs suf :
  quits h (rs ++ map Basic suf) = (quits h rs + released h suf)%nat.
Proof.
  rewrite !quits_released, basics_app, basics_Basic, released_app. reflexivity.
Qed.

Definition steady {A} (m : Main A) : Prop :=
  forall p, automation (snd (m p)) = automation p
            /\ requested (requests (snd (m p))) = requested (requests p)
            /\ forall h, quits h (requests (snd (m p))) = quits h (requests p).

Definition harmless (r : request) : Prop :=
  match r with
  | Basic c => plain c
  | _ => True
  end.

Lemma harmless_snoc rs r :
  harmless r ->
  requested (rs ++ [r]) = requested rs /\ forall h, quits h (rs ++ [r]) = quits h rs.
Proof.
  intros Hr. split.
  - rewrite opened_snoc. destruct r as [[] | | | ]; try lia.
    destruct Hr as [Hc _]. discriminate Hc.
  - intros h. rewrite quits_snoc. rewrite decide_False; [lia | ].
    intros ->. destruct Hr as [_ Hq]. discriminate Hq.
Qed.

Lemma steady_ret {A} (a : A) : steady (ret a).
Proof. intros p. repeat split. Qed.

Lemma steady_raise {A} e : steady (@raise process A e).
Proof. intros p. repeat split. Qed.

Lemma steady_log l m : steady (log_record l m).
Proof. intros p. repeat split. Qed.

Lemma steady_print m : steady (print_line m).
Proof. intros p. repeat split. Qed.

Lemma steady_sleep n : steady (pause n).
Proof.
  intros p. unfold pause, modify. simpl.
  destruct (harmless_snoc (requests p) (Basic (Sleep n))) as [Ho Hq];
    [split; reflexivity | ].
  split; [reflexivity | ]. split; [exact Ho | exact Hq].
Qed.

Lemma steady_perform browser r : harmless r -> steady (send browser r).
Proof.
  intros Hr p. unfold send.
  destruct (harmless_snoc (requests p) r Hr) as [Ho Hq].
  destruct (br_fail browser (requests p) r); simpl;
    (split; [reflexivity | ]; split; [exact Ho | exact Hq]).
Qed.

Lemma steady_bind {A B} (m : Main A) (k : A -> Main B) :
  steady m -> (forall a, steady (k a)) -> steady (bind m k).
Proof.
  intros Hm Hk p. unfold bind. specialize (Hm p).
  destruct (m p) as [[a | e] p1]; simpl in *; [ | exact Hm].
  destruct Hm as (Ha & Ho & Hq). destruct (Hk a p1) as (Ha' & Ho' & Hq').
  split; [congruence | ]. split; [congruence | ].
  intros h. rewrite Hq', Hq. reflexivity.
Qed.

Lemma steady_try_except {A} (m : Main A) (k : exc -> Main A) :
  steady m -> (forall e, steady (k e)) -> steady (try_except m k).
Proof.
  intros Hm Hk p. unfold try_except. specialize (Hm p).
  destruct (m p) as [[a | e] p1]; simpl in *; [exact Hm | ].
  destruct Hm as (Ha & Ho & Hq). destruct (Hk e p1) as (Ha' & Ho' & Hq').
  split; [congruence | ]. split; [congruence | ].
  intros h. rewrite Hq', Hq. reflexivity.
Qed.

(** Code of the session class that is quiet and adds plain calls only
    is steady when run inside [main]. *)
Lemma steady_run_session browser {A} (m : Remote -> Selenium.ST A) :
  (forall remote, quiet (m remote)) ->
  (forall remote, emits plain (m remote)) ->
  steady (run_session browser m).
Proof.
  intros Hquiet Hemits p. unfold run_session.
  destruct (Hquiet (remote_of browser p) (session_state p)) as [Hd _].
  destruct (Hemits (remote_of browser p) (session_state p)) as (suf & Hs & HP).
  destruct (m (remote_of browser p) (session_state p)) as [r s]; simpl in *.
  destruct (plain_counts suf HP) as [Ha Hr].
  rewrite Hs, history_app.
  split; [exact Hd | ]. split.
  - rewrite opened_history, Ha. lia.
  - intros h. rewrite quits_history, Hr. lia.
Qed.

Ltac steady_steps :=
  repeat first
    [ apply steady_bind; [ | intros ? ]
    | apply steady_try_except; [ | intros ? ]
    | apply steady_perform; repeat split; reflexivity
    | apply steady_sleep | apply steady_log | apply steady_print
    | apply steady_ret | apply steady_raise ].

Lemma steady_example_google_search browser d :
  steady (example_google_search browser d).
Proof.
  unfold example_google_search. steady_steps.
  apply steady_run_session; intros remote.
  - apply quiet_log_results.
  - apply emits_log_results.
Qed.

Lemma steady_example_wait_for_element browser d :
  steady (example_wait_for_element browser d).
Proof. unfold example_wait_for_element. steady_steps. Qed.

(** *** Browsers requested and released by a part of [main] *)

(** [within n k h] is 1 when [h] is one of the [k] browsers requested
    from number [n] on. *)
Definition within (n k h : nat) : nat :=
  if decide (n <= h < n + k)%nat then 1%nat else 0%nat.

Lemma within_add n k1 k2 h :
  (within n k1 h + within (n + k1) k2 h = within n (k1 + k2) h)%nat.
Proof. unfold within. repeat destruct (decide _); lia. Qed.

Lemma within_mono n k k' h : (k <= k')%nat -> (within n k h <= within n k' h)%nat.
Proof. unfold within. intros Hk. repeat destruct (decide _); lia. Qed.

Lemma within_0 n h : within n 0 h = 0%nat.
Proof. unfold within. destruct (decide _); lia. Qed.

Lemma within_1 n h : within n 1 h = if decide (h = n) then 1%nat else 0%nat.
Proof. unfold within. repeat destruct (decide _); lia. Qed.

(** A part of [main] is tidy for [k] browsers when it requests at most
    [k], sends [quit()] to requested browsers only and to each at most
    once, and, when it returns, has requested [k] and sent each of them
    exactly one [quit()]. *)
Definition tidy {A} (k : nat) (m : Main A) : Prop :=
  forall p,
    let n := requested (requests p) in
    let p' := snd (m p) in
    (n <= requested (requests p') <= n + k)%nat
    /\ (forall h, (quits h (requests p) <= quits h (requests p')
                   <= quits h (requests p)
                      + within n (requested (requests p') - n) h)%nat)
    /\ (is_raise (fst (m p)) = false ->
        requested (requests p') = (n + k)%nat
        /\ forall h, quits h (requests p') = (quits h (requests p) + within n k h)%nat).

Lemma tidy_steady {A} (m : Main A) : steady m -> tidy 0 m.
Proof.
  intros Hm p. destruct (Hm p) as (_ & Ho & Hq). cbv zeta.
  rewrite Ho. split; [lia | ]. split.
  - intros h. rewrite Hq. lia.
  - intros _. split; [lia | ]. intros h. rewrite Hq, within_0. lia.
Qed.

Lemma tidy_bind {A B} k1 k2 (m : Main A) (f : A -> Main B) :
  tidy k1 m -> (forall a, tidy k2 (f a)) -> tidy (k1 + k2) (bind m f).
Proof.
  intros Hm Hf p. specialize (Hm p). cbv zeta in *. unfold bind.
  destruct (m p) as [[a | e] p1]; simpl in *.
  - destruct Hm as (_ & _ & Hret). destruct (Hret eq_refl) as [Ho1 Hq1].
    specialize (Hf a p1). cbv zeta in Hf.
    destruct Hf as (Ho2 & Hq2 & Hret2). rewrite Ho1 in Ho2, Hq2, Hret2.
    split; [lia | ]. split.
    + intros h. specialize (Hq2 h). rewrite Hq1 in Hq2.
      pose proof (within_add (requested (requests p)) k1
                    (requested (requests (snd (f a p1))) - (requested (requests p) + k1)) h)
        as Hadd.
      replace (k1 + (requested (requests (snd (f a p1))) - (requested (requests p) + k1)))%nat
        with (requested (requests (snd (f a p1))) - requested (requests p))%nat in Hadd by lia.
      lia.
    + intros Hr. destruct (Hret2 Hr) as [Ho3 Hq3]. split; [lia | ].
      intros h. rewrite Hq3, Hq1, <- within_add. lia.
  - destruct Hm as (Ho & Hq & _). split; [lia | ]. split; [exact Hq | ].
    discriminate.
Qed.

(** A set-up function provisions when it requests at most one browser
    and releases none, and a browser it returns is the one it has
    requested. *)
Definition provisions (setup : Main handle) : Prop :=
  forall p,
    (forall h, quits h (requests (snd (setup p))) = quits h (requests p))
    /\ match fst (setup p) with
       | Ret d => d = requested (requests p)
                  /\ requested (requests (snd (setup p))) = S (requested (requests p))
       | Raise _ => (requested (requests p) <= requested (requests (snd (setup p)))
                     <= S (requested (requests p)))%nat
       end.

(** A frame releases [h] when it requests no browser and sends one
    [quit()], to [h]. *)
Definition releases (h : handle) (frame : Main unit) : Prop :=
  forall p,
    requested (requests (snd (frame p))) = requested (requests p)
    /\ forall h', quits h' (requests (snd (frame p)))
                  = (quits h' (requests p) + (if decide (h' = h) then 1 else 0))%nat.

Lemma tidy_provisions_releases (setup : Main handle) (frame : handle -> Main unit) :
  provisions setup -> (forall h, releases h (frame h)) ->
  tidy 1 (bind setup frame).
Proof.
  intros Hs Hf p. specialize (Hs p). cbv zeta. unfold bind.
  destruct (setup p) as [[d | e] p1]; simpl in *.
  - destruct Hs as (Hq & -> & Ho). destruct (Hf (requested (requests p)) p1) as [Ho' Hq'].
    rewrite Ho', Ho.
    replace (S (requested (requests p)) - requested (requests p))%nat with 1%nat by lia.
    split; [lia | ]. split.
    + intros h. rewrite Hq', Hq, within_1. destruct (decide _); lia.
    + intros _. split; [lia | ]. intros h. rewrite Hq', Hq, within_1. reflexivity.
  - destruct Hs as (Hq & Ho). split; [lia | ]. split.
    + intros h. rewrite Hq. lia.
    + discriminate.
Qed.

Lemma quit_browser_releases browser h : releases h (quit_browser browser h).
Proof.
  intros p. unfold quit_browser, bind, log_record, modify, send, ret. simpl.
  assert (requested (requests p ++ [Basic (Quit h)]) = requested (requests p)) as Ho.
  { rewrite opened_snoc. lia. }
  assert (forall h', quits h' (requests p ++ [Basic (Quit h)])
                     = (quits h' (requests p) + (if decide (h' = h) then 1 else 0))%nat)
    as Hq.
  { intros h'. rewrite quits_snoc. f_equal.
    destruct (decide (h' = h)) as [-> | Hne].
    - rewrite decide_True; reflexivity.
    - rewrite decide_False; [reflexivity | congruence]. }
  destruct (br_fail browser (requests p) (Basic (Quit h))); simpl; split; auto.
Qed.

Lemma try_finally_releases browser h (body : Main unit) :
  steady body -> releases h (try_finally body (quit_browser browser h)).
Proof.
  intros Hb p. unfold try_finally. destruct (Hb p) as (_ & Ho & Hq).
  destruct (body p) as [r p1]; simpl in *.
  destruct (quit_browser_releases browser h p1) as [Ho' Hq'].
  destruct (quit_browser browser h p1) as [[[] | e] p2]; simpl in *;
    (split; [congruence | ]); intros h'; rewrite Hq', Hq; reflexivity.
Qed.

Lemma frame1_releases browser h : releases h (frame1 browser h).
Proof.
  unfold frame1. apply (try_finally_releases browser).
  apply steady_bind; [apply steady_example_google_search | intros _].
  steady_steps.
Qed.

Lemma frame2_releases browser h : releases h (frame2 browser h).
Proof.
  unfold frame2. apply (try_finally_releases browser).
  apply steady_example_wait_for_element.
Qed.

Lemma setup_driver_provisions browser : provisions (setup_driver browser).
Proof.
  intros p. unfold setup_driver, try_except, bind, log_record, modify, send, ret, raise.
  simpl.
  destruct (br_fail browser (requests p) (Basic Install)) as [e | ]; simpl.
  { split; [intros h; rewrite quits_snoc, decide_False by discriminate; lia | ].
    rewrite opened_snoc. lia. }
  destruct (br_fail browser (requests p ++ [Basic Install]) (Basic (Chrome [])))
    as [e | ]; simpl.
  { split; [intros h; rewrite !quits_snoc, !decide_False by discriminate; lia | ].
    rewrite !opened_snoc. lia. }
  destruct (br_fail browser ((requests p ++ [Basic Install]) ++ [Basic (Chrome [])])
              (MaximizeWindow (requested (requests p ++ [Basic Install])))) as [e | ]; simpl.
  { split; [intros h; rewrite !quits_snoc, !decide_False by discriminate; lia | ].
    rewrite !opened_snoc. lia. }
  split; [intros h; rewrite !quits_snoc, !decide_False by discriminate; lia | ].
  rewrite !opened_snoc. simpl. split; lia.
Qed.

Lemma setup_driver_with_options_provisions browser :
  provisions (run_session browser setup_driver_with_options).
Proof.
  intros p. unfold run_session.
  destruct (setup_trace (remote_of browser p) (session_state p))
    as (suf & Hs & _ & Ha & Hr & Hret).
  destruct (setup_driver_with_options (remote_of browser p) (session_state p))
    as [r s]; simpl in *.
  rewrite Hs, history_app. split.
  - intros h. rewrite quits_history, Hr. lia.
  - rewrite opened_history. destruct r as [d | e].
    + destruct Hret as [-> Ha1]. split; [reflexivity | lia].
    + lia.
Qed.

Lemma method1_tidy browser : tidy 1 (method1 browser).
Proof.
  unfold method1. apply (tidy_bind 0 1); [apply tidy_steady, steady_print | ].
  intros _. apply tidy_provisions_releases.
  - apply setup_driver_provisions.
  - apply frame1_releases.
Qed.

Lemma method2_tidy browser : tidy 1 (method2 browser).
Proof.
  unfold method2. apply (tidy_bind 0 1); [apply tidy_steady, steady_print | ].
  intros _. apply tidy_provisions_releases.
  - apply setup_driver_with_options_provisions.
  - apply frame2_releases.
Qed.

Lemma method3_tidy browser : tidy 1 (method3 browser).
Proof.
  unfold method3. apply (tidy_bind 0 1); [apply tidy_steady, steady_print | ].
  intros _ p. cbv zeta. unfold run_session.
  destruct (main_method3_trace (remote_of browser p) (session_state p))
    as (suf & Hs & Ha & Hr & Hret).
  destruct (main_method3 (remote_of browser p) (session_state p)) as [r s];
    simpl in *.
  rewrite Hs, history_app, opened_history.
  replace (requested (requests p) + acquired suf - requested (requests p))%nat
    with (acquired suf) by lia.
  assert (forall h, (released h suf <= within (requested (requests p)) (acquired suf) h)%nat)
    as Hle.
  { intros h. specialize (Hr h). unfold within, requested.
    destruct (decide (h = acquired (basics (requests p)))) as [-> | Hne];
      destruct (decide _); lia. }
  split; [lia | ]. split.
  - intros h. rewrite quits_history. specialize (Hle h). lia.
  - intros Hok. destruct r as [[] | e]; [ | discriminate].
    destruct Hret as [Ha1 Hr1]. split; [lia | ]. intros h.
    rewrite quits_history. f_equal. rewrite within_1.
    destruct (decide (h = requested (requests p))) as [-> | Hne].
    + rewrite decide_True by reflexivity. exact Hr1.
    + rewrite decide_False by exact Hne. specialize (Hr h).
      rewrite decide_False in Hr by exact Hne. lia.
Qed.

Lemma main_tidy browser : tidy 3 (main browser).
Proof.
  unfold main.
  apply (tidy_bind 0 3); [apply tidy_steady, steady_print | intros _].
  apply (tidy_bind 0 3); [apply tidy_steady, steady_print | intros _].
  apply (tidy_bind 0 3); [apply tidy_steady, steady_print | intros _].
  apply (tidy_bind 1 2); [apply method1_tidy | intros _].
  apply (tidy_bind 0 2); [apply tidy_steady, steady_sleep | intros _].
  apply (tidy_bind 1 1); [apply method2_tidy | intros _].
  apply (tidy_bind 0 1); [apply tidy_steady, steady_sleep | intros _].
  apply (tidy_bind 1 0); [apply method3_tidy | intros _].
  apply tidy_steady. steady_steps.
Qed.

(** *** Concrete browsers *)

(** Collaborators used as inputs: one that never fails and finds two
    results, one whose [maximize_window()] raises, one whose explicit
    wait times out. *)
Definition dependable : Browser :=
  {| br_fail := fun _ _ => None;
     br_element := fun _ => e0;
     br_elements := fun _ => [1%nat; 2%nat];
     br_text := fun _ _ => "大福";
     br_title := fun _ => "Python Selenium - Google 検索" |}.



(** *** The whole of [main] *)

(** [main] sends [quit()] only to browsers it has requested itself, and
    to none of them twice, whichever step raises; it requests at most
    three.  When [main] returns, it has requested exactly three
    browsers and each of them has received exactly one [quit()]. *)
Theorem main_quits_each_browser_once browser (p : process) :
  let n := requested (requests p) in
  let p' := snd (main browser p) in
  (n <= requested (requests p') <= n + 3)%nat
  /\ (forall h, (quits h (requests p) <= quits h (requests p')
                 <= quits h (requests p) + 1)%nat)
  /\ (forall h, (h < n \/ requested (requests p') <= h)%nat ->
        quits h (requests p') = quits h (requests p))
  /\ (fst (main browser p) = Ret tt ->
      requested (requests p') = (n + 3)%nat
      /\ forall h, (n <= h < n + 3)%nat ->
           quits h (requests p') = S (quits h (requests p))).
Proof.
  destruct (main_tidy browser p) as (Ho & Hq & Hret). cbv zeta in *.
  split; [exact Ho | ]. split; [ | split].
  - intros h. specialize (Hq h). unfold within in Hq. destruct (decide _); lia.
  - intros h Hh. specialize (Hq h). unfold within in Hq.
    destruct (decide _); lia.
  - intros Hok. rewrite Hok in Hret. destruct (Hret eq_refl) as [Ho3 Hq3].
    split; [exact Ho3 | ]. intros h Hh. rewrite Hq3. unfold within.
    rewrite decide_True by exact Hh. lia.
Qed.

Lemma main_quits_each_browser_once_witness :
  fst (main dependable init) = Ret tt
  /\ requested (requests (snd (main dependable init))) = 3%nat
  /\ quits 0%nat (requests (snd (main dependable init))) = 1%nat
  /\ quits 1%nat (requests (snd (main dependable init))) = 1%nat
  /\ quits 2%nat (requests (snd (main dependable init))) = 1%nat.
Proof.
  assert (fst (main dependable init) = Ret tt) as Hok by reflexivity.
  destruct (main_quits_each_browser_once dependable init) as (_ & _ & _ & Hret).
  destruct (Hret Hok) as [Ho Hq].
  split; [exact Hok | ]. split; [exact Ho | ].
  split; [apply (Hq 0%nat); vm_compute; lia | ].
  split; [apply (Hq 1%nat); vm_compute; lia | apply (Hq 2%nat); vm_compute; lia].
Defined.

(** The frames that [main] puts around the two functional examples
    ([try: example / finally: driver.quit()]) send exactly one [quit()]
    to the browser they are given and none to any other, request no
    browser, and do so whether the example returns or raises and
    whether [quit()] itself returns or raises. *)
Theorem example_frames_quit_exactly_once browser (h : handle) (p : process) :
  (requested (requests (snd (frame1 browser h p))) = requested (requests p)
   /\ forall h', quits h' (requests (snd (frame1 browser h p)))
                 = (quits h' (requests p) + (if decide (h' = h) then 1 else 0))%nat)
  /\ (requested (requests (snd (frame2 browser h p))) = requested (requests p)
      /\ forall h', quits h' (requests (snd (frame2 browser h p)))
                    = (quits h' (requests p) + (if decide (h' = h) then 1 else 0))%nat).
Proof.
  split; [apply frame1_releases | apply frame2_releases].
Qed.

(** *** Failures of the functional examples *)




(** *** The browser leak of [setup_driver] *)



End SeleniumMainFacts.

(* ===================================================================== *)
(** ** python_debug_logging.py: the first and the third example          *)
(* ===================================================================== *)

Module LoggingExamples.
Import Py Py.Notations Logging.

(** *** basic_logging_example *)

(** [logging.BASIC_FORMAT]. *)
Definition BASIC_FORMAT : string := "%(levelname)s:%(name)s:%(message)s".

(** [logging.basicConfig(level=..., format=...)]: it configures the
    root logger only when the root logger has no handler; then it adds
    a handler on [sys.stderr] with the format and sets the level. *)
Definition basicConfig (level : option Level) (format_ : option string) : ST unit :=
  w <- get ;;
  if (length (lg_handlers (lookup_logger root w)) =? 0)%nat then
    let h := StreamHandler stderr in
    let f := {| fmt := default BASIC_FORMAT format_; datefmt := None |} in
    addHandler root (Handler_setFormatter f h) ;;
    match level with
    | Some l => Logger_setLevel root l
    | None => ret tt
    end
  else ret tt.

(** [logging.debug(msg)] ... [logging.critical(msg)], the functions of
    the module: [if len(root.handlers) == 0: basicConfig()], then the
    method of the root logger. *)
Definition logging_log (l : Level) (message : string) (caller : string * Z) : ST unit :=
  w <- get ;;
  (if (length (lg_handlers (lookup_logger root w)) =? 0)%nat
   then basicConfig None None else ret tt) ;;
  Logger_log root l message false caller.

Definition basic_format : string :=
  "%(asctime)s - %(name)s - %(levelname)s - %(message)s".

(** [basic_logging_example()]. *)
Definition basic_logging_example : ST unit :=
  print (nl +:+ banner) ;;
  print "基本的なロギング" ;;
  print banner ;;
  basicConfig (Some DEBUG) (Some basic_format) ;;
  logging_log DEBUG "デバッグ情報（開発時のみ）" ("basic_logging_example", 58) ;;
  logging_log INFO "一般的な情報" ("basic_logging_example", 59) ;;
  logging_log WARNING "警告メッセージ" ("basic_logging_example", 60) ;;
  logging_log ERROR "エラーが発生" ("basic_logging_example", 61) ;;
  logging_log CRITICAL "致命的なエラー" ("basic_logging_example", 62).

(** *** error_handling_with_logging *)

Definition set_exc (t : option string) (w : World) : World :=
  {| w_loggers := w_loggers w; w_fs := w_fs w; w_stdout := w_stdout w;
     w_stderr := w_stderr w; w_now := w_now w; w_exc := t; w_os := w_os w;
     w_handled := w_handled w |}.

(** A statement of an [except] suite that handles [e]:
    [sys.exc_info()] is [e] while it runs. *)
Definition excepting {A} (e : exc) (m : ST A) : ST A :=
  fun w =>
    let (r, w') := m (set_exc (Some (Shop.traceback e)) w) in
    (r, set_exc (w_exc w) w').

(** A call [logger.critical(message, k=...)] with keyword arguments
    [kwargs]: [AppLogger.critical] has the parameters [self] and
    [message] and no [**kwargs], so Python rejects a keyword before the
    body runs. *)
Definition call_critical (self : AppLogger) (message : string)
           (kwargs : list string) : ST unit :=
  match kwargs with
  | [] => AppLogger_critical self message
  | k :: _ =>
      raise (Exc "TypeError"
               ("AppLogger.critical() got an unexpected keyword argument '"
                +:+ k +:+ "'"))
  end.

Section WithArithmetic.

(** The numbers passed to [divide], with [str(x)], the literal of an
    integer and [a / b], which returns the quotient or raises. *)
Variable number : Type.
Variable str : number -> string.
Variable of_int : Z -> number.
Variable truediv : number -> number -> outcome number.

(** The inner function [divide(a, b)], closed over [logger]; [None] is
    the result of the [return None] of the first handler. *)
Definition divide (logger : AppLogger) (a b : number) : ST (option number) :=
  try_except
    (AppLogger_debug logger ("計算開始: " +:+ str a +:+ " ÷ " +:+ str b) ;;
     result <- (fun w => (truediv a b, w)) ;;
     AppLogger_info logger
       ("計算成功: " +:+ str a +:+ " ÷ " +:+ str b +:+ " = " +:+ str result) ;;
     ret (Some result))
    (fun e =>
       if String.eqb (exc_class e) "ZeroDivisionError" then
         excepting e
           (AppLogger_error logger
              ("ゼロ除算エラー: " +:+ str a +:+ " ÷ " +:+ str b) true) ;;
         ret None
       else
         excepting e
           (call_critical logger ("予期しないエラー: " +:+ exc_str e) ["exc_info"]) ;;
         raise e).

(** [error_handling_with_logging()]. *)
Definition error_handling_with_logging : ST unit :=
  print (nl +:+ banner) ;;
  print "エラー処理＋ロギング" ;;
  print banner ;;
  logger <- AppLogger_init "ErrorDemo" false ;;
  divide logger (of_int 10) (of_int 2) ;;
  divide logger (of_int 10) (of_int 0) ;;
  ret tt.

End WithArithmetic.

End LoggingExamples.

Module LoggingExamplesFacts.
Import Py Py.Notations Logging LoggingFacts LoggingExamples.

#[local] Arguments strftime : simpl never.
#[local] Arguments String.append : simpl never.

(** *** Sequencing *)


Lemma bind_Raise {S A B} (m : M S A) (k : A -> M S B) s e s1 :
  m s = (Raise e, s1) -> bind m k s = (Raise e, s1).
Proof. intros H. unfold bind. rewrite H. reflexivity. Qed.

(** A statement that returns and leaves the registry of loggers, the
    files' directory structure aside, as it was. *)
Definition reports {A} (m : ST A) : Prop :=
  forall w, exists a, fst (m w) = Ret a /\ same_setting w (snd (m w)).

Lemma reports_print s : reports (print s).
Proof. intros w. exists tt. split; [reflexivity | repeat split]. Qed.

Lemma reports_Logger_log key l message exc_info caller :
  reports (Logger_log key l message exc_info caller).
Proof.
  intros w. exists tt.
  destruct (Logger_log_returns key l message exc_info caller w) as [Hr Ho].
  split; [exact Hr | ].
  destruct (getEffectiveLevel key w <=? levelno l)%Z.
  - apply Ho.
  - rewrite Ho. apply same_setting_refl.
Qed.

Lemma reports_bind {A B} (m : ST A) (k : A -> ST B) :
  reports m -> (forall a, reports (k a)) -> reports (bind m k).
Proof.
  intros Hm Hk w. destruct (Hm w) as (a & Hr & Hs). unfold bind.
  destruct (m w) as [o w1]; simpl in *. subst o.
  destruct (Hk a w1) as (b & Hr' & Hs'). exists b.
  split; [exact Hr' | eapply same_setting_trans; eassumption].
Qed.

Lemma reports_ret {A} (a : A) : reports (ret a).
Proof. intros w. exists a. split; [reflexivity | apply same_setting_refl]. Qed.

(** *** AppLogger without a file *)

(** [AppLogger(name, log_to_file=False)] cannot fail and touches
    neither the file system nor the streams: it returns, and all it
    changes is the registry entry of its logger, which gets level DEBUG
    and the console sink as its only handler. *)
Theorem console_only_construction_never_fails (name : string) (w : World) :
  let w' := snd (AppLogger_init name false w) in
  fst (AppLogger_init name false w) = Ret {| logger := logger_key name |}
  /\ w_fs w' = w_fs w /\ w_stdout w' = w_stdout w /\ w_stderr w' = w_stderr w
  /\ w_loggers w' =
     <[logger_key name := {| lg_level := levelno DEBUG;
                             lg_handlers := [console_sink] |}]> (w_loggers w).
Proof.
  cbv zeta. rewrite AppLogger_init_eq.
  pose proof (with_console_loggers name w) as Hl.
  destruct (with_console_rest name w) as (Hfs & _ & _ & _ & _ & Hout & Herr).
  unfold bind, ret. simpl. repeat split; assumption.
Qed.

(** *** AppLogger with a file: when construction fails *)





(** *** file_logging_example, called again *)

(** The sinks that [file_logging_example] builds when the clock shows
    [t]. *)
Definition example_log_file (t : datetime) : path :=
  path_div ["logs"] ("app_" +:+ strftime "%Y%m%d_%H%M%S" t +:+ ".log").

Definition example_file_sink (t : datetime) : Handler :=
  Handler_setFormatter example_format
    (Handler_setLevel DEBUG
       {| h_target := File (example_log_file t) "utf-8"; h_level := NOTSET;
          h_formatter := None |}).

Definition example_console_sink : Handler :=
  Handler_setFormatter example_format (Handler_setLevel INFO (StreamHandler stderr)).

(** The statements of [file_logging_example] after the two
    [addHandler] calls. *)
Definition example_tail (lg : string) (log_file : path) : ST string :=
  Logger_log lg DEBUG "これはデバッグログ（ファイルのみ）" false ("file_logging_example", 108) ;;
  Logger_log lg INFO "これは情報ログ（ファイル＋コンソール）" false ("file_logging_example", 109) ;;
  Logger_log lg WARNING "これは警告ログ" false ("file_logging_example", 110) ;;
  Logger_log lg ERROR "これはエラーログ" false ("file_logging_example", 111) ;;
  print (nl +:+ "ログファイル保存先: " +:+ String.concat "/" log_file) ;;
  ret lg.

Lemma example_tail_reports lg log_file w :
  fst (example_tail lg log_file w) = Ret lg
  /\ same_setting w (snd (example_tail lg log_file w)).
Proof.
  assert (forall k : unit -> ST string,
            (forall u w0, fst (k u w0) = Ret lg /\ same_setting w0 (snd (k u w0))) ->
            forall (m : ST unit), reports m ->
            forall w0, fst (bind m k w0) = Ret lg
                       /\ same_setting w0 (snd (bind m k w0))) as Step.
  { intros k Hk m Hm w0. destruct (Hm w0) as (a & Hr & Hs). unfold bind.
    destruct (m w0) as [o w1]; simpl in *. subst o.
    destruct (Hk a w1) as [Hr' Hl']. split; [exact Hr' | ].
    eapply same_setting_trans; eassumption. }
  unfold example_tail.
  apply Step; [intros _ w0 | apply reports_Logger_log].
  apply Step; [intros _ w1 | apply reports_Logger_log].
  apply Step; [intros _ w2 | apply reports_Logger_log].
  apply Step; [intros _ w3 | apply reports_Logger_log].
  apply Step; [intros _ w4 | apply reports_print].
  split; [reflexivity | apply same_setting_refl].
Qed.

Lemma file_logging_example_handlers (module : string) (w w' : World) (lg : string) :
  file_logging_example module w = (Ret lg, w') ->
  lg = logger_key module
  /\ w_now w' = w_now w
  /\ lg_level (lookup_logger lg w') = levelno DEBUG
  /\ lg_handlers (lookup_logger lg w') =
     (lg_handlers (lookup_logger lg w)
      ++ [example_file_sink (w_now w); example_console_sink])%list.
Proof.
  unfold file_logging_example.
  unfold bind at 1. unfold print at 1, modify at 1.
  unfold bind at 1. unfold print at 1, modify at 1.
  unfold bind at 1. unfold print at 1, modify at 1.
  match goal with
  | |- context [bind (mkdir_exist_ok _) _ ?w0] => set (w0' := w0)
  end.
  assert (w_loggers w0' = w_loggers w) as Hl0 by reflexivity.
  assert (w_now w0' = w_now w) as Hn0 by reflexivity.
  clearbody w0'.
  unfold bind at 1.
  pose proof (mkdir_exist_ok_spec ["logs"] w0') as Hm.
  destruct (mkdir_exist_ok ["logs"] w0') as [[[] | e] w1]; [ | discriminate].
  destruct Hm as (_ & _ & Hl1 & Hn1 & _).
  unfold bind at 1. unfold get at 1.
  unfold bind at 1. unfold getLogger at 1, bind at 1, modify at 1, ret at 1.
  fold (logger_key module).
  unfold bind at 1. unfold Logger_setLevel at 1, update_logger at 1, modify at 1.
  match goal with
  | |- context [bind (FileHandler ?p _) _ ?w0] => set (w3 := w0); set (log_file := p)
  end.
  assert (w_loggers w3 =
          <[logger_key module :=
              {| lg_level := levelno DEBUG;
                 lg_handlers := lg_handlers (find_logger (logger_key module)
                                               (w_loggers w)) |}]> (w_loggers w)) as Hl3.
  { subst w3. simpl. rewrite find_logger_insert, insert_insert_eq, Hl1, Hl0.
    reflexivity. }
  assert (w_now w3 = w_now w) as Hn3 by (subst w3; simpl; congruence).
  assert (log_file = example_log_file (w_now w)) as Hfile
    by (subst log_file; unfold example_log_file; rewrite Hn1, Hn0; reflexivity).
  clearbody w3 log_file. subst log_file.
  unfold bind at 1.
  pose proof (FileHandler_spec (example_log_file (w_now w)) "utf-8" w3) as Hf.
  destruct (FileHandler (example_log_file (w_now w)) "utf-8" w3) as [[fh | e] w4];
    [ | discriminate].
  destruct Hf as (-> & _ & _ & Hl4 & Hn4 & _).
  unfold bind at 1. unfold addHandler at 1, update_logger at 1, modify at 1.
  unfold bind at 1. unfold addHandler at 1, update_logger at 1, modify at 1.
  match goal with
  | |- context [bind (Logger_log _ DEBUG _ _ _) _ ?w0] => set (w6 := w0)
  end.
  assert (w_loggers w6 =
          <[logger_key module :=
              {| lg_level := levelno DEBUG;
                 lg_handlers := (lg_handlers (find_logger (logger_key module)
                                                (w_loggers w))
                                 ++ [example_file_sink (w_now w);
                                     example_console_sink])%list |}]> (w_loggers w))
    as Hl6.
  { subst w6. simpl. rewrite !find_logger_insert. simpl.
    rewrite !insert_insert_eq, Hl4, Hl3, find_logger_insert, insert_insert_eq.
    simpl. rewrite <- app_assoc. reflexivity. }
  assert (w_now w6 = w_now w) as Hn6 by (subst w6; simpl; congruence).
  clearbody w6.
  intros H.
  destruct (example_tail_reports (logger_key module) (example_log_file (w_now w)) w6)
    as [Hr (Hl & Hnow & _)].
  unfold example_tail in Hr, Hl, Hnow. rewrite H in Hr, Hl, Hnow.
  simpl in Hr, Hl, Hnow. injection Hr as Hlg. subst lg.
  split; [reflexivity | ]. split; [congruence | ].
  unfold lookup_logger. rewrite Hl, Hl6, find_logger_insert. simpl.
  split; reflexivity.
Qed.

(** [file_logging_example()] called once at each clock reading of
    [times], one call after the other. *)
Fixpoint repeat_example (module : string) (times : list datetime) : ST unit :=
  match times with
  | [] => ret tt
  | t :: rest =>
      modify (set_now t) ;;
      file_logging_example module ;;
      repeat_example module rest
  end.

(** [file_logging_example] never clears the handlers of its logger:
    every call that returns appends a new file sink and a new console
    sink to those already there.  After [n] calls the logger has [n]
    console sinks more than before, so each record of level INFO or
    above is written to the console once per call made so far. *)
Theorem file_logging_example_accumulates_handlers
        (module : string) (times : list datetime) (w w' : World) :
  repeat_example module times w = (Ret tt, w') ->
  lg_handlers (lookup_logger (logger_key module) w') =
  (lg_handlers (lookup_logger (logger_key module) w)
   ++ flat_map (fun t => [example_file_sink t; example_console_sink]) times)%list.
Proof.
  revert w. induction times as [ | t rest IH]; intros w; simpl.
  - intros [= <-]. rewrite app_nil_r. reflexivity.
  - unfold bind at 1. unfold modify at 1. unfold bind at 1.
    destruct (file_logging_example module (set_now t w)) as [[lg | e] w1] eqn:Hcall;
      [ | discriminate].
    apply file_logging_example_handlers in Hcall.
    destruct Hcall as (-> & _ & _ & Hh). intros Hrest.
    rewrite (IH w1 Hrest), Hh. simpl. rewrite <- app_assoc. reflexivity.
Qed.

Lemma file_logging_example_accumulates_handlers_witness :
  lg_handlers (lookup_logger "__main__"
                 (snd (repeat_example "__main__" [noon; next_day] boot))) =
  [example_file_sink noon; example_console_sink;
   example_file_sink next_day; example_console_sink].
Proof.
  assert (fst (repeat_example "__main__" [noon; next_day] boot) = Ret tt) as Hr
    by (vm_compute; reflexivity).
  destruct (repeat_example "__main__" [noon; next_day] boot) as [r w'] eqn:E.
  simpl in Hr. subst r.
  apply (file_logging_example_accumulates_handlers "__main__" [noon; next_day] boot w').
  exact E.
Defined.

(** *** basic_logging_example *)














(** *** An AppLogger after basicConfig *)



(** *** divide *)




Section Divide.
Variable number : Type.
Variable str : number -> string.
Variable truediv : number -> number -> outcome number.


End Divide.

(** *** error_handling_with_logging *)


Section ErrorHandling.
Variable number : Type.
Variable str : number -> string.
Variable of_int : Z -> number.
Variable truediv : number -> number -> outcome number.


End ErrorHandling.

(** *** Python's numbers, for concrete inputs *)

(** An [int] or a [float], with [str] and true division: the quotient
    of two ints is the exact quotient rounded to the nearest float and
    overflows when that is no finite float; a mixed quotient converts
    the int first. *)
Inductive pynum := PInt (n : Z) | PFloat (x : spec_float).

Definition pynum_str (v : pynum) : string :=
  match v with
  | PInt n => pretty n
  | PFloat x => ShopFacts.str_integral x
  end.

Definition int_as_float (n : Z) : spec_float :=
  match n with
  | Z0 => S754_zero false
  | Zpos p => S754_finite false p 0
  | Zneg p => S754_finite true p 0
  end.

Definition pynum_float (v : pynum) : option spec_float :=
  match v with
  | PInt n => ShopFacts.b64_of_int n
  | PFloat x => Some x
  end.

Definition pynum_truediv (a b : pynum) : outcome pynum :=
  match a, b with
  | PInt x, PInt y =>
      if (y =? 0)%Z then Raise (Exc "ZeroDivisionError" "division by zero")
      else match SpecFloat.SFdiv 53 1024 (int_as_float x) (int_as_float y) with
           | S754_infinity _ =>
               Raise (Exc "OverflowError" "integer division result too large for a float")
           | q => Ret (PFloat q)
           end
  | _, _ =>
      match pynum_float a, pynum_float b with
      | Some x, Some (S754_zero _) =>
          Raise (Exc "ZeroDivisionError" "float division by zero")
      | Some x, Some y => Ret (PFloat (SpecFloat.SFdiv 53 1024 x y))
      | _, _ => Raise (Exc "OverflowError" "int too large to convert to float")
      end
  end.




End LoggingExamplesFacts.

(* ===================================================================== *)
(** ** The decorator applied as intended, and the shop bodies            *)
(* ===================================================================== *)

Module ShopCalls.
Import Py Py.Notations Shop ShopFacts.

Section WithFloat.
Context {F : PyFloat}.

(** *** Steps that treat the shop alike in any world *)









(** *** The bodies and the calls respect the shop *)


(** The outcome of the body of [sell]. *)
Lemma sell_def_outcome (count : Z) (price : float) (h : Heap) :
  fst (sell_def count price h) =
  if ((count <=? 0) || (stock (self h) <? count))%Z then Ret false
  else match int_mul count price with
       | Some _ => Ret true
       | None => Raise (Exc "OverflowError" "int too large to convert to float")
       end.
Proof.
  unfold sell_def, bind, get, modify. cbv beta iota.
  destruct (count <=? 0)%Z; cbv beta iota.
  - rewrite in_world_warning. reflexivity.
  - destruct (stock (self h) <? count)%Z; cbv beta iota.
    + rewrite in_world_error. reflexivity.
    + destruct (int_mul count price) as [amount | ]; cbv beta iota.
      * rewrite in_world_info. cbv beta iota. rewrite in_world_info. reflexivity.
      * reflexivity.
Qed.





(** *** The decorator applied with its logger *)


(** *** The bodies of the shop, one after the other *)

(** When [count * price] overflows ([int_mul] has no result), the body
    of [sell] raises [OverflowError] after it has taken the count off
    the stock: the stock is reduced and no sale is recorded. *)
Theorem sell_overflow_loses_stock (count : Z) (price : float) (h : Heap) :
  (0 < count)%Z -> (count <= stock (self h))%Z ->
  int_mul count price = None ->
  let h' := snd (sell_def count price h) in
  fst (sell_def count price h)
  = Raise (Exc "OverflowError" "int too large to convert to float")
  /\ stock (self h') = (stock (self h) - count)%Z
  /\ sales (self h') = sales (self h).
Proof.
  intros Hpos Hle Hmul. cbv zeta.
  assert (((count <=? 0) || (stock (self h) <? count))%Z = false) as Hb.
  { apply orb_false_iff. split; [apply Z.leb_gt | apply Z.ltb_ge]; lia. }
  rewrite sell_def_outcome, Hb, Hmul. split; [reflexivity | ].
  pose proof (sell_def_effect count price h) as E. cbv zeta in E.
  rewrite Hb, Hmul in E. destruct E as (_ & _ & Hst & _ & Hsa).
  split; assumption.
Qed.


(** *** close_shop *)


End WithFloat.

(** *** With the floats of Python *)

#[local] Existing Instance python_float.

(** A shop that has made 2{^1024} daifuku. *)
Definition huge : Z := 2 ^ 1024.
Definition overstocked : Heap := snd (make_daifuku_def huge demo_start).

Lemma sell_overflow_loses_stock_witness :
  is_raise (fst (sell_def huge (fl 300) overstocked)) = true
  /\ stock (self (snd (sell_def huge (fl 300) overstocked))) = 0%Z.
Proof.
  assert (int_mul huge (fl 300) = None) as Hmul.
  { change (b64_int_mul huge (fl 300) = None). vm_compute. reflexivity. }
  assert (stock (self overstocked) = huge) as Hst by (vm_compute; reflexivity).
  destruct (sell_overflow_loses_stock (F := python_float) huge (fl 300) overstocked)
    as (Hr & Hs & _).
  - vm_compute. reflexivity.
  - rewrite Hst. lia.
  - exact Hmul.
  - split; [rewrite Hr; reflexivity | ]. rewrite Hs, Hst. lia.
Defined.


End ShopCalls.

(* ===================================================================== *)
(** ** python_debug_logging.py: pdb_example and the script               *)
(* ===================================================================== *)

Module Script.
Import Py Py.Notations Logging LoggingExamples.

(** *** pdb_example *)

Definition pdb_commands : string :=
  String.concat nl
    [""; "pdbコマンド一覧:";
     "  n (next)     : 次の行へ";
     "  s (step)     : 関数の中に入る";
     "  c (continue) : 次のブレークポイントまで実行";
     "  l (list)     : 現在のコード表示";
     "  p 変数名      : 変数の値を表示";
     "  pp 変数名     : 変数を整形して表示";
     "  q (quit)     : デバッガ終了";
     "  h (help)     : ヘルプ表示";
     "    "].

(** [pdb_example()]. *)
Definition pdb_example : ST unit :=
  print (nl +:+ banner) ;;
  print "pdbデバッガの使い方" ;;
  print banner ;;
  let x := 10 in
  let y := 20 in
  let result := (x + y)%Z in
  print ("計算結果: " +:+ pretty result) ;;
  print pdb_commands.

(** *** The statements under [if __name__ == "__main__"] *)

Definition next_steps : string :=
  String.concat nl
    [""; "次のステップ:";
     "1. logsフォルダ内のログファイルを確認";
     "2. VSCodeでブレークポイントを設定してデバッグ実行";
     "3. エラーが起きた時のログを確認する習慣をつける";
     "    "].

Section WithEnvironment.
Context {F : Shop.PyFloat}.

(** The arithmetic of [divide], as in [LoggingExamples]. *)
Variable number : Type.
Variable str : number -> string.
Variable of_int : Z -> number.
Variable truediv : number -> number -> outcome number.

(** The function that [def demo_shop()] creates.  The script rebinds
    the name before it calls anything, so the body is not needed. *)
Variable demo_shop_def : Shop.func.

(** No shop exists while the statements of the script run; the slot of
    the shop instance holds [nobody]. *)
Variable nobody : Shop.DaifukuShop.

Definition at_module_level {A} (m : Shop.HM A) : ST A :=
  fun w =>
    let (r, h) := m {| Shop.self := nobody; Shop.world := w |} in
    (r, Shop.world h).

(** A call of the value [v] on positional arguments. *)
Definition call_value (v : Shop.value) (args : list Shop.value) : Shop.HM Shop.value :=
  match v with
  | Shop.VFunc f => Shop.call f args
  | _ => raise (Exc "TypeError"
                  ("'" +:+ Shop.type_name v +:+ "' object is not callable"))
  end.

(** The four examples, with the headings printed around them. *)
Definition examples : ST unit :=
  print banner ;;
  print "Pythonデバッグ＆ロギング完全ガイド" ;;
  print banner ;;
  basic_logging_example ;;
  file_logging_example "__main__" ;;
  error_handling_with_logging number str of_int truediv ;;
  pdb_example ;;
  print (nl +:+ banner) ;;
  print "実践例: ふわふわ大福店" ;;
  print banner.

(** The whole script: the examples, then
    [@log_function_call def demo_shop(): ...], which binds [demo_shop]
    to [log_function_call(<function demo_shop>)], then [demo_shop()]
    and the closing lines. *)
Definition script : ST unit :=
  examples ;;
  demo_shop <- at_module_level
                 (Shop.call Shop.Fn_log_function_call [Shop.VFunc demo_shop_def]) ;;
  at_module_level (call_value demo_shop []) ;;
  print (nl +:+ banner) ;;
  print "完了" ;;
  print banner ;;
  print next_steps.

End WithEnvironment.

End Script.

Module ScriptFacts.
Import Py Py.Notations Logging LoggingExamples Script.

Section WithEnvironment.
Context {F : Shop.PyFloat}.
Variable number : Type.
Variable str : number -> string.
Variable of_int : Z -> number.
Variable truediv : number -> number -> outcome number.
Variable demo_shop_def : Shop.func.
Variable nobody : Shop.DaifukuShop.

(** The exception of [demo_shop()]. *)
Definition missing_func : exc :=
  Exc "TypeError"
      "log_function_call.<locals>.decorator() missing 1 required positional argument: 'func'".

Lemma script_unfold (w : World) :
  script number str of_int truediv demo_shop_def nobody w =
  match examples number str of_int truediv w with
  | (Ret _, w1) => (Raise missing_func, w1)
  | (Raise e, w1) => (Raise e, w1)
  end.
Proof.
  unfold script. unfold bind at 1.
  destruct (examples number str of_int truediv w) as [[[] | e] w1]; [ | reflexivity].
  destruct w1. reflexivity.
Qed.

(** The script never reaches its closing lines: whatever the
    environment, the arithmetic and the body of [demo_shop], it ends
    with an exception.  When the four examples return, the exception is
    the [TypeError] of [demo_shop()]: the name is bound to the closure
    [decorator], which is called without its argument [func], and
    nothing is printed or logged after the last heading. *)
Theorem script_ends_with_an_exception (w : World) :
  is_raise (fst (script number str of_int truediv demo_shop_def nobody w)) = true
  /\ forall w1, examples number str of_int truediv w = (Ret tt, w1) ->
       script number str of_int truediv demo_shop_def nobody w
       = (Raise missing_func, w1).
Proof.
  rewrite script_unfold.
  destruct (examples number str of_int truediv w) as [[[] | e] w1].
  - split; [reflexivity | ]. intros w2 [= <-]. reflexivity.
  - split; [reflexivity | ]. intros w2 [=].
Qed.

End WithEnvironment.

(** The script in a new process, with the numbers and the floats of
    Python; any function value can stand for [demo_shop], and any shop
    for the missing instance. *)
Definition unborn : Shop.DaifukuShop (F := ShopFacts.python_float) :=
  {| Shop.name := ""; Shop.stock := 0;
     Shop.sales := Shop.float_zero (PyFloat := ShopFacts.python_float);
     Shop.logger := {| logger := "" |} |}.

Lemma script_ends_with_an_exception_witness :
  fst (script (F := ShopFacts.python_float)
         LoggingExamplesFacts.pynum LoggingExamplesFacts.pynum_str
         LoggingExamplesFacts.PInt LoggingExamplesFacts.pynum_truediv
         Shop.Fn_sell unborn boot)
  = Raise missing_func.
Proof.
  assert (fst (examples LoggingExamplesFacts.pynum LoggingExamplesFacts.pynum_str
                 LoggingExamplesFacts.PInt LoggingExamplesFacts.pynum_truediv boot)
          = Ret tt) as Hr by (vm_compute; reflexivity).
  destruct (examples LoggingExamplesFacts.pynum LoggingExamplesFacts.pynum_str
              LoggingExamplesFacts.PInt LoggingExamplesFacts.pynum_truediv boot)
    as [r w1] eqn:E.
  simpl in Hr. subst r.
  destruct (script_ends_with_an_exception (F := ShopFacts.python_float)
              LoggingExamplesFacts.pynum LoggingExamplesFacts.pynum_str
              LoggingExamplesFacts.PInt LoggingExamplesFacts.pynum_truediv
              Shop.Fn_sell unborn boot) as [_ H].
  rewrite (H w1 E). reflexivity.
Defined.

End ScriptFacts.
